(** * Bar do Vaqueiro backend ([src/api/index.js]): normalisation, login and
    the store-backed request handlers, as a shallow embedding.

    The JavaScript code works on JSON values that arrive in request bodies
    or come back from the table store, so the embedding starts with a small
    model of those values and of the language operations the code applies
    to them ([||], property access, [+], [>], [===], template literals).
    Numbers are doubles: the safe integers are kept as integers, every
    other double by the text it prints to.  Strings are Rocq strings, read
    as the UTF-8 bytes of the JavaScript text.  What the language leaves to
    the implementation or what needs floating-point or Unicode tables (the
    numeric value of a string, sums outside the safe integers, the
    upper-case form of a letter outside ASCII, [Buffer.from] on an object,
    [sort] with an inconsistent comparator) is a field of the class
    [Engine]. *)

From Stdlib Require Import ZArith List Bool Ascii String Lia.
From Stdlib Require Import DecimalString DecimalZ DecimalPos Sorted.
From Stdlib Require Import Nnat Permutation.
Import ListNotations.

Local Open Scope string_scope.
Local Open Scope Z_scope.

(* ------------------------------------------------------------------ *)
(** ** Strings *)

Module Text.

  (** [s.includes(sub)]. *)
Fixpoint includes (sub s : string) : bool :=
    if String.prefix sub s then true
    else match s with
         | EmptyString => false
         | String _ s' => includes sub s'
         end.

  (** Drop the first [n] characters. *)
Fixpoint drop (n : nat) (s : string) : string :=
    match n, s with
    | O, _ => s
    | S n', String _ s' => drop n' s'
    | S _, EmptyString => EmptyString
    end.

  (** [s.replace(pat, rep)] with a string pattern: the first occurrence
      only. *)
Fixpoint replace (pat rep s : string) : string :=
    if String.prefix pat s then rep ++ drop (String.length pat) s
    else match s with
         | EmptyString => EmptyString
         | String c s' => String c (replace pat rep s')
         end.

  (** [s.charAt(0)]: the first character as a string, or the empty string. *)
Definition charAt0 (s : string) : string :=
    match s with
    | EmptyString => EmptyString
    | String c _ => String c EmptyString
    end.

  (** [s.slice(1)]. *)
Definition slice1 (s : string) : string := drop 1 s.

Definition upper_ascii (c : ascii) : ascii :=
    let n := nat_of_ascii c in
    if andb (Nat.leb 97 n) (Nat.leb n 122) then ascii_of_nat (n - 32) else c.

  (** [s.toUpperCase()] on ASCII letters; other characters are kept. *)
Fixpoint toUpperCase (s : string) : string :=
    match s with
    | EmptyString => EmptyString
    | String c s' => String (upper_ascii c) (toUpperCase s')
    end.

  (** [s.split('').reverse().join('')]. *)
Definition reverse (s : string) : string :=
    string_of_list_ascii (List.rev (list_ascii_of_string s)).

  (** [parts.join(sep)]. *)
Fixpoint join (sep : string) (parts : list string) : string :=
    match parts with
    | [] => EmptyString
    | [p] => p
    | p :: ps => p ++ sep ++ join sep ps
    end.

  (** [s.split(sep)] for a one-character separator. *)
Fixpoint split (sep : ascii) (s : string) : list string :=
    match s with
    | EmptyString => [EmptyString]
    | String c s' =>
        if Ascii.eqb c sep then EmptyString :: split sep s'
        else match split sep s' with
             | [] => [String c EmptyString]
             | p :: ps => String c p :: ps
             end
    end.

  (** Decimal text of an integer, as [String(n)] prints an integer below
      10^21 in magnitude. *)
Definition of_Z (n : Z) : string := NilZero.string_of_int (Z.to_int n).

End Text.

(* ------------------------------------------------------------------ *)
(** ** Base64, as [Buffer.from(text).toString('base64')] *)

Module Base64.

Definition alphabet : string :=
    "ABCDEFGHIJKLMNOPQRSTUVWXYZabcdefghijklmnopqrstuvwxyz0123456789+/".

Definition digit (n : N) : ascii :=
    match String.get (N.to_nat n) alphabet with
    | Some c => c
    | None => "="%char
    end.

Definition pad : ascii := "="%char.

  (** Three bytes give four digits; a final group of one or two bytes is
      padded with [=]. *)
Fixpoint encode_bytes (bs : list N) : list ascii :=
    match bs with
    | [] => []
    | [a] =>
        [digit (N.shiftr a 2); digit (N.shiftl (N.land a 3) 4); pad; pad]
    | [a; b] =>
        [digit (N.shiftr a 2);
         digit (N.lor (N.shiftl (N.land a 3) 4) (N.shiftr b 4));
         digit (N.shiftl (N.land b 15) 2); pad]
    | a :: b :: c :: rest =>
        digit (N.shiftr a 2)
        :: digit (N.lor (N.shiftl (N.land a 3) 4) (N.shiftr b 4))
        :: digit (N.lor (N.shiftl (N.land b 15) 2) (N.shiftr c 6))
        :: digit (N.land c 63)
        :: encode_bytes rest
    end.

  (** The text is taken as its UTF-8 bytes, as [Buffer.from(text)] does. *)
Definition encode (s : string) : string :=
    string_of_list_ascii
      (encode_bytes (List.map N_of_ascii (list_ascii_of_string s))).

End Base64.

(* ------------------------------------------------------------------ *)
(** ** JavaScript values *)

(** Numbers are doubles.  [Int z] is the double of integer value [z], for
    the safe integers (at most 2^53 in magnitude), which doubles hold, add
    and print exactly.  Every other double (a fraction, an integer beyond
    the safe ones, an infinity) is [Real text], known by the text that
    [String(x)] gives it; arithmetic on these is the engine's.  The two
    zeros are one: nothing in this program tells [-0] from [0]. *)
Inductive number : Type :=
| NaN
| Int (z : Z)
| Real (text : string).

(** The safe integers. *)
Definition safe (z : Z) : bool := Z.abs z <=? 2 ^ 53.

(** A JSON value, or [undefined].  An object keeps its properties in
    insertion order. *)
#[warnings="-register-all"] Inductive value : Type :=
| Undefined
| Null
| Bool (b : bool)
| Num (n : number)
| Str (s : string)
| Arr (items : list value)
| Obj (fields : list (string * value)).

(** A thrown or returned error object: [error.message] and [error.code]
    (the empty string when the error has no code). *)
Record JsError : Type := mkError { message : string; code : string }.

Definition TypeError (msg : string) : JsError := mkError msg "".

(** The outcome of an expression that may throw. *)
Inductive result (A : Type) : Type :=
| Ok (a : A)
| Throw (e : JsError).
Arguments Ok {A} a.
Arguments Throw {A} e.

Definition bind {A B : Type} (m : result A) (k : A -> result B) : result B :=
  match m with
  | Ok a => k a
  | Throw e => Throw e
  end.

Declare Scope js_scope.
Delimit Scope js_scope with js.
Notation "x <- m ;; k" := (bind m (fun x => k))
  (at level 61, m at next level, right associativity) : js_scope.
Local Open Scope js_scope.

(** [xs.map(f)] for a callback that may throw. *)
Fixpoint mapM {A B : Type} (f : A -> result B) (xs : list A) : result (list B) :=
  match xs with
  | [] => Ok []
  | x :: xs' => y <- f x ;; ys <- mapM f xs' ;; Ok (y :: ys)
  end.

(** [ToBoolean]. *)
Definition truthy (v : value) : bool :=
  match v with
  | Undefined | Null | Bool false | Num NaN | Num (Int 0) | Str EmptyString => false
  | _ => true
  end.

(** [a || b] on already evaluated operands (every right operand in this
    program is free of effects). *)
Definition js_or (a b : value) : value := if truthy a then a else b.

Fixpoint lookup (k : string) (fs : list (string * value)) : value :=
  match fs with
  | [] => Undefined
  | (k', v) :: fs' => if String.eqb k k' then v else lookup k fs'
  end.

(** [v.k] for the property names this program reads (none of them is an
    index, [length] or a prototype method): a property of an object,
    [undefined] on any other value, a [TypeError] on [null] and
    [undefined]. *)
Definition get (v : value) (k : string) : result value :=
  match v with
  | Undefined =>
      Throw (TypeError ("Cannot read properties of undefined (reading '" ++ k ++ "')"))
  | Null =>
      Throw (TypeError ("Cannot read properties of null (reading '" ++ k ++ "')"))
  | Obj fs => Ok (lookup k fs)
  | _ => Ok Undefined
  end.

(** [obj.k = v] on the property list: an existing key keeps its place. *)
Fixpoint set_field (k : string) (v : value) (fs : list (string * value))
  : list (string * value) :=
  match fs with
  | [] => [(k, v)]
  | (k', v') :: fs' =>
      if String.eqb k k' then (k, v) :: fs' else (k', v') :: set_field k v fs'
  end.

(** The own properties [{...v}] copies; the program spreads objects only. *)
Definition own_fields (v : value) : list (string * value) :=
  match v with
  | Obj fs => fs
  | _ => []
  end.

(** [{ ...v, k: x }]. *)
Definition spread_with (v : value) (k : string) (x : value) : value :=
  Obj (set_field k x (own_fields v)).

Definition isArray (v : value) : bool :=
  match v with
  | Arr _ => true
  | _ => false
  end.

(** Whether an object has an own property [k]. *)
Definition has_own (k : string) (fs : list (string * value)) : bool :=
  List.existsb (fun kv => String.eqb k (fst kv)) fs.

(** Whether a value can be converted to a primitive.  An object of a JSON
    text has no callable property, so an own [toString] hides the inherited
    one, [valueOf] gives no primitive either way, and the conversion throws
    a TypeError; an array is converted by joining the texts of its
    elements. *)
Fixpoint printable (v : value) : bool :=
  match v with
  | Arr items => List.forallb printable items
  | Obj fs => negb (has_own "toString" fs)
  | _ => true
  end.

(** The text of [ToString], where the conversion does not throw. *)
Fixpoint ToString (v : value) : string :=
  match v with
  | Undefined => "undefined"
  | Null => "null"
  | Bool true => "true"
  | Bool false => "false"
  | Num NaN => "NaN"
  | Num (Int z) => Text.of_Z z
  | Num (Real text) => text
  | Str s => s
  | Arr items =>
      Text.join ","
        (List.map (fun x => match x with
                            | Undefined | Null => EmptyString
                            | _ => ToString x
                            end) items)
  | Obj _ => "[object Object]"
  end.

(** [`${v}`], and [ToString] wherever the language applies it: the text of
    [v], or the TypeError of a value that has no primitive. *)
Definition template (v : value) : result string :=
  if printable v then Ok (ToString v)
  else Throw (TypeError "Cannot convert object to primitive value").

(** [ToPrimitive]: an array or object becomes its text. *)
Definition ToPrimitive (v : value) : result value :=
  match v with
  | Arr _ | Obj _ => s <- template v ;; Ok (Str s)
  | _ => Ok v
  end.

(** [a === b].  Arrays and objects are compared by identity; the program
    only compares values of different origin (a request field with a stored
    field or with a literal), which are never the same object. *)
Definition strict_eq (a b : value) : bool :=
  match a, b with
  | Undefined, Undefined => true
  | Null, Null => true
  | Bool x, Bool y => Bool.eqb x y
  | Num (Int x), Num (Int y) => Z.eqb x y
  | Num (Real x), Num (Real y) => String.eqb x y
  | Str x, Str y => String.eqb x y
  | _, _ => false
  end.

(** What the program takes from the engine: floating-point parsing and
    arithmetic, Unicode case mapping, Node's [Buffer] on objects, and the
    order [sort] gives with a comparator that is not consistent. *)
Class Engine : Type := {
  (** [Number(s)] for a string [s]. *)
  StringToNumber : string -> number;
  (** [parseFloat(s)] for a string [s]. *)
  parseFloat_text : string -> number;
  (** [a + b] for two numbers, neither [NaN], that are not safe integers of
      a safe sum. *)
  double_add : number -> number -> number;
  (** [s.charAt(0).toUpperCase() + s.slice(1)] for a string that starts
      with a character outside ASCII. *)
  capitalize_unicode : string -> string;
  (** [Buffer.from(v).toString('base64')] for an object, or an array that
      is not one of safe integers. *)
  Buffer_base64 : value -> result string;
  (** [xs.sort(compare)] for a comparator that is not consistent on [xs]
      (or throws on some of its pairs): ECMAScript leaves the order, and
      which pairs are compared, to the implementation. *)
  sort_inconsistent :
    (value -> value -> result Z) -> list value -> result (list value);
  (** An upper-case form is never empty. *)
  capitalize_unicode_nonempty :
    forall s : string, s <> EmptyString -> capitalize_unicode s <> EmptyString;
  (** [sort] rearranges; it neither drops nor repeats an element. *)
  sort_inconsistent_permutation :
    forall compare xs ys,
      sort_inconsistent compare xs = Ok ys -> Permutation xs ys
}.

Section Operators.
Context {E : Engine}.

(** [ToNumber]. *)
Definition ToNumber (v : value) : number :=
  match v with
  | Undefined => NaN
  | Null => Int 0
  | Bool b => Int (if b then 1 else 0)
  | Num n => n
  | Str s => StringToNumber s
  | Arr _ | Obj _ => StringToNumber (ToString v)
  end.

(** Whether a number is above zero; a [Real] is, unless its text has a
    minus sign. *)
Definition above_zero (n : number) : bool :=
  match n with
  | NaN => false
  | Int z => 0 <? z
  | Real text => negb (String.prefix "-" text)
  end.

(** Whether [v > 0] holds: it does not for a value on which the comparison
    throws. *)
Definition gt0 (v : value) : bool := printable v && above_zero (ToNumber v).

(** [v > 0], which converts [v] to a primitive first. *)
Definition js_gt0 (v : value) : result bool :=
  p <- ToPrimitive v ;; Ok (above_zero (ToNumber p)).

(** [a + b] on numbers: exact on safe integers of a safe sum. *)
Definition num_add (a b : number) : number :=
  match a, b with
  | NaN, _ | _, NaN => NaN
  | Int x, Int y => if safe (x + y) then Int (x + y) else double_add a b
  | _, _ => double_add a b
  end.

(** [a + b]: both operands become primitives, the left one first; then
    concatenation as soon as one of them is a string, addition of numbers
    otherwise. *)
Definition js_add (a b : value) : result value :=
  pa <- ToPrimitive a ;;
  pb <- ToPrimitive b ;;
  Ok (match pa, pb with
      | Str _, _ | _, Str _ => Str (ToString pa ++ ToString pb)
      | _, _ => Num (num_add (ToNumber pa) (ToNumber pb))
      end).

End Operators.

(* ------------------------------------------------------------------ *)
(** ** [Array.prototype.sort] *)

(** The stable sort, as insertion sort: each element goes in front of the
    first element of the sorted rest that [compare] does not put before
    it. *)
Fixpoint sort_insert (compare : value -> value -> result Z) (x : value)
  (sorted : list value) : result (list value) :=
  match sorted with
  | [] => Ok [x]
  | y :: ys =>
      c <- compare x y ;;
      if c <=? 0 then Ok (x :: y :: ys)
      else (r <- sort_insert compare x ys ;; Ok (y :: r))
  end.

Fixpoint stable_sort (compare : value -> value -> result Z) (xs : list value)
  : result (list value) :=
  match xs with
  | [] => Ok []
  | x :: xs' => sorted <- stable_sort compare xs' ;; sort_insert compare x sorted
  end.

(** The sign of [compare a b], [None] when the call throws. *)
Definition sign_of (compare : value -> value -> result Z) (a b : value)
  : option Z :=
  match compare a b with
  | Ok c => Some (Z.sgn c)
  | Throw _ => None
  end.

(** ECMAScript's conditions on three values for a consistent comparator:
    every call returns, [a] equals itself, equality is symmetric, and
    equality, before and after are transitive. *)
Definition consistent_on (compare : value -> value -> result Z)
  (a b c : value) : bool :=
  match sign_of compare a a, sign_of compare a b, sign_of compare b a,
        sign_of compare b c, sign_of compare a c with
  | Some aa, Some ab, Some ba, Some bc, Some ac =>
      (aa =? 0)
      && (if ab =? 0 then ba =? 0 else true)
      && (if (ab =? 0) && (bc =? 0) then ac =? 0 else true)
      && (if (ab <? 0) && (bc <? 0) then ac <? 0 else true)
      && (if (0 <? ab) && (0 <? bc) then 0 <? ac else true)
  | _, _, _, _, _ => false
  end.

Definition consistent (compare : value -> value -> result Z) (xs : list value)
  : bool :=
  List.forallb
    (fun a =>
       List.forallb
         (fun b => List.forallb (fun c => consistent_on compare a b c) xs) xs)
    xs.

(** [xs.sort(compare)].  ECMAScript requires the sort to be stable, so
    for a comparator that is consistent on [xs] every conforming engine
    returns the array of the stable sort; otherwise the result is the
    engine's.  Array elements are JSON values, hence never [undefined]. *)
Definition Array_sort `{Engine} (compare : value -> value -> result Z)
  (xs : list value) : result (list value) :=
  if consistent compare xs then stable_sort compare xs
  else sort_inconsistent compare xs.

(* ------------------------------------------------------------------ *)
(** ** The normalisation functions *)

Definition zero : value := Num (Int 0).

Definition placeholder_image : string := "https://via.placeholder.com/400x300".

Section Normalisation.
Context {E : Engine}.

(** The bytes of an array of safe integers, as [Buffer.from(array)] takes
    them: each entry modulo 256. *)
Fixpoint byte_array (items : list value) : option (list N) :=
  match items with
  | [] => Some []
  | Num (Int z) :: rest =>
      if safe z then option_map (cons (Z.to_N (z mod 256))) (byte_array rest)
      else None
  | _ :: _ => None
  end.

(** [Buffer.from(v).toString('base64')]: the UTF-8 bytes of a string, the
    bytes of an array; a TypeError for a number, a boolean, [null] and
    [undefined]. *)
Definition base64_of (v : value) : result string :=
  match v with
  | Str s => Ok (Base64.encode s)
  | Arr items =>
      match byte_array items with
      | Some bytes => Ok (string_of_list_ascii (Base64.encode_bytes bytes))
      | None => Buffer_base64 v
      end
  | Obj _ => Buffer_base64 v
  | _ =>
      Throw (TypeError "The first argument must be of type string or an instance of Buffer, ArrayBuffer, or Array or an Array-like Object.")
  end.

(** [simpleEncrypt(text)]. *)
Definition simpleEncrypt (text : value) : result string :=
  b64 <- base64_of text ;;
  Ok (Text.reverse b64).

(** [s.charAt(0).toUpperCase() + s.slice(1)]: on the empty string and on a
    string that starts with an ASCII character, the first byte in upper
    case before the rest. *)
Definition capitalize (s : string) : string :=
  match s with
  | String c _ =>
      if (N_of_ascii c <? 128)%N
      then Text.toUpperCase (Text.charAt0 s) ++ Text.slice1 s
      else capitalize_unicode s
  | EmptyString => EmptyString
  end.

(** The same on [cat.id], which need not be a string: only a string has
    [charAt]. *)
Definition capitalizeId (id : value) : result value :=
  match id with
  | Str s => Ok (Str (capitalize s))
  | _ => Throw (TypeError "cat.id.charAt is not a function")
  end.

(** The callback of [categories.map] in [normalizeCategories]; [Null] marks
    an element that the following [filter] drops.  [typeof cat] is
    ['string'] for a string and ['object'] for objects, arrays and [null];
    an array has no [id], and [null] fails the [cat &&] test. *)
Definition normalizeCategory (cat : value) : result value :=
  match cat with
  | Str s =>
      Ok (Obj [("id", cat); ("name", Str (capitalize s));
               ("description", Str ("Categoria de " ++ s))])
  | Obj _ =>
      id <- get cat "id" ;;
      if truthy id then
        cname <- get cat "name" ;;
        name <- (if truthy cname then Ok cname else capitalizeId id) ;;
        cdesc <- get cat "description" ;;
        description <- (if truthy cdesc then Ok cdesc
                        else (text <- template (js_or cname id) ;;
                              Ok (Str ("Categoria de " ++ text)))) ;;
        Ok (Obj [("id", id); ("name", name); ("description", description)])
      else Ok Null
  | _ => Ok Null
  end.

Definition not_null (v : value) : bool :=
  match v with
  | Null => false
  | _ => true
  end.

Definition normalizeCategories (categories : value) : result value :=
  match categories with
  | Arr cats =>
      mapped <- mapM normalizeCategory cats ;;
      Ok (Arr (List.filter not_null mapped))
  | _ => Ok (Arr [])
  end.

(** [color.sizes.reduce((total, size) => total + (size.stock || 0), 0)]
    from the running [total]. *)
Fixpoint reduce_stock (total : value) (sizes : list value) : result value :=
  match sizes with
  | [] => Ok total
  | size :: rest =>
      stock <- get size "stock" ;;
      sum <- js_add total (js_or stock zero) ;;
      reduce_stock sum rest
  end.

(** The callback of [product.colors.map]. *)
Definition colorToSabor (color : value) : result value :=
  name <- get color "name" ;;
  image <- get color "image" ;;
  sizes <- get color "sizes" ;;
  quantity <- (if truthy sizes then
                 match sizes with
                 | Arr ss => reduce_stock zero ss
                 | _ => Throw (TypeError "color.sizes.reduce is not a function")
                 end
               else (q <- get color "quantity" ;; Ok (js_or q zero))) ;;
  description <- get color "description" ;;
  Ok (Obj [("name", js_or name (Str "Sem nome"));
           ("image", js_or image (Str placeholder_image));
           ("quantity", quantity);
           ("description", js_or description (Str ""))]).

(** The comparator handed to [sort]. *)
Definition compareSabores (a b : value) : result Z :=
  qa <- get a "quantity" ;;
  qb <- get b "quantity" ;;
  let aStock := js_or qa zero in
  let bStock := js_or qb zero in
  a_above <- js_gt0 aStock ;;
  if a_above && strict_eq bStock zero then Ok (-1)
  else if strict_eq aStock zero
       then (b_above <- js_gt0 bStock ;; if b_above then Ok 1 else Ok 0)
       else Ok 0.

(** The callback of [sortedSabores.map]. *)
Definition fillSabor (sabor : value) : result value :=
  name <- get sabor "name" ;;
  image <- get sabor "image" ;;
  quantity <- get sabor "quantity" ;;
  description <- get sabor "description" ;;
  Ok (Obj [("name", js_or name (Str "Sem nome"));
           ("image", js_or image (Str placeholder_image));
           ("quantity", js_or quantity zero);
           ("description", js_or description (Str ""))]).

(** The callback of [products.map] in [normalizeProducts].  An array is
    truthy, so [x && Array.isArray(x)] holds exactly when [x] is an array. *)
Definition normalizeProduct (product : value) : result value :=
  colors <- get product "colors" ;;
  match colors with
  | Arr cs =>
      sabores <- mapM colorToSabor cs ;;
      Ok (spread_with product "sabores" (Arr sabores))
  | _ =>
      sabores <- get product "sabores" ;;
      match sabores with
      | Arr ss =>
          sortedSabores <- Array_sort compareSabores ss ;;
          filled <- mapM fillSabor sortedSabores ;;
          Ok (spread_with product "sabores" (Arr filled))
      | _ => Ok product
      end
  end.

Definition normalizeProducts (products : value) : result value :=
  match products with
  | Arr ps => mapped <- mapM normalizeProduct ps ;; Ok (Arr mapped)
  | _ => Ok (Arr [])
  end.

(** [parseFloat(v)]: the number parsed from the text of [v]; a number
    prints to a text that parses back to it.  The conversion to text can
    throw. *)
Definition parseFloat (v : value) : result number :=
  match v with
  | Num n => Ok n
  | _ => text <- template v ;; Ok (parseFloat_text text)
  end.

(** The callback of [orders.map] in [normalizeOrders].  Reading a field
    throws on [null] and [undefined] only, at the first field; the one other
    step that can throw, [parseFloat], is put after the reads. *)
Definition normalizeOrder (order : value) : result value :=
  id <- get order "id" ;;
  date <- get order "date" ;;
  time <- get order "time" ;;
  customer_name <- get order "customer_name" ;;
  customerName <- get order "customerName" ;;
  customer_phone <- get order "customer_phone" ;;
  customerPhone <- get order "customerPhone" ;;
  items <- get order "items" ;;
  total <- get order "total" ;;
  payment_method <- get order "payment_method" ;;
  paymentMethod <- get order "paymentMethod" ;;
  status <- get order "status" ;;
  created_at <- get order "created_at" ;;
  createdAt <- get order "createdAt" ;;
  parsed <- parseFloat total ;;
  Ok (Obj [("id", id);
           ("date", date);
           ("time", time);
           ("customerName", js_or customer_name customerName);
           ("customerPhone", js_or customer_phone customerPhone);
           ("items", if isArray items then items else Arr []);
           ("total", js_or (Num parsed) zero);
           ("paymentMethod", js_or payment_method paymentMethod);
           ("status", js_or status (Str "pending"));
           ("createdAt", js_or created_at createdAt)]).

Definition normalizeOrders (orders : value) : result value :=
  match orders with
  | Arr os => mapped <- mapM normalizeOrder os ;; Ok (Arr mapped)
  | _ => Ok (Arr [])
  end.

(** [checkAuth(token)]. *)
Definition checkAuth (token : string) : bool :=
  String.eqb token "authenticated_admin_token".

End Normalisation.

(* ------------------------------------------------------------------ *)
(** ** The table store *)

(** A column filter as the client puts it on the wire: the operand is the
    text of the value ([column=eq.text]). *)
Inductive Filter : Type :=
| FEq (column text : string)
| FNeq (column text : string)
| FNotIn (column list_text : string).

(** The requests the handlers send: [from(table)] followed by one operation
    and its filters. *)
Inductive Query : Type :=
| Select (table : string) (columns : list string) (filters : list Filter)
    (order : list string) (single : bool)
| Insert (table : string) (rows : list value) (returning : bool)
| Update (table : string) (patch : value) (filters : list Filter)
| Upsert (table : string) (rows : list value) (onConflict : string)
| Delete (table : string) (filters : list Filter).

(** What the client resolves to: [{ data, error: null }] or
    [{ data: null, error }]. *)
Inductive Reply : Type :=
| Data (data : value)
| Failure (error : JsError).

(** Modelled from the spec: the Table Store, an external relational store
    reached by column-filtered select, insert, update, upsert and delete.
    A table is the list of its rows; [next_id] is the next store-assigned
    identifier. *)
Record Database : Type := mkDatabase {
  tables : list (string * list value);
  next_id : Z
}.

Fixpoint table_rows (t : string) (ts : list (string * list value))
  : option (list value) :=
  match ts with
  | [] => None
  | (t', rows) :: ts' => if String.eqb t t' then Some rows else table_rows t ts'
  end.

Fixpoint table_put (t : string) (rows : list value)
  (ts : list (string * list value)) : list (string * list value) :=
  match ts with
  | [] => [(t, rows)]
  | (t', rows') :: ts' =>
      if String.eqb t t' then (t, rows) :: ts' else (t', rows') :: table_put t rows ts'
  end.

Definition is_nullish (v : value) : bool :=
  match v with
  | Undefined | Null => true
  | _ => false
  end.

(** [v.k] for a value already known not to be [null] or [undefined]. *)
Definition prop (v : value) (k : string) : value := lookup k (own_fields v).

Definition column (c : string) (row : value) : value := prop row c.

Definition string_in (s : string) (l : list string) : bool :=
  List.existsb (String.eqb s) l.

(** ['text'] without its quotes. *)
Definition unquote (s : string) : string :=
  match s with
  | String "'" rest =>
      match Text.reverse rest with
      | String "'" inner => Text.reverse inner
      | _ => s
      end
  | _ => s
  end.

(** The items of an [in] list [('a','b','c')]. *)
Definition in_list_items (list_text : string) : list string :=
  match list_text with
  | String "(" rest =>
      List.map unquote
        (Text.split "," (Text.reverse (Text.drop 1 (Text.reverse rest))))
  | _ => List.map unquote (Text.split "," list_text)
  end.

(** Modelled from the spec: a filter compares the text of the column with
    its operand; a null column satisfies no filter. *)
Definition matches (f : Filter) (row : value) : bool :=
  match f with
  | FEq c text =>
      negb (is_nullish (column c row)) && String.eqb (ToString (column c row)) text
  | FNeq c text =>
      negb (is_nullish (column c row)) && negb (String.eqb (ToString (column c row)) text)
  | FNotIn c list_text =>
      negb (is_nullish (column c row))
      && negb (string_in (ToString (column c row)) (in_list_items list_text))
  end.

Definition matches_all (fs : list Filter) (row : value) : bool :=
  List.forallb (fun f => matches f row) fs.

Definition project (columns : list string) (row : value) : value :=
  match columns with
  | [] => row
  | _ => Obj (List.map (fun c => (c, column c row)) columns)
  end.

(** Rows get consecutive store-assigned identifiers. *)
Fixpoint assign_ids (next : Z) (rows : list value) : list value :=
  match rows with
  | [] => []
  | r :: rs => spread_with r "id" (Num (Int next)) :: assign_ids (next + 1) rs
  end.

(** [patch] written over [row]. *)
Definition apply_patch (patch row : value) : value :=
  Obj (List.fold_left (fun fs kv => set_field (fst kv) (snd kv) fs)
         (own_fields patch) (own_fields row)).

Definition same_key (k : string) (a b : value) : bool :=
  String.eqb (ToString (column k a)) (ToString (column k b)).

(** Insert-or-update by the conflict column. *)
Fixpoint upsert_row (k : string) (r : value) (rows : list value) : list value :=
  match rows with
  | [] => [r]
  | x :: xs => if same_key k r x then apply_patch r x :: xs else x :: upsert_row k r xs
  end.

Definition dquote : string := String (ascii_of_nat 34) EmptyString.

Definition missing_table (t : string) : JsError :=
  mkError ("relation " ++ dquote ++ "public." ++ t ++ dquote ++ " does not exist")
          "42P01".

Definition not_single : JsError :=
  mkError "JSON object requested, multiple (or no) rows returned" "PGRST116".

(** Modelled from the spec: what one request does to the store and what it
    answers.  A request on a table that does not exist fails with the
    missing-table error; [single()] fails unless exactly one row is
    selected.  Rows come back in table order. *)
Definition exec (q : Query) (db : Database) : Reply * Database :=
  let on_table t k :=
    match table_rows t (tables db) with
    | None => (Failure (missing_table t), db)
    | Some rows => k rows
    end in
  let store t rows := mkDatabase (table_put t rows (tables db)) (next_id db) in
  match q with
  | Select t columns filters _ single =>
      on_table t (fun rows =>
        let found := List.map (project columns) (List.filter (matches_all filters) rows) in
        if single then
          match found with
          | [row] => (Data row, db)
          | _ => (Failure not_single, db)
          end
        else (Data (Arr found), db))
  | Insert t new_rows returning =>
      on_table t (fun rows =>
        let stored := assign_ids (next_id db) new_rows in
        (Data (if returning then Arr stored else Null),
         mkDatabase (table_put t (rows ++ stored) (tables db))
                    (next_id db + Z.of_nat (List.length new_rows))))
  | Update t patch filters =>
      on_table t (fun rows =>
        (Data Null,
         store t (List.map (fun r => if matches_all filters r
                                     then apply_patch patch r else r) rows)))
  | Upsert t new_rows k =>
      on_table t (fun rows =>
        (Data Null,
         store t (List.fold_left (fun acc r => upsert_row k r acc) new_rows rows)))
  | Delete t filters =>
      on_table t (fun rows =>
        (Data Null,
         store t (List.filter (fun r => negb (matches_all filters r)) rows)))
  end.

(** ** Handlers run against a world: the store, the faults the store or the
    network will raise (one entry per request, [None] for a request that
    goes through), and the requests made so far with their replies. *)
Record World : Type := mkWorld {
  database : Database;
  faults : list (option JsError);
  trace : list (Query * Reply)
}.

Definition IO (A : Type) : Type := World -> result A * World.

Definition io_ret {A : Type} (a : A) : IO A := fun w => (Ok a, w).

Definition io_bind {A B : Type} (m : IO A) (k : A -> IO B) : IO B :=
  fun w => match m w with
           | (Ok a, w') => k a w'
           | (Throw e, w') => (Throw e, w')
           end.

Definition io_throw {A : Type} (e : JsError) : IO A := fun w => (Throw e, w).

(** A pure expression inside a handler. *)
Definition lift {A : Type} (r : result A) : IO A := fun w => (r, w).

Declare Scope io_scope.
Delimit Scope io_scope with io.
Notation "x <- m ;; k" := (io_bind m (fun x => k))
  (at level 61, m at next level, right associativity) : io_scope.

(** The reply to a request and the store after it: the pending fault, if
    there is one, and the store's own answer otherwise. *)
Definition answer (q : Query) (w : World) : Reply * Database :=
  match faults w with
  | Some e :: _ => (Failure e, database w)
  | _ => exec q (database w)
  end.

(** [await supabase.from(...)...]: never throws, resolves to a reply. *)
Definition supabase (q : Query) : IO Reply :=
  fun w =>
    let a := answer q w in
    (Ok (fst a),
     mkWorld (snd a) (List.tl (faults w)) (trace w ++ [(q, fst a)])).

(* ------------------------------------------------------------------ *)
(** ** Requests, responses and the handlers *)

Record Request : Type := mkRequest {
  authorization : option string;   (* [req.headers.authorization] *)
  body : value                     (* [req.body] *)
}.

Record Response : Type := mkResponse {
  status : Z;
  json : value
}.

(** [res.json(v)] and [res.status(code).json({ error: msg })]. *)
Definition res_json (v : value) : Response := mkResponse 200 v.

Definition res_error (code : Z) (msg : string) : Response :=
  mkResponse code (Obj [("error", Str msg)]).

(** [try { body } catch (error) { handler }]. *)
Definition try_catch (body : IO Response) (handler : JsError -> Response)
  : World -> Response * World :=
  fun w => match body w with
           | (Ok r, w') => (r, w')
           | (Throw e, w') => (handler e, w')
           end.

(** [if (error) throw error;] after a request. *)
Definition or_throw (r : Reply) : IO value :=
  match r with
  | Data d => io_ret d
  | Failure e => io_throw e
  end.

(** [v.length]; the callers have excluded [null] and [undefined]. *)
Definition get_length (v : value) : value :=
  match v with
  | Arr items => Num (Int (Z.of_nat (List.length items)))
  | Str s => Num (Int (Z.of_nat (String.length s)))
  | Obj fs => lookup "length" fs
  | _ => Undefined
  end.

(** [v?.length]. *)
Definition optional_length (v : value) : value :=
  if is_nullish v then Undefined else get_length v.

(** [v?.length || 0], the count that the handlers write to the log. *)
Definition counted (v : value) : value := js_or (optional_length v) zero.

(** [v[0]]. *)
Definition get_index0 (v : value) : result value :=
  match v with
  | Undefined => Throw (TypeError "Cannot read properties of undefined (reading '0')")
  | Null => Throw (TypeError "Cannot read properties of null (reading '0')")
  | Arr (x :: _) => Ok x
  | Str (String c _) => Ok (Str (String c EmptyString))
  | Obj fs => Ok (lookup "0" fs)
  | _ => Ok Undefined
  end.

(** [!authHeader || !checkAuth(authHeader.replace("Bearer ", ""))]. *)
Definition unauthorized (req : Request) : bool :=
  match authorization req with
  | None => true
  | Some authHeader =>
      match authHeader with
      | EmptyString => true
      | _ => negb (checkAuth (Text.replace "Bearer " "" authHeader))
      end
  end.

Definition items (v : value) : list value :=
  match v with
  | Arr l => l
  | _ => []
  end.

Definition heineken : value :=
  Obj [("id", Num (Int 1)); ("title", Str "Cerveja Heineken");
       ("category", Str "cerveja"); ("price", Num (Int 12));
       ("description", Str "Cerveja premium importada");
       ("sabores",
        Arr [Obj [("name", Str "Long Neck");
                  ("image", Str "https://via.placeholder.com/400x300/8B4513/FFFFFF?text=🍺");
                  ("quantity", Num (Int 50));
                  ("description", Str "Garrafa 330ml")]]);
       ("status", Str "active"); ("display_order", Num (Int 1))].

Definition batata_frita : value :=
  Obj [("id", Num (Int 2)); ("title", Str "Porção de Batata Frita");
       ("category", Str "petisco"); ("price", Num (Int 25));
       ("description", Str "Porção de batata frita crocante");
       ("sabores",
        Arr [Obj [("name", Str "Média");
                  ("image", Str "https://via.placeholder.com/400x300/8B4513/FFFFFF?text=🍟");
                  ("quantity", Num (Int 20));
                  ("description", Str "Porção para 2 pessoas")]]);
       ("status", Str "active"); ("display_order", Num (Int 2))].

Definition cerveja_de_teste : value :=
  Obj [("id", Num (Int 1)); ("title", Str "Cerveja de Teste");
       ("category", Str "cerveja"); ("price", Num (Int 10));
       ("description", Str "Cerveja de exemplo para teste");
       ("sabores",
        Arr [Obj [("name", Str "Long Neck");
                  ("image", Str "https://via.placeholder.com/400x300/8B4513/FFFFFF?text=🍺");
                  ("quantity", Num (Int 10));
                  ("description", Str "Garrafa de teste")]]);
       ("status", Str "active"); ("display_order", Num (Int 1))].

Definition category_record (id name description : string) : value :=
  Obj [("id", Str id); ("name", Str name); ("description", Str description)].

Definition categoriasExemplo_missing : value :=
  Arr [category_record "cerveja" "Cervejas" "Cervejas de diversos tipos e marcas";
       category_record "refrigerante" "Refrigerantes" "Refrigerantes e bebidas não alcoólicas";
       category_record "petisco" "Petiscos" "Petiscos e acompanhamentos"].

Definition categoriasExemplo_empty : value :=
  Arr [category_record "cerveja" "Cervejas" "Cervejas diversas"].

Definition token_body (username : value) : value :=
  Obj [("success", Bool true);
       ("token", Str "authenticated_admin_token");
       ("user", Obj [("username", username)])].

Definition success_body (msg : string) : value :=
  Obj [("success", Bool true); ("message", Str msg)].

Section Handlers.
Context {E : Engine}.
Local Open Scope io_scope.

(** [console.log(`... ${v} ...`)]: the text of [v] is built, which can
    throw, and goes to the log. *)
Definition log (v : value) : IO string := lift (template v).

(** [GET /api/products]. *)
Definition get_products (req : Request) : World -> Response * World :=
  try_catch
    (r <- supabase (Select "products" [] [] ["display_order"; "id"] false) ;;
     match r with
     | Failure error =>
         if Text.includes "does not exist" (message error)
         then io_ret (res_json (Obj [("products", Arr [heineken; batata_frita])]))
         else io_ret (res_json (Obj [("products", Arr [])]))
     | Data products =>
         _ <- log (counted products) ;;
         if negb (truthy products) || strict_eq (get_length products) zero
         then io_ret (res_json (Obj [("products", Arr [cerveja_de_teste])]))
         else
           normalizedProducts <- lift (normalizeProducts products) ;;
           io_ret (res_json (Obj [("products", normalizedProducts)]))
     end)
    (fun _ => res_json (Obj [("products", Arr [])])).

(** [GET /api/categories]. *)
Definition get_categories (req : Request) : World -> Response * World :=
  try_catch
    (r <- supabase (Select "categories" [] [] ["name"] false) ;;
     match r with
     | Failure error =>
         if Text.includes "does not exist" (message error)
         then io_ret (res_json (Obj [("categories", categoriasExemplo_missing)]))
         else io_ret (res_json (Obj [("categories", Arr [])]))
     | Data categories =>
         _ <- log (counted categories) ;;
         if negb (truthy categories) || strict_eq (get_length categories) zero
         then io_ret (res_json (Obj [("categories", categoriasExemplo_empty)]))
         else
           normalizedCategories <- lift (normalizeCategories categories) ;;
           io_ret (res_json (Obj [("categories", normalizedCategories)]))
     end)
    (fun _ => res_json (Obj [("categories", Arr [])])).

(** [GET /api/orders]. *)
Definition get_orders (req : Request) : World -> Response * World :=
  try_catch
    (r <- supabase (Select "orders" [] [] ["created_at"] false) ;;
     match r with
     | Failure error =>
         if Text.includes "does not exist" (message error)
         then io_ret (res_json (Obj [("orders", Arr [])]))
         else io_ret (res_json (Obj [("orders", Arr [])]))
     | Data orders =>
         _ <- log (counted orders) ;;
         normalizedOrders <- lift (normalizeOrders (js_or orders (Arr []))) ;;
         io_ret (res_json (Obj [("orders", normalizedOrders)]))
     end)
    (fun _ => res_json (Obj [("orders", Arr [])])).

(** The row [POST /api/orders] stores; [orderData] is truthy here. *)
Definition orderToSave (orderData : value) : value :=
  Obj [("date", prop orderData "date");
       ("time", prop orderData "time");
       ("customer_name", prop orderData "customerName");
       ("customer_phone", prop orderData "customerPhone");
       ("items", if isArray (prop orderData "items")
                 then prop orderData "items" else Arr []);
       ("total", js_or (prop orderData "total") zero);
       ("payment_method", prop orderData "paymentMethod");
       ("status", js_or (prop orderData "status") (Str "pending"))].

(** [POST /api/orders]. *)
Definition post_orders (req : Request) : World -> Response * World :=
  try_catch
    (orderData <- lift (get (body req) "orderData") ;;
     if negb (truthy orderData) || negb (truthy (prop orderData "customerName"))
     then io_ret (res_error 400 "Dados do pedido inválidos")
     else
       r <- supabase (Insert "orders" [orderToSave orderData] true) ;;
       data <- or_throw r ;;
       first <- lift (get_index0 data) ;;
       orderId <- lift (get first "id") ;;
       io_ret (res_json (Obj [("success", Bool true);
                              ("message", Str "Pedido registrado");
                              ("orderId", orderId)])))
    (fun error => res_error 500 ("Erro ao salvar pedido: " ++ message error)).

(** [POST /api/orders/update-status]; [now] is [new Date().toISOString()]. *)
Definition post_orders_update_status (now : string) (req : Request)
  : World -> Response * World :=
  try_catch
    (orderId <- lift (get (body req) "orderId") ;;
     status <- lift (get (body req) "status") ;;
     _ <- log orderId ;;
     _ <- log status ;;
     if negb (truthy orderId) || negb (truthy status)
     then io_ret (res_error 400 "ID do pedido e status são obrigatórios")
     else
       r <- supabase (Update "orders"
                        (Obj [("status", status); ("updated_at", Str now)])
                        [FEq "id" (ToString orderId)]) ;;
       _ <- or_throw r ;;
       io_ret (res_json (success_body
                 ("Status do pedido atualizado para " ++ ToString status))))
    (fun error =>
       res_error 500 ("Erro ao atualizar status do pedido: " ++ message error)).

(** [POST /api/auth/login].  The client's [.eq('username', username)]
    writes its operand with a template literal, which throws for a name
    that has no text; every other filter of the program is built from a
    literal or from a value that the handler has written to the log
    before. *)
Definition post_auth_login (req : Request) : World -> Response * World :=
  try_catch
    (username <- lift (get (body req) "username") ;;
     password <- lift (get (body req) "password") ;;
     if negb (truthy username) || negb (truthy password)
     then io_ret (res_error 400 "Usuário e senha são obrigatórios")
     else
       _ <- lift (template username) ;;
       r <- supabase (Select "admin_credentials" []
                        [FEq "username" (ToString username)] [] true) ;;
       match r with
       | Failure error =>
           if Text.includes "does not exist" (message error)
              || String.eqb (code error) "PGRST116"
           then
             if strict_eq username (Str "admin")
                && strict_eq password (Str "admin123")
             then io_ret (res_json (token_body (Str "admin")))
             else io_ret (res_error 401 "Credenciais inválidas")
           else io_ret (res_error 401 "Erro no sistema")
       | Data credentials =>
           if negb (truthy credentials)
           then io_ret (res_error 401 "Credenciais inválidas")
           else
             let isPlainPasswordValid :=
               strict_eq password (prop credentials "password") in
             encryptedInput <- lift (simpleEncrypt password) ;;
             let isPasswordValid :=
               strict_eq (Str encryptedInput)
                         (prop credentials "encrypted_password") in
             if isPasswordValid || isPlainPasswordValid
             then io_ret (res_json (token_body username))
             else io_ret (res_error 401 "Credenciais inválidas")
       end)
    (fun _ => res_error 500 "Erro no processo de login").

(** [GET /api/auth/verify]. *)
Definition get_auth_verify (req : Request) : Response :=
  let valid :=
    match authorization req with
    | Some header =>
        let token := Text.replace "Bearer " "" header in
        negb (String.eqb token "") && checkAuth token
    | None => false
    end in
  if valid
  then res_json (Obj [("valid", Bool true);
                      ("user", Obj [("username", Str "admin")])])
  else res_json (Obj [("valid", Bool false)]).

(** The callback of [normalizedProducts.map] in [POST /api/products]. *)
Definition productToInsert (product : value) : result value :=
  (title <- get product "title" ;;
   category <- get product "category" ;;
   price <- get product "price" ;;
   description <- get product "description" ;;
   status <- get product "status" ;;
   sabores <- get product "sabores" ;;
   display_order <- get product "display_order" ;;
   Ok (Obj [("title", title);
            ("category", category);
            ("price", price);
            ("description", description);
            ("status", status);
            ("sabores", sabores);
            ("display_order", js_or display_order zero)]))%js.

(** [POST /api/products]. *)
Definition post_products (req : Request) : World -> Response * World :=
  try_catch
    (if unauthorized req then io_ret (res_error 401 "Não autorizado")
     else
       products <- lift (get (body req) "products") ;;
       _ <- log (counted products) ;;
       normalizedProducts <- lift (normalizeProducts products) ;;
       r <- supabase (Delete "products" [FNeq "id" "0"]) ;;
       _ <- or_throw r ;;
       _ <- match items normalizedProducts with
            | [] => io_ret Null
            | _ :: _ =>
                productsToInsert <-
                  lift (mapM productToInsert (items normalizedProducts)) ;;
                r' <- supabase (Insert "products" productsToInsert false) ;;
                or_throw r'
            end ;;
       io_ret (res_json (success_body
                 (ToString (get_length normalizedProducts) ++ " produtos salvos"))))
    (fun error => res_error 500 ("Erro ao salvar produtos: " ++ message error)).

(** [POST /api/categories/add]. *)
Definition post_categories_add (req : Request) : World -> Response * World :=
  try_catch
    (if unauthorized req then io_ret (res_error 401 "Não autorizado")
     else
       category <- lift (get (body req) "category") ;;
       if negb (truthy category)
          || negb (truthy (prop category "id"))
          || negb (truthy (prop category "name"))
       then io_ret (res_error 400 "Dados da categoria inválidos")
       else
         _ <- log (prop category "name") ;;
         _ <- log (prop category "id") ;;
         r <- supabase
                (Upsert "categories"
                   [Obj [("id", prop category "id");
                         ("name", prop category "name");
                         ("description",
                          js_or (prop category "description")
                                (Str ("Categoria de "
                                      ++ ToString (prop category "name"))))]]
                   "id") ;;
         _ <- or_throw r ;;
         io_ret (res_json (success_body
                   ("Categoria " ++ dquote ++ ToString (prop category "name")
                    ++ dquote ++ " adicionada"))))
    (fun error => res_error 500 ("Erro ao adicionar categoria: " ++ message error)).

(** [POST /api/categories/delete]. *)
Definition post_categories_delete (req : Request) : World -> Response * World :=
  try_catch
    (if unauthorized req then io_ret (res_error 401 "Não autorizado")
     else
       categoryId <- lift (get (body req) "categoryId") ;;
       if negb (truthy categoryId)
       then io_ret (res_error 400 "ID da categoria é obrigatório")
       else
         _ <- log categoryId ;;
         r1 <- supabase (Select "products" ["id"; "title"]
                           [FEq "category" (ToString categoryId)] [] false) ;;
         productsInCategory <- or_throw r1 ;;
         some <- lift (if truthy productsInCategory
                       then js_gt0 (get_length productsInCategory)
                       else Ok false) ;;
         _ <- (if some : bool
               then
                 _ <- log (get_length productsInCategory) ;;
                 r2 <- supabase (Update "products"
                                   (Obj [("category", Str "default")])
                                   [FEq "category" (ToString categoryId)]) ;;
                 _ <- or_throw r2 ;;
                 _ <- log (get_length productsInCategory) ;;
                 io_ret Null
               else io_ret Null) ;;
         r3 <- supabase (Delete "categories" [FEq "id" (ToString categoryId)]) ;;
         _ <- or_throw r3 ;;
         _ <- log (counted productsInCategory) ;;
         io_ret (res_json (success_body
                   ("Categoria excluída com sucesso! "
                    ++ ToString (counted productsInCategory)
                    ++ " produtos foram movidos para categoria padrão."))))
    (fun error => res_error 500 ("Erro ao excluir categoria: " ++ message error)).

(** [`(${categoryIds.map(id => `'${id}'`).join(',')})`], for ids that have
    a text. *)
Definition not_in_list (categoryIds : list value) : string :=
  "(" ++ Text.join "," (List.map (fun id => "'" ++ ToString id ++ "'") categoryIds)
  ++ ")".

(** [POST /api/categories]. *)
Definition post_categories (req : Request) : World -> Response * World :=
  try_catch
    (if unauthorized req then io_ret (res_error 401 "Não autorizado")
     else
       categories <- lift (get (body req) "categories") ;;
       _ <- log (counted categories) ;;
       normalizedCategories <- lift (normalizeCategories categories) ;;
       match items normalizedCategories with
       | [] => io_ret (res_error 400 "Nenhuma categoria fornecida")
       | _ :: _ =>
           let categoryIds :=
             List.map (fun cat => prop cat "id") (items normalizedCategories) in
           _ <- lift (mapM template categoryIds) ;;
           r1 <- supabase (Delete "categories"
                             [FNotIn "id" (not_in_list categoryIds)]) ;;
           _ <- match r1 with
                | Failure deleteError =>
                    if negb (Text.includes "No rows found" (message deleteError))
                    then io_throw deleteError
                    else io_ret Null
                | Data _ => io_ret Null
                end ;;
           r2 <- supabase
                   (Upsert "categories"
                      (List.map (fun c => Obj [("id", prop c "id");
                                               ("name", prop c "name");
                                               ("description", prop c "description")])
                         (items normalizedCategories))
                      "id") ;;
           _ <- or_throw r2 ;;
           io_ret (res_json (success_body
                     (ToString (get_length normalizedCategories)
                      ++ " categorias salvas")))
       end)
    (fun error => res_error 500 ("Erro ao salvar categorias: " ++ message error)).

End Handlers.

(** A handler run from a store and a list of faults, the trace empty. *)
Definition run (h : World -> Response * World) (db : Database)
  (fs : list (option JsError)) : Response * World :=
  h (mkWorld db fs []).

(* ------------------------------------------------------------------ *)
(** ** An engine for running the model on integer literals *)

Definition integer_literal (s : string) : number :=
  match NilZero.int_of_string s with
  | Some d => if safe (Z.of_int d) then Int (Z.of_int d) else NaN
  | None => NaN
  end.

Definition sorted_as_given (compare : value -> value -> result Z)
  (xs : list value) : result (list value) := Ok xs.

Definition sorted_as_given_permutation
  (compare : value -> value -> result Z) (xs ys : list value)
  (H : sorted_as_given compare xs = Ok ys) : Permutation xs ys :=
  match H in (_ = r) return match r with
                            | Ok l => Permutation xs l
                            | Throw _ => True
                            end with
  | eq_refl => Permutation_refl xs
  end.

(** The built-ins on the fragment of the safe integer literals: enough to
    evaluate the model on the inputs of the examples below, none of which
    leaves the fragment.  Outside it the fields are placeholders. *)
#[export] Instance IntegerEngine : Engine := {|
  StringToNumber s := match s with
                      | EmptyString => Int 0
                      | _ => integer_literal s
                      end;
  parseFloat_text s := integer_literal s;
  double_add _ _ := NaN;
  capitalize_unicode s := s;
  Buffer_base64 _ :=
    Throw (TypeError "The first argument must be of type string or an instance of Buffer, ArrayBuffer, or Array or an Array-like Object.");
  sort_inconsistent := sorted_as_given;
  capitalize_unicode_nonempty s H := H;
  sort_inconsistent_permutation := sorted_as_given_permutation
|}.

(* ------------------------------------------------------------------ *)
(** ** The specification's vocabulary *)

Section Vocabulary.
Context {E : Engine}.

(** The stock the comparator reads off a flavor: [sabor.quantity || 0]. *)
Definition stock (sabor : value) : value := js_or (prop sabor "quantity") zero.

(** Quantity above zero, and quantity equal to zero. *)
Definition available (sabor : value) : bool := gt0 (stock sabor).

Definition sold_out (sabor : value) : bool := strict_eq (stock sabor) zero.

(** The comparator's verdict on two entries that are not [null]. *)
Definition verdict (a b : value) : Z :=
  if available a && sold_out b then -1
  else if sold_out a && available b then 1
  else 0.

(** Two neighbours that the comparator does not ask to swap. *)
Definition in_order (a b : value) : Prop := verdict a b <= 0.

(** A flavor of the data model: an entry whose quantity is a positive number
    or is zero (or absent, which counts as zero). *)
Definition well_stocked (sabor : value) : Prop :=
  is_nullish sabor = false /\ (available sabor = true \/ sold_out sabor = true).

(** An entry that the comparator takes without an exception: it is there,
    and its stock has a primitive. *)
Definition comparable (sabor : value) : Prop :=
  is_nullish sabor = false /\ printable (stock sabor) = true.

(** A product of the data model: when it has a [sabores] array and no
    [colors] array, its flavors are flavors of the data model. *)
Definition data_model_product (product : value) : Prop :=
  isArray (prop product "colors") = false ->
  forall ss, prop product "sabores" = Arr ss -> Forall well_stocked ss.

(** An entry with its defaults filled: the name, the placeholder image, the
    quantity 0 and the empty description. *)
Definition filled (sabor : value) : value :=
  Obj [("name", js_or (prop sabor "name") (Str "Sem nome"));
       ("image", js_or (prop sabor "image") (Str placeholder_image));
       ("quantity", stock sabor);
       ("description", js_or (prop sabor "description") (Str ""))].

(** Stable partition by availability: the available entries in their input
    order, then the sold-out ones in theirs. *)
Definition stable_partition (sabores : list value) : list value :=
  List.filter available sabores ++ List.filter sold_out sabores.

(** No sold-out entry immediately before an available one. *)
Definition availability_first (flavors : list value) : Prop :=
  forall i a b,
    List.nth_error flavors i = Some a ->
    List.nth_error flavors (S i) = Some b ->
    ~ (prop a "quantity" = zero /\ gt0 (prop b "quantity") = true).







(** The reversible transform of the specification: base64-encode the text,
    then reverse the characters. *)
Definition transform (text : string) : string :=
  Text.reverse (Base64.encode text).

(** The number in a total: the total itself when it is a number, the
    number that its text starts with otherwise ([NaN] when it starts with
    none). *)
Definition parsed_total (total : value) : number :=
  match total with
  | Num n => n
  | _ => parseFloat_text (ToString total)
  end.

(** An order that [normalizeOrders] converts: it is there, and its total
    can be written as text, which [parseFloat] does first. *)
Definition order_converts (order : value) : bool :=
  negb (is_nullish order) && printable (prop order "total").

(** The external shape the specification gives an order; a total that
    parses to no number, or to 0, gives 0. *)
Definition external_order (order : value) : value :=
  Obj [("id", prop order "id");
       ("date", prop order "date");
       ("time", prop order "time");
       ("customerName",
        if truthy (prop order "customer_name")
        then prop order "customer_name" else prop order "customerName");
       ("customerPhone",
        if truthy (prop order "customer_phone")
        then prop order "customer_phone" else prop order "customerPhone");
       ("items",
        match prop order "items" with
        | Arr l => Arr l
        | _ => Arr []
        end);
       ("total", js_or (Num (parsed_total (prop order "total"))) zero);
       ("paymentMethod",
        if truthy (prop order "payment_method")
        then prop order "payment_method" else prop order "paymentMethod");
       ("status",
        if truthy (prop order "status") then prop order "status"
        else Str "pending");
       ("createdAt",
        if truthy (prop order "created_at")
        then prop order "created_at" else prop order "createdAt")].

(** The row [POST /api/products] stores for a normalised product. *)
Definition stored_product (product : value) : value :=
  Obj [("title", prop product "title");
       ("category", prop product "category");
       ("price", prop product "price");
       ("description", prop product "description");
       ("status", prop product "status");
       ("sabores", prop product "sabores");
       ("display_order", js_or (prop product "display_order") zero)].

End Vocabulary.

(** The rows of a table, the empty list for a table that does not exist. *)
Definition rows_of (t : string) (db : Database) : list value :=
  match table_rows t (tables db) with
  | Some rows => rows
  | None => []
  end.

(** The requests of a run that failed, with their errors. *)
Definition failed (q : Query) (e : JsError) (out : Response * World) : Prop :=
  List.In (q, Failure e) (trace (snd out)).

(** The missing-table class of store errors. *)
Definition missing_table_class (e : JsError) : bool :=
  Text.includes "does not exist" (message e).

Definition bearer : option string := Some "Bearer authenticated_admin_token".

(** The rows the delete-all filter [id <> 0] does not reach. *)
Definition survivors (rows : list value) : list value :=
  List.filter (fun r => negb (matches_all [FNeq "id" "0"] r)) rows.

(** The filter [.eq('category', categoryId)] of the category delete: the
    product rows that refer to the category.  The store compares the text
    of the column with the text of the id. *)
Definition in_category (categoryId row : value) : bool :=
  matches_all [FEq "category" (ToString categoryId)] row.

(** The filter [.eq('id', categoryId)] of the category delete. *)
Definition has_id (categoryId row : value) : bool :=
  matches_all [FEq "id" (ToString categoryId)] row.

(** A product row after the cascade of a category delete: moved to the
    category ["default"] when its category is the deleted one. *)
Definition reassigned (categoryId row : value) : value :=
  if in_category categoryId row
  then apply_patch (Obj [("category", Str "default")]) row
  else row.

(** No store error is let through. *)
Definition excused_none (q : Query) (e : JsError) : bool := false.

(** The one error a handler lets through: the bulk category save ignores
    the error of its delete when the message contains [No rows found]. *)
Definition stale_delete (q : Query) (e : JsError) : bool :=
  match q with
  | Delete _ _ => Text.includes "No rows found" (message e)
  | _ => false
  end.

(** A computation surfaces store errors: started where every failed request
    so far was excused, it throws the error of any failed request that is
    not. *)
Definition surfaces {A : Type} (excused : Query -> JsError -> bool)
  (m : IO A) : Prop :=
  forall w,
    (forall q e, List.In (q, Failure e) (trace w) -> excused q e = true) ->
    forall q e,
      List.In (q, Failure e) (trace (snd (m w))) ->
      excused q e = false ->
      fst (m w) = Throw e.

(* ------------------------------------------------------------------ *)
(** ** Sample data for the examples *)

Definition flavor (name : string) (quantity : Z) : value :=
  Obj [("name", Str name); ("quantity", Num (Int quantity))].

Definition filled_flavor (name : string) (quantity : Z) : value :=
  Obj [("name", Str name); ("image", Str placeholder_image);
       ("quantity", Num (Int quantity)); ("description", Str "")].

(** A product in the current shape, two of its flavors sold out. *)
Definition tapioca : value :=
  Obj [("title", Str "Tapioca");
       ("sabores", Arr [flavor "Coco" 0; flavor "Queijo" 5;
                        flavor "Carne" 0; flavor "Frango" 2])].

Definition tapioca_normalized : value :=
  Obj [("title", Str "Tapioca");
       ("sabores", Arr [filled_flavor "Queijo" 5; filled_flavor "Frango" 2;
                        filled_flavor "Coco" 0; filled_flavor "Carne" 0])].


(** A legacy product whose first color is sold out. *)
Definition two_colors : value :=
  Obj [("title", Str "Caneca");
       ("colors", Arr [flavor "Azul" 0; flavor "Verde" 5])].

Definition two_colors_normalized : value :=
  Obj [("title", Str "Caneca");
       ("colors", Arr [flavor "Azul" 0; flavor "Verde" 5]);
       ("sabores", Arr [filled_flavor "Azul" 0; filled_flavor "Verde" 5])].


(** A product that carries both shapes, as [normalizeProducts] itself
    returns for a legacy product. *)
Definition both_shapes : value :=
  Obj [("title", Str "Caneca");
       ("colors", Arr [flavor "Azul" 0; flavor "Verde" 5]);
       ("sabores", Arr [filled_flavor "Verde" 5; filled_flavor "Azul" 0])].


(** An order that has both names, the storage-shape one empty. *)
Definition order_with_empty_storage_name : value :=
  Obj [("customer_name", Str ""); ("customerName", Str "Bob");
       ("total", Num (Int 30))].

Definition stored_order : value :=
  Obj [("id", Num (Int 7)); ("customer_name", Str "Ana");
       ("customerName", Str "Bob"); ("total", Str "x");
       ("items", Str "none")].

Definition empty_store : Database :=
  mkDatabase [("products", []); ("categories", []); ("orders", []);
              ("admin_credentials", [])] 1.

(** A store with two products in category [X] and one elsewhere. *)
Definition store_with_category_X : Database :=
  mkDatabase
    [("products",
      [Obj [("id", Num (Int 1)); ("title", Str "A"); ("category", Str "X")];
       Obj [("id", Num (Int 2)); ("title", Str "B"); ("category", Str "Y")];
       Obj [("id", Num (Int 3)); ("title", Str "C"); ("category", Str "X")]]);
     ("categories", [category_record "X" "X" "Categoria de X";
                     category_record "Y" "Y" "Categoria de Y"]);
     ("orders", []); ("admin_credentials", [])] 4.

(** A store whose category [default] has a product. *)
Definition store_with_default : Database :=
  mkDatabase
    [("products",
      [Obj [("id", Num (Int 1)); ("title", Str "A"); ("category", Str "default")]]);
     ("categories", [category_record "default" "Default" "Categoria de default"]);
     ("orders", []); ("admin_credentials", [])] 2.


Definition login_request (username password : string) : Request :=
  mkRequest None (Obj [("username", Str username); ("password", Str password)]).

(** A login with any JSON values for the name and the password. *)
Definition login_with (username password : value) : Request :=
  mkRequest None (Obj [("username", username); ("password", password)]).



(** A login whose password is the JSON array of the bytes of [admin123]. *)
Definition bytes_request : Request :=
  mkRequest None
    (Obj [("username", Str "admin");
          ("password",
           Arr (List.map (fun n => Num (Int n))
                  [97; 100; 109; 105; 110; 49; 50; 51]))]).

Definition delete_category_request (categoryId : string) : Request :=
  mkRequest bearer (Obj [("categoryId", Str categoryId)]).

Definition save_products_request (products : list value) : Request :=
  mkRequest bearer (Obj [("products", Arr products)]).

Definition connection_error : JsError := mkError "fetch failed" "".

(** The error the bulk category save lets through. *)
Definition no_rows_error : JsError := mkError "No rows found" "".

Definition save_categories_request (categories : list value) : Request :=
  mkRequest bearer (Obj [("categories", Arr categories)]).

Definition order_request : Request :=
  mkRequest None (Obj [("orderData", Obj [("customerName", Str "Ana");
                                          ("total", Num (Int 30))])]).

Definition credential_lookup (username : string) : Query :=
  Select "admin_credentials" [] [FEq "username" username] [] true.

(* ------------------------------------------------------------------ *)
(** ** [simpleDecrypt] *)

(** The value of a base64 digit.  The decoder behind
    [Buffer.from(s, 'base64')] also takes the URL-safe digits [-] and [_]. *)
Definition unbase64 (c : ascii) : option N :=
  let n := N_of_ascii c in
  if ((65 <=? n) && (n <=? 90))%N then Some (n - 65)%N
  else if ((97 <=? n) && (n <=? 122))%N then Some (n - 71)%N
  else if ((48 <=? n) && (n <=? 57))%N then Some (n + 4)%N
  else if ((n =? 43) || (n =? 45))%N then Some 62%N
  else if ((n =? 47) || (n =? 95))%N then Some 63%N
  else None.

(** The digits the decoder reads: it skips every character that is not a
    digit and stops at the first [=]. *)
Fixpoint sextets (cs : list ascii) : list N :=
  match cs with
  | [] => []
  | c :: cs' =>
      if Ascii.eqb c "=" then []
      else match unbase64 c with
           | Some n => n :: sextets cs'
           | None => sextets cs'
           end
  end.

(** Four digits give three bytes; a last group of two or three digits gives
    one or two bytes, a single digit none. *)
Fixpoint decode_sextets (ds : list N) : list N :=
  match ds with
  | a :: b :: c :: d :: rest =>
      N.lor (N.shiftl (N.land a 63) 2) (N.shiftr (N.land b 48) 4)
      :: N.lor (N.shiftl (N.land b 15) 4) (N.shiftr (N.land c 60) 2)
      :: N.lor (N.shiftl (N.land c 3) 6) (N.land d 63)
      :: decode_sextets rest
  | [a; b; c] =>
      [N.lor (N.shiftl (N.land a 63) 2) (N.shiftr (N.land b 48) 4);
       N.lor (N.shiftl (N.land b 15) 4) (N.shiftr (N.land c 60) 2)]
  | [a; b] =>
      [N.lor (N.shiftl (N.land a 63) 2) (N.shiftr (N.land b 48) 4)]
  | _ => []
  end.

(** The bytes of [Buffer.from(s, 'base64')]. *)
Definition base64_decode (s : string) : string :=
  string_of_list_ascii
    (List.map ascii_of_N (decode_sextets (sextets (list_ascii_of_string s)))).

Definition continuation (b : N) : bool := ((128 <=? b) && (b <=? 191))%N.

(** Well-formed UTF-8 (Unicode, table 3-7): the byte sequences that are the
    encoding of a text. *)
Fixpoint well_formed_bytes (bs : list N) : bool :=
  match bs with
  | [] => true
  | b0 :: t0 =>
      if (b0 <? 128)%N then well_formed_bytes t0
      else
        match t0 with
        | [] => false
        | b1 :: t1 =>
            if ((194 <=? b0) && (b0 <=? 223))%N
            then continuation b1 && well_formed_bytes t1
            else
              match t1 with
              | [] => false
              | b2 :: t2 =>
                  if ((224 <=? b0) && (b0 <=? 239))%N
                  then
                    (if (b0 =? 224)%N then ((160 <=? b1) && (b1 <=? 191))%N
                     else if (b0 =? 237)%N then ((128 <=? b1) && (b1 <=? 159))%N
                     else continuation b1)
                    && continuation b2 && well_formed_bytes t2
                  else
                    match t2 with
                    | [] => false
                    | b3 :: t3 =>
                        ((240 <=? b0) && (b0 <=? 244))%N
                        && (if (b0 =? 240)%N then ((144 <=? b1) && (b1 <=? 191))%N
                            else if (b0 =? 244)%N
                                 then ((128 <=? b1) && (b1 <=? 143))%N
                                 else continuation b1)
                        && continuation b2 && continuation b3
                        && well_formed_bytes t3
                    end
              end
        end
  end.

Definition well_formed_utf8 (s : string) : bool :=
  well_formed_bytes (List.map N_of_ascii (list_ascii_of_string s)).

(** [buffer.toString('utf8')], read back as the UTF-8 bytes of the resulting
    text: bytes that are well-formed UTF-8 are the encoding of the text they
    decode to; on other bytes the decoder puts replacement characters, which
    the model leaves to the runtime. *)
Class Utf8Decoder : Type := {
  toString_utf8 : string -> string;
  toString_utf8_text :
    forall s : string, well_formed_utf8 s = true -> toString_utf8 s = s
}.

(** [simpleDecrypt(encrypted)].  Only a string has [split]. *)
Definition simpleDecrypt `{Utf8Decoder} (encrypted : value) : result string :=
  match encrypted with
  | Str s => Ok (toString_utf8 (base64_decode (Text.reverse s)))
  | Undefined =>
      Throw (TypeError "Cannot read properties of undefined (reading 'split')")
  | Null =>
      Throw (TypeError "Cannot read properties of null (reading 'split')")
  | _ => Throw (TypeError "encrypted.split is not a function")
  end.

(** A decoder for running the model on texts. *)
#[export] Instance TextDecoder : Utf8Decoder := {|
  toString_utf8 s := s;
  toString_utf8_text s _ := eq_refl
|}.

(** The bytes, for checking a fact about bytes on each of them. *)
Definition all_bytes : list N := List.map N.of_nat (List.seq 0 256).

(* ------------------------------------------------------------------ *)
(** ** The bootstrap of the admin credentials *)

Section Bootstrap.
Context {E : Engine}.
Local Open Scope io_scope.

(** The row [ensureAdminCredentials] inserts. *)
Definition adminRow (encryptedPassword : string) : value :=
  Obj [("username", Str "admin");
       ("password", Str "admin123");
       ("encrypted_password", Str encryptedPassword)].

(** The branch of [ensureAdminCredentials] that creates the row. *)
Definition createAdminCredentials : IO bool :=
  encryptedPassword <- lift (simpleEncrypt (Str "admin123")) ;;
  r <- supabase (Insert "admin_credentials" [adminRow encryptedPassword] true) ;;
  match r with
  | Failure _ => io_ret false
  | Data _ => io_ret true
  end.

(** [ensureAdminCredentials()]: [true] when the row is there or was
    created, [false] on an error. *)
Definition ensureAdminCredentials : World -> bool * World :=
  fun w =>
    match (r <- supabase (Select "admin_credentials" []
                            [FEq "username" "admin"] [] true) ;;
           match r with
           | Failure _ => createAdminCredentials
           | Data existingCreds =>
               if negb (truthy existingCreds)
               then createAdminCredentials
               else io_ret true
           end) w with
    | (Ok b, w') => (b, w')
    | (Throw _, w') => (false, w')
    end.

End Bootstrap.

(* ------------------------------------------------------------------ *)
(** ** More vocabulary *)

(** What [GET /api/auth/verify] answers to a valid token. *)
Definition valid_reply : Response :=
  res_json (Obj [("valid", Bool true); ("user", Obj [("username", Str "admin")])]).

(** An object element that makes [normalizeCategories] throw: its id is
    truthy and not a string, and it has no name to use instead. *)
Definition id_without_charAt (cat : value) : bool :=
  match cat with
  | Obj fs =>
      truthy (lookup "id" fs) && negb (truthy (lookup "name" fs))
      && match lookup "id" fs with
         | Str _ => false
         | _ => true
         end
  | _ => false
  end.

(** An object element with an id whose description is built from a name
    that has no text: the template literal throws. *)
Definition name_without_text (cat : value) : bool :=
  match cat with
  | Obj fs =>
      truthy (lookup "id" fs) && truthy (lookup "name" fs)
      && negb (truthy (lookup "description" fs))
      && negb (printable (lookup "name" fs))
  | _ => false
  end.

(** A row after [POST /api/orders/update-status]. *)
Definition with_status (orderId status : value) (now : string) (row : value)
  : value :=
  if matches_all [FEq "id" (ToString orderId)] row
  then apply_patch (Obj [("status", status); ("updated_at", Str now)]) row
  else row.

(** The handlers that check their request body and answer 400. *)
Definition validating_handlers `{Engine} (now : string) (req : Request)
  : list (World -> Response * World) :=
  [post_orders req; post_orders_update_status now req; post_auth_login req;
   post_categories_add req; post_categories_delete req; post_categories req].

(** A handler that answers 200 after the one request [q], the store left as
    it was. *)
Definition reads_once (q : Query) (h : World -> Response * World) : Prop :=
  forall w,
    status (fst (h w)) = 200
    /\ database (snd (h w)) = database w
    /\ exists r, trace (snd (h w)) = (trace w ++ [(q, r)])%list.

Definition table_of (q : Query) : string :=
  match q with
  | Select t _ _ _ _ | Insert t _ _ | Update t _ _ | Upsert t _ _
  | Delete t _ => t
  end.

(** A handler that leaves every table outside [ts] as it was. *)
Definition writes_only (ts : list string) (h : World -> Response * World)
  : Prop :=
  forall w t,
    ~ List.In t ts ->
    table_rows t (tables (database (snd (h w))))
    = table_rows t (tables (database w)).

(** The credential rows of the administrator. *)
Definition admin_rows (rows : list value) : list value :=
  List.filter (matches_all [FEq "username" "admin"]) rows.

(** The row of the administrator as the store keeps it. *)
Definition created_admin (id : Z) : value :=
  spread_with (adminRow (transform "admin123")) "id" (Num (Int id)).

(** The row of an order as the store keeps it. *)
Definition placed_order (orderData : value) (id : Z) : value :=
  spread_with (orderToSave orderData) "id" (Num (Int id)).

(** More sample data. *)
Definition anonymous : Request := mkRequest None Null.

Definition idle (db : Database) : World := mkWorld db [] [].

Definition status_request (orderId : Z) (new_status : string) : Request :=
  mkRequest None (Obj [("orderId", Num (Int orderId));
                       ("status", Str new_status)]).

Definition store_with_order : Database :=
  mkDatabase [("orders", [stored_order])] 8.

Definition store_without_tables : Database := mkDatabase [] 1.

Definition add_category_request (id name : string) : Request :=
  mkRequest bearer (Obj [("category", Obj [("id", Str id); ("name", Str name)])]).

(** A stored product one of whose flavors is [null]. *)
Definition flavorless : value :=
  Obj [("title", Str "Suco"); ("sabores", Arr [Null])].

(* ================================================================== *)
(** * Properties *)

(** ** Values, properties and the error monad *)

Lemma get_prop (v : value) (k : string) :
  is_nullish v = false -> get v k = Ok (prop v k).
Proof. destruct v; simpl; intros H; try discriminate; reflexivity. Qed.

Lemma get_Ok_inv (v x : value) (k : string) :
  get v k = Ok x -> is_nullish v = false /\ x = prop v k.
Proof. destruct v; simpl; intros H; inversion H; auto. Qed.

Lemma truthy_not_nullish (v : value) : truthy v = true -> is_nullish v = false.
Proof. destruct v; simpl; intros H; try discriminate; reflexivity. Qed.

Lemma prop_Arr_not_nullish (v : value) (k : string) (l : list value) :
  prop v k = Arr l -> is_nullish v = false.
Proof. destruct v; simpl; intros H; try discriminate; reflexivity. Qed.

Lemma prop_Obj (fs : list (string * value)) (k : string) :
  prop (Obj fs) k = lookup k fs.
Proof. reflexivity. Qed.

Lemma truthy_prop_Obj (v : value) (k : string) :
  truthy (prop v k) = true -> exists fs, v = Obj fs.
Proof. destruct v; try discriminate. eauto. Qed.

Lemma template_printable (v : value) :
  printable v = true -> template v = Ok (ToString v).
Proof. unfold template. now intros ->. Qed.

Lemma template_Ok_inv (v : value) (text : string) :
  template v = Ok text -> printable v = true /\ text = ToString v.
Proof.
  unfold template. destruct (printable v); [|discriminate].
  intros H; inversion H; auto.
Qed.

Lemma template_throws (v : value) :
  printable v = false ->
  template v = Throw (TypeError "Cannot convert object to primitive value").
Proof. unfold template. now intros ->. Qed.

Lemma js_or_idem (a b : value) : js_or (js_or a b) b = js_or a b.
Proof.
  unfold js_or. destruct (truthy a) eqn:Ha.
  - now rewrite Ha.
  - now destruct (truthy b).
Qed.

Lemma js_or_truthy (a b : value) : truthy a = true -> js_or a b = a.
Proof. unfold js_or. now intros ->. Qed.

Lemma lookup_set_same (k : string) (v : value) (fs : list (string * value)) :
  lookup k (set_field k v fs) = v.
Proof.
  induction fs as [|[k' v'] fs IH]; simpl.
  - now rewrite String.eqb_refl.
  - destruct (String.eqb k k') eqn:Hk; simpl.
    + now rewrite String.eqb_refl.
    + now rewrite Hk.
Qed.

Lemma lookup_set_other (k k' : string) (v : value) (fs : list (string * value)) :
  k <> k' -> lookup k (set_field k' v fs) = lookup k fs.
Proof.
  intros Hne. induction fs as [|[k0 v0] fs IH]; simpl.
  - apply String.eqb_neq in Hne. now rewrite Hne.
  - destruct (String.eqb k' k0) eqn:Hk; simpl.
    + apply String.eqb_eq in Hk; subst k0.
      apply String.eqb_neq in Hne. now rewrite Hne.
    + now rewrite IH.
Qed.

Lemma set_field_twice (k : string) (v v' : value) (fs : list (string * value)) :
  set_field k v (set_field k v' fs) = set_field k v fs.
Proof.
  induction fs as [|[k0 v0] fs IH]; simpl.
  - now rewrite String.eqb_refl.
  - destruct (String.eqb k k0) eqn:Hk; simpl.
    + now rewrite String.eqb_refl.
    + now rewrite Hk, IH.
Qed.

Lemma prop_spread_same (p x : value) (k : string) :
  prop (spread_with p k x) k = x.
Proof. unfold prop, spread_with; simpl. apply lookup_set_same. Qed.

Lemma prop_spread_other (p x : value) (k k' : string) :
  k <> k' -> prop (spread_with p k' x) k = prop p k.
Proof. intros H. unfold prop, spread_with; simpl. now apply lookup_set_other. Qed.

Lemma spread_twice (p x y : value) (k : string) :
  spread_with (spread_with p k y) k x = spread_with p k x.
Proof. unfold spread_with; simpl. now rewrite set_field_twice. Qed.

Lemma mapM_Ok_map {A B : Type} (f : A -> result B) (g : A -> B) (xs : list A) :
  Forall (fun x => f x = Ok (g x)) xs -> mapM f xs = Ok (List.map g xs).
Proof.
  induction 1 as [|x xs Hx _ IH]; simpl.
  - reflexivity.
  - now rewrite Hx, IH.
Qed.

Lemma mapM_Forall2 {A B : Type} (f : A -> result B) (xs : list A) (ys : list B) :
  mapM f xs = Ok ys -> Forall2 (fun x y => f x = Ok y) xs ys.
Proof.
  revert ys. induction xs as [|x xs IH]; simpl; intros ys H.
  - inversion H. constructor.
  - destruct (f x) as [y|e] eqn:Hx; simpl in H; [|discriminate].
    destruct (mapM f xs) as [ys'|e] eqn:Hxs; simpl in H; [|discriminate].
    inversion H; subst. constructor; auto.
Qed.

Lemma Forall2_mapM {A B : Type} (f : A -> result B) (xs : list A) (ys : list B) :
  Forall2 (fun x y => f x = Ok y) xs ys -> mapM f xs = Ok ys.
Proof.
  induction 1 as [|x y xs ys Hx _ IH]; simpl.
  - reflexivity.
  - now rewrite Hx, IH.
Qed.

Lemma Forall2_nth {A B : Type} (R : A -> B -> Prop) (xs : list A) (ys : list B)
  (i : nat) (x : A) :
  Forall2 R xs ys -> List.nth_error xs i = Some x ->
  exists y, List.nth_error ys i = Some y /\ R x y.
Proof.
  intros H. revert i. induction H as [|x0 y0 xs ys Hxy _ IH]; intros i Hi.
  - destruct i; discriminate.
  - destruct i as [|i]; simpl in *.
    + inversion Hi; subst. eauto.
    + auto.
Qed.

Lemma Forall2_length_eq {A B : Type} (R : A -> B -> Prop) (xs : list A)
  (ys : list B) : Forall2 R xs ys -> List.length ys = List.length xs.
Proof. induction 1; simpl; congruence. Qed.

Lemma filter_none {A : Type} (f : A -> bool) (l : list A) :
  Forall (fun x => f x = false) l -> List.filter f l = [].
Proof. induction 1 as [|x l Hx _ IH]; simpl; [reflexivity|]. now rewrite Hx. Qed.

Lemma filter_all {A : Type} (f : A -> bool) (l : list A) :
  Forall (fun x => f x = true) l -> List.filter f l = l.
Proof. induction 1 as [|x l Hx _ IH]; simpl; [reflexivity|]. now rewrite Hx, IH. Qed.

(** Every element of the result of [normalizeProducts] is the image of the
    element at the same index. *)
Lemma normalizeProducts_nth `{Engine} (ps outs : list value) (i : nat) (p : value) :
  normalizeProducts (Arr ps) = Ok (Arr outs) ->
  List.nth_error ps i = Some p ->
  exists out, List.nth_error outs i = Some out /\ normalizeProduct p = Ok out.
Proof.
  simpl. intros Hn Hp.
  destruct (mapM normalizeProduct ps) as [qs|e] eqn:Hm; simpl in Hn; [|discriminate].
  inversion Hn; subst qs.
  apply (Forall2_nth (fun x y => normalizeProduct x = Ok y) ps outs i p);
    auto using mapM_Forall2.
Qed.

(* ------------------------------------------------------------------ *)
(** ** Legacy products: colors to flavors *)

Section Colors.
Context {E : Engine}.

Lemma js_or_int (n : Z) : js_or (Num (Int n)) zero = Num (Int n).
Proof. destruct n; reflexivity. Qed.







Lemma normalizeProduct_colors (p out : value) (cs : list value) :
  prop p "colors" = Arr cs ->
  normalizeProduct p = Ok out ->
  exists fl, mapM colorToSabor cs = Ok fl
             /\ out = spread_with p "sabores" (Arr fl).
Proof.
  intros Hc. unfold normalizeProduct.
  rewrite (get_prop p "colors" (prop_Arr_not_nullish _ _ _ Hc)); simpl.
  rewrite Hc.
  destruct (mapM colorToSabor cs) as [fl|e]; simpl; intros H; inversion H.
  eauto.
Qed.


(** C10.  Every product element whose [colors] field is an array keeps that
    field in the output next to the synthesised [sabores] sequence, whose
    entries are the converted colors in the order of the input; the sequence
    is not partitioned by availability, and a zero-quantity entry can come
    before a positive one. *)
Theorem colors_kept_in_input_order (ps outs : list value) (i : nat) (p : value)
  (cs : list value) :
  normalizeProducts (Arr ps) = Ok (Arr outs) ->
  List.nth_error ps i = Some p ->
  prop p "colors" = Arr cs ->
  (exists out fl,
      List.nth_error outs i = Some out
      /\ prop out "colors" = Arr cs
      /\ prop out "sabores" = Arr fl
      /\ Forall2 (fun c sabor => colorToSabor c = Ok sabor) cs fl)
  /\ (exists product a b rest,
         normalizeProduct product
         = Ok (spread_with product "sabores" (Arr (a :: b :: rest)))
         /\ isArray (prop product "colors") = true
         /\ prop a "quantity" = zero
         /\ gt0 (prop b "quantity") = true).
Proof.
  intros Hn Hp Hc. split.
  - destruct (normalizeProducts_nth ps outs i p Hn Hp) as (out & Hout & Hnp).
    destruct (normalizeProduct_colors p out cs Hc Hnp) as (fl & Hm & ->).
    exists (spread_with p "sabores" (Arr fl)), fl.
    repeat split; auto using prop_spread_same, mapM_Forall2.
    rewrite prop_spread_other by discriminate. assumption.
  - exists (Obj [("colors", Arr [Obj [("quantity", Num (Int 0))];
                                 Obj [("quantity", Num (Int 5))]])]).
    do 3 eexists. repeat split.
Qed.

End Colors.

(* ------------------------------------------------------------------ *)
(** ** Flavors: the availability-first order *)

Section Flavors.
Context {E : Engine}.

Lemma js_gt0_printable (v : value) :
  printable v = true -> js_gt0 v = Ok (gt0 v).
Proof.
  unfold js_gt0, gt0, ToPrimitive, template. intros H.
  destruct v; rewrite ?H; reflexivity.
Qed.

Lemma strict_eq_zero (v : value) : strict_eq v zero = true -> v = zero.
Proof.
  destruct v as [| | |[|z|t]| | |]; simpl; try discriminate.
  intros H. apply Z.eqb_eq in H. now subst z.
Qed.

Lemma compareSabores_verdict (a b : value) :
  comparable a -> comparable b ->
  compareSabores a b = Ok (verdict a b).
Proof.
  intros [Ha Hpa] [Hb Hpb].
  unfold compareSabores, verdict, available, sold_out.
  unfold stock in *.
  rewrite (get_prop a "quantity" Ha), (get_prop b "quantity" Hb). cbn [bind].
  rewrite (js_gt0_printable _ Hpa). cbn [bind].
  destruct (gt0 (js_or (prop a "quantity") zero)
            && strict_eq (js_or (prop b "quantity") zero) zero); [reflexivity|].
  destruct (strict_eq (js_or (prop a "quantity") zero) zero); [|reflexivity].
  rewrite (js_gt0_printable _ Hpb). cbn [bind andb].
  destruct (gt0 (js_or (prop b "quantity") zero)); reflexivity.
Qed.

Lemma gt0_not_zero (v : value) : gt0 v = true -> strict_eq v zero = false.
Proof.
  destruct v as [| | |[|z|t]| | |]; simpl; try reflexivity.
  unfold gt0; simpl. intros H. apply Z.ltb_lt in H. apply Z.eqb_neq. lia.
Qed.

Lemma available_not_sold_out (s : value) :
  available s = true -> sold_out s = false.
Proof. apply gt0_not_zero. Qed.

Lemma sold_out_not_available (s : value) :
  sold_out s = true -> available s = false.
Proof.
  intros H. destruct (available s) eqn:Ha; [|reflexivity].
  apply available_not_sold_out in Ha. congruence.
Qed.

Lemma well_stocked_comparable (s : value) : well_stocked s -> comparable s.
Proof.
  intros [Hnull [Ha|Hs]]; split; try assumption.
  - unfold available, gt0 in Ha. now apply andb_true_iff in Ha.
  - unfold sold_out in Hs. now rewrite (strict_eq_zero _ Hs).
Qed.

Lemma verdict_range (a b : value) : verdict a b = -1 \/ verdict a b = 0 \/ verdict a b = 1.
Proof.
  unfold verdict. destruct (available a && sold_out b); auto.
  destruct (sold_out a && available b); auto.
Qed.

(** On the flavors of the data model the comparator is a consistent one. *)
Lemma compareSabores_consistent (ss : list value) :
  Forall well_stocked ss -> consistent compareSabores ss = true.
Proof.
  intros Hss. rewrite Forall_forall in Hss. unfold consistent.
  apply forallb_forall; intros a Ha. apply forallb_forall; intros b Hb.
  apply forallb_forall; intros c Hc.
  pose proof (Hss a Ha) as Hwa. pose proof (Hss b Hb) as Hwb.
  pose proof (Hss c Hc) as Hwc.
  pose proof (well_stocked_comparable a Hwa) as Hca.
  pose proof (well_stocked_comparable b Hwb) as Hcb.
  pose proof (well_stocked_comparable c Hwc) as Hcc.
  unfold consistent_on, sign_of.
  rewrite !compareSabores_verdict by assumption.
  unfold verdict.
  destruct Hwa as [_ [Ha1|Ha1]], Hwb as [_ [Hb1|Hb1]], Hwc as [_ [Hc1|Hc1]];
    rewrite ?Ha1, ?Hb1, ?Hc1,
      ?(available_not_sold_out _ Ha1), ?(available_not_sold_out _ Hb1),
      ?(available_not_sold_out _ Hc1), ?(sold_out_not_available _ Ha1),
      ?(sold_out_not_available _ Hb1), ?(sold_out_not_available _ Hc1);
    reflexivity.
Qed.

(** An available entry goes to the front of the sorted rest. *)
Lemma sort_insert_available (x : value) (l : list value) :
  comparable x -> available x = true ->
  Forall comparable l ->
  sort_insert compareSabores x l = Ok (x :: l).
Proof.
  intros Hx Ha Hl. destruct Hl as [|y l Hy _]; simpl; [reflexivity|].
  rewrite (compareSabores_verdict x y Hx Hy); simpl.
  unfold verdict. rewrite (available_not_sold_out x Ha), Ha; simpl.
  destruct (sold_out y); reflexivity.
Qed.

(** A sold-out entry passes the available ones and stops in front of the
    sold-out ones. *)
Lemma sort_insert_sold_out (x : value) (avail sold : list value) :
  comparable x -> sold_out x = true ->
  Forall (fun y => comparable y /\ available y = true) avail ->
  Forall (fun y => comparable y /\ sold_out y = true) sold ->
  sort_insert compareSabores x (avail ++ sold) = Ok (avail ++ x :: sold)%list.
Proof.
  intros Hx Hs Havail Hsold.
  induction Havail as [|y avail [Hy Hya] _ IH]; simpl.
  - destruct Hsold as [|z sold [Hz Hzs] _]; simpl; [reflexivity|].
    rewrite (compareSabores_verdict x z Hx Hz); simpl.
    unfold verdict.
    rewrite (sold_out_not_available x Hs), (sold_out_not_available z Hzs), Hs.
    reflexivity.
  - rewrite (compareSabores_verdict x y Hx Hy); simpl.
    unfold verdict.
    rewrite (sold_out_not_available x Hs), Hs, Hya. simpl.
    now rewrite IH.
Qed.

(** On the flavors of the data model the stable sort is the stable
    partition. *)
Lemma stable_sort_stable_partition (ss : list value) :
  Forall well_stocked ss ->
  stable_sort compareSabores ss = Ok (stable_partition ss).
Proof.
  unfold stable_partition.
  induction 1 as [|x ss Hwx Hss IH]; simpl; [reflexivity|].
  rewrite IH; simpl.
  pose proof (well_stocked_comparable x Hwx) as Hx.
  destruct Hwx as [_ Hclass].
  assert (Havail : Forall (fun y => comparable y /\ available y = true)
                     (filter available ss)).
  { apply Forall_forall. intros y Hy. apply filter_In in Hy.
    destruct Hy as [Hin Hy]. split; [|assumption].
    rewrite Forall_forall in Hss. now apply well_stocked_comparable, Hss. }
  assert (Hsold : Forall (fun y => comparable y /\ sold_out y = true)
                    (filter sold_out ss)).
  { apply Forall_forall. intros y Hy. apply filter_In in Hy.
    destruct Hy as [Hin Hy]. split; [|assumption].
    rewrite Forall_forall in Hss. now apply well_stocked_comparable, Hss. }
  destruct Hclass as [Ha|Hs].
  - rewrite Ha, (available_not_sold_out x Ha).
    apply sort_insert_available; auto.
    apply Forall_app.
    split; (eapply Forall_impl; [|eassumption]); now intros y [? _].
  - rewrite Hs, (sold_out_not_available x Hs).
    now apply sort_insert_sold_out.
Qed.

(** So [sort] returns the stable partition, on every engine. *)
Lemma Array_sort_stable_partition (ss : list value) :
  Forall well_stocked ss ->
  Array_sort compareSabores ss = Ok (stable_partition ss).
Proof.
  intros Hss. unfold Array_sort.
  rewrite (compareSabores_consistent ss Hss).
  now apply stable_sort_stable_partition.
Qed.

(** The stable partition is the only array a conforming [sort] can return
    for flavors of the data model: any arrangement that is sorted for the
    comparator and keeps the input order inside each class is it. *)
Lemma sorted_is_partition (l : list value) :
  Forall well_stocked l -> StronglySorted in_order l -> l = stable_partition l.
Proof.
  induction l as [|a l IH]; intros Hw Hs; [reflexivity|].
  inversion Hw as [|? ? [_ Hclass] Hwl]; subst.
  inversion Hs as [|? ? Hsl Hall]; subst.
  unfold stable_partition; simpl.
  destruct Hclass as [Ha|Hso].
  - rewrite Ha, (available_not_sold_out a Ha). simpl. f_equal. now apply IH.
  - rewrite Hso, (sold_out_not_available a Hso).
    assert (Hrest : Forall (fun b => available b = false) l).
    { apply Forall_forall. intros b Hb.
      rewrite Forall_forall in Hall. specialize (Hall b Hb).
      unfold in_order, verdict in Hall.
      rewrite (sold_out_not_available a Hso), Hso in Hall. simpl in Hall.
      destruct (available b); [lia|reflexivity]. }
    rewrite (filter_none available l Hrest). simpl. f_equal.
    symmetry. apply filter_all.
    apply Forall_forall. intros b Hb.
    rewrite Forall_forall in Hwl, Hrest.
    destruct (Hwl b Hb) as [_ [Hab|Hsb]]; [|assumption].
    rewrite (Hrest b Hb) in Hab. discriminate.
Qed.

Lemma conforming_sort_unique (ss l : list value) :
  Forall well_stocked ss -> Forall well_stocked l ->
  StronglySorted in_order l ->
  List.filter available l = List.filter available ss ->
  List.filter sold_out l = List.filter sold_out ss ->
  Array_sort compareSabores ss = Ok l.
Proof.
  intros Hss Hl Hsorted Ha Hs.
  rewrite (Array_sort_stable_partition ss Hss), (sorted_is_partition l Hl Hsorted).
  unfold stable_partition. now rewrite Ha, Hs.
Qed.

Lemma fillSabor_filled (s : value) :
  is_nullish s = false -> fillSabor s = Ok (filled s).
Proof.
  intros H. unfold fillSabor.
  now rewrite !(get_prop s _ H).
Qed.

Lemma stable_partition_not_nullish (ss : list value) :
  Forall well_stocked ss ->
  Forall (fun s => is_nullish s = false) (stable_partition ss).
Proof.
  intros H. unfold stable_partition. apply Forall_app.
  split; apply Forall_forall; intros y Hy; apply filter_In in Hy;
    destruct Hy as [Hin _]; rewrite Forall_forall in H; now destruct (H y Hin).
Qed.

(** A product with a [sabores] array of data-model flavors and no [colors]
    array is normalised without an exception, to the filled stable
    partition. *)
Lemma normalizeProduct_sabores (p : value) (ss : list value) :
  isArray (prop p "colors") = false ->
  prop p "sabores" = Arr ss ->
  Forall well_stocked ss ->
  normalizeProduct p
  = Ok (spread_with p "sabores" (Arr (List.map filled (stable_partition ss)))).
Proof.
  intros Hc Hs Hss. unfold normalizeProduct.
  pose proof (prop_Arr_not_nullish _ _ _ Hs) as Hp.
  rewrite (get_prop p "colors" Hp); simpl.
  destruct (prop p "colors") eqn:Hcol; try discriminate;
    rewrite (get_prop p "sabores" Hp); simpl; rewrite Hs;
    rewrite (Array_sort_stable_partition ss Hss); simpl;
    rewrite (mapM_Ok_map fillSabor filled); try reflexivity;
    (eapply Forall_impl; [|apply (stable_partition_not_nullish ss Hss)]);
    intros ? ?; now apply fillSabor_filled.
Qed.

Lemma availability_first_app (front back : list value) :
  Forall (fun f => prop f "quantity" <> zero) front ->
  Forall (fun f => gt0 (prop f "quantity") = false) back ->
  availability_first (front ++ back).
Proof.
  intros Hfront Hback i a b Ha Hb [Hq Hg].
  destruct (Nat.lt_ge_cases i (List.length front)) as [Hlt|Hge].
  - rewrite nth_error_app1 in Ha by assumption.
    apply nth_error_In in Ha. rewrite Forall_forall in Hfront.
    now apply (Hfront a Ha).
  - rewrite nth_error_app2 in Hb by lia.
    apply nth_error_In in Hb. rewrite Forall_forall in Hback.
    rewrite (Hback b Hb) in Hg. discriminate.
Qed.

Lemma filled_quantity (s : value) : prop (filled s) "quantity" = stock s.
Proof. reflexivity. Qed.

Lemma availability_first_partition (ss : list value) :
  availability_first (List.map filled (stable_partition ss)).
Proof.
  unfold stable_partition. rewrite map_app. apply availability_first_app.
  - apply Forall_forall. intros f Hf. apply in_map_iff in Hf.
    destruct Hf as (s & <- & Hin). apply filter_In in Hin. destruct Hin as [_ Ha].
    rewrite filled_quantity. intros Hz.
    apply available_not_sold_out in Ha. unfold sold_out in Ha.
    rewrite Hz in Ha. discriminate.
  - apply Forall_forall. intros f Hf. apply in_map_iff in Hf.
    destruct Hf as (s & <- & Hin). apply filter_In in Hin. destruct Hin as [_ Hs].
    rewrite filled_quantity. now apply sold_out_not_available.
Qed.

Lemma filter_map_filled (test : value -> bool) (pre : value -> bool)
  (l : list value) :
  (forall s, test (filled s) = pre s) ->
  List.filter test (List.map filled l) = List.map filled (List.filter pre l).
Proof.
  intros H. induction l as [|s l IH]; simpl; [reflexivity|].
  rewrite H. destruct (pre s); simpl; now rewrite IH.
Qed.

Lemma partition_available (ss : list value) :
  List.filter available (stable_partition ss) = List.filter available ss.
Proof.
  unfold stable_partition. rewrite filter_app.
  rewrite (filter_all available (filter available ss)),
    (filter_none available (filter sold_out ss)), app_nil_r; auto.
  - apply Forall_forall. intros s Hs. apply filter_In in Hs.
    now apply sold_out_not_available.
  - apply Forall_forall. intros s Hs. now apply filter_In in Hs.
Qed.

Lemma partition_sold_out (ss : list value) :
  List.filter sold_out (stable_partition ss) = List.filter sold_out ss.
Proof.
  unfold stable_partition. rewrite filter_app.
  rewrite (filter_none sold_out (filter available ss)),
    (filter_all sold_out (filter sold_out ss)); auto.
  - apply Forall_forall. intros s Hs. now apply filter_In in Hs.
  - apply Forall_forall. intros s Hs. apply filter_In in Hs.
    now apply available_not_sold_out.
Qed.

(** C1, as amended.  Every output element produced from an element that has
    a [sabores] array of data-model flavors (each quantity positive, or zero
    or absent) and no [colors] array has its flavors stably partitioned by
    availability: no entry of quantity 0 sits immediately before an entry of
    positive quantity, the positive-quantity entries and the zero-quantity
    entries each keep their input order, and every entry has its defaults
    filled. *)
Theorem sabores_availability_first (ps outs : list value) (i : nat) (p : value)
  (ss : list value) :
  normalizeProducts (Arr ps) = Ok (Arr outs) ->
  List.nth_error ps i = Some p ->
  isArray (prop p "colors") = false ->
  prop p "sabores" = Arr ss ->
  Forall well_stocked ss ->
  exists out fl,
    List.nth_error outs i = Some out
    /\ prop out "sabores" = Arr fl
    /\ availability_first fl
    /\ List.filter (fun f => gt0 (prop f "quantity")) fl
       = List.map filled (List.filter available ss)
    /\ List.filter (fun f => strict_eq (prop f "quantity") zero) fl
       = List.map filled (List.filter sold_out ss)
    /\ fl = List.map filled (stable_partition ss).
Proof.
  intros Hn Hp Hc Hs Hss.
  destruct (normalizeProducts_nth ps outs i p Hn Hp) as (out & Hout & Hnp).
  rewrite (normalizeProduct_sabores p ss Hc Hs Hss) in Hnp.
  inversion Hnp; subst out; clear Hnp.
  eexists _, _. split; [eassumption|]. split; [apply prop_spread_same|].
  split; [apply availability_first_partition|].
  split; [|split; [|reflexivity]].
  - rewrite (filter_map_filled _ available) by reflexivity.
    now rewrite partition_available.
  - rewrite (filter_map_filled _ sold_out) by reflexivity.
    now rewrite partition_sold_out.
Qed.

End Flavors.

(* ------------------------------------------------------------------ *)
(** ** Idempotence of the normalisation functions *)

Section Idempotence.
Context {E : Engine}.

Lemma stock_filled (s : value) : stock (filled s) = stock s.
Proof. unfold stock at 1. rewrite filled_quantity. apply js_or_idem. Qed.

Lemma verdict_filled (a b : value) : verdict (filled a) (filled b) = verdict a b.
Proof. unfold verdict, available, sold_out. now rewrite !stock_filled. Qed.

Lemma filled_twice (s : value) : filled (filled s) = filled s.
Proof.
  unfold filled at 1. rewrite stock_filled.
  unfold filled. rewrite !prop_Obj; simpl. now rewrite !js_or_idem.
Qed.

Lemma fillSabor_Ok_inv (s f : value) :
  fillSabor s = Ok f -> is_nullish s = false /\ f = filled s.
Proof.
  destruct (is_nullish s) eqn:Hs.
  - destruct s; simpl in *; discriminate.
  - rewrite (fillSabor_filled s Hs). intros H; inversion H; auto.
Qed.

Lemma mapM_fillSabor_inv (l fl : list value) :
  mapM fillSabor l = Ok fl ->
  Forall (fun s => is_nullish s = false) l /\ fl = List.map filled l.
Proof.
  intros H. apply mapM_Forall2 in H.
  induction H as [|s f l fl Hsf _ [IHn IHm]]; simpl; [auto|].
  apply fillSabor_Ok_inv in Hsf. destruct Hsf as [Hs ->]. subst fl. auto.
Qed.

Lemma normalizeProduct_unfold (p : value) :
  is_nullish p = false ->
  normalizeProduct p
  = match prop p "colors" with
    | Arr cs =>
        (sabores <- mapM colorToSabor cs ;;
         Ok (spread_with p "sabores" (Arr sabores)))%js
    | _ =>
        match prop p "sabores" with
        | Arr ss =>
            (sortedSabores <- Array_sort compareSabores ss ;;
             fl <- mapM fillSabor sortedSabores ;;
             Ok (spread_with p "sabores" (Arr fl)))%js
        | _ => Ok p
        end
    end.
Proof.
  intros H. unfold normalizeProduct. rewrite (get_prop p "colors" H); simpl.
  destruct (prop p "colors"); try reflexivity;
    now rewrite (get_prop p "sabores" H).
Qed.

Lemma normalizeProduct_not_nullish (p q : value) :
  normalizeProduct p = Ok q -> is_nullish p = false.
Proof. destruct p; simpl; intros H; try discriminate; reflexivity. Qed.

Lemma well_stocked_filled (s : value) : well_stocked s -> well_stocked (filled s).
Proof.
  intros [_ Hclass]. split; [reflexivity|].
  unfold available, sold_out in *. now rewrite stock_filled.
Qed.

Lemma stable_partition_filled (ss : list value) :
  stable_partition (List.map filled (stable_partition ss))
  = List.map filled (stable_partition ss).
Proof.
  unfold stable_partition at 1.
  rewrite (filter_map_filled available available),
    (filter_map_filled sold_out sold_out)
    by (intros s; unfold available, sold_out; now rewrite stock_filled).
  rewrite partition_available, partition_sold_out, <- map_app. reflexivity.
Qed.

(** The image of a product of the data model is a fixed point of the
    callback. *)
Lemma normalizeProduct_fixed (p q : value) :
  data_model_product p ->
  normalizeProduct p = Ok q -> normalizeProduct q = Ok q.
Proof.
  intros Hdm H. pose proof (normalizeProduct_not_nullish p q H) as Hp.
  pose proof H as H0. rewrite (normalizeProduct_unfold p Hp) in H.
  destruct (isArray (prop p "colors")) eqn:Hcolors.
  - (* the colors branch *)
    destruct (prop p "colors") as [| | | | |cs|] eqn:Hc; try discriminate.
    destruct (mapM colorToSabor cs) as [fl|e] eqn:Hm; simpl in H; [|discriminate].
    inversion H; subst q.
    rewrite normalizeProduct_unfold by reflexivity.
    rewrite prop_spread_other by discriminate.
    rewrite Hc, Hm; simpl. now rewrite spread_twice.
  - assert (Hrest : match prop p "sabores" with
                    | Arr ss =>
                        (sortedSabores <- Array_sort compareSabores ss ;;
                         fl <- mapM fillSabor sortedSabores ;;
                         Ok (spread_with p "sabores" (Arr fl)))%js
                    | _ => Ok p
                    end = Ok q)
      by (destruct (prop p "colors"); try discriminate; exact H).
    clear H.
    destruct (prop p "sabores") as [| | | | |ss|] eqn:Hs;
      try (inversion Hrest; subst q; exact H0).
    clear Hrest. pose proof (Hdm Hcolors ss Hs) as Hss.
    rewrite (normalizeProduct_sabores p ss Hcolors Hs Hss) in H0.
    inversion H0; subst q.
    rewrite (normalizeProduct_sabores _ (List.map filled (stable_partition ss))).
    + rewrite stable_partition_filled, map_map, spread_twice.
      do 3 f_equal. apply map_ext. intros s. apply filled_twice.
    + now rewrite prop_spread_other by discriminate.
    + apply prop_spread_same.
    + apply Forall_forall. intros f Hf. apply in_map_iff in Hf.
      destruct Hf as (s & <- & Hin). apply well_stocked_filled.
      rewrite Forall_forall in Hss. apply Hss.
      unfold stable_partition in Hin. apply in_app_or in Hin.
      destruct Hin as [Hin|Hin]; now apply filter_In in Hin.
Qed.

Lemma mapM_fixed {A : Type} (P : A -> Prop) (f : A -> result A)
  (xs ys : list A) :
  (forall x y, P x -> f x = Ok y -> f y = Ok y) ->
  Forall P xs ->
  mapM f xs = Ok ys -> mapM f ys = Ok ys.
Proof.
  intros Hf HP H. apply mapM_Forall2 in H. apply Forall2_mapM.
  induction H as [|x y xs ys Hxy _ IH]; constructor; inversion HP; eauto.
Qed.

Lemma normalizeProducts_idempotent (A : value) :
  Forall data_model_product (items A) ->
  bind (normalizeProducts A) normalizeProducts = normalizeProducts A.
Proof.
  destruct A as [| | | | |ps|]; try reflexivity.
  simpl. intros Hdm.
  destruct (mapM normalizeProduct ps) as [qs|e] eqn:Hm; simpl; [|reflexivity].
  now rewrite (mapM_fixed data_model_product normalizeProduct ps qs
                 normalizeProduct_fixed Hdm Hm).
Qed.

End Idempotence.

(* ------------------------------------------------------------------ *)
(** ** Orders *)

Section Orders.
Context {E : Engine}.

Lemma parseFloat_parsed (v : value) :
  printable v = true -> parseFloat v = Ok (parsed_total v).
Proof.
  intros H. unfold parseFloat, parsed_total, template.
  destruct v; rewrite ?H; reflexivity.
Qed.

Lemma parseFloat_throws (v : value) :
  printable v = false -> exists e, parseFloat v = Throw e.
Proof.
  intros H. unfold parseFloat, template.
  destruct v; try discriminate; rewrite H; simpl; eauto.
Qed.

Lemma order_converts_inv (o : value) :
  order_converts o = true ->
  is_nullish o = false /\ printable (prop o "total") = true.
Proof.
  unfold order_converts. intros H. apply andb_true_iff in H.
  destruct H as [Hn Hp]. now apply negb_true_iff in Hn.
Qed.

Lemma normalizeOrder_external (o : value) :
  order_converts o = true -> normalizeOrder o = Ok (external_order o).
Proof.
  intros H. apply order_converts_inv in H. destruct H as [H Hp].
  unfold normalizeOrder. rewrite !(get_prop o _ H). cbn [bind].
  rewrite (parseFloat_parsed _ Hp). cbn [bind].
  unfold external_order, js_or.
  repeat match goal with
         | |- Ok _ = Ok _ => f_equal
         | |- Obj _ = Obj _ => f_equal
         | |- _ :: _ = _ :: _ => f_equal
         | |- (_, _) = (_, _) => f_equal
         end; try reflexivity.
  destruct (prop o "items"); reflexivity.
Qed.

Lemma normalizeOrder_Ok_inv (o q : value) :
  normalizeOrder o = Ok q -> order_converts o = true /\ q = external_order o.
Proof.
  destruct (order_converts o) eqn:Ho.
  - rewrite (normalizeOrder_external o Ho). intros H; inversion H; auto.
  - unfold order_converts in Ho. apply andb_false_iff in Ho.
    destruct Ho as [Ho|Ho].
    + apply negb_false_iff in Ho. destruct o; simpl in *; discriminate.
    + destruct (is_nullish o) eqn:Hn; [destruct o; simpl in *; discriminate|].
      unfold normalizeOrder. rewrite !(get_prop o _ Hn). cbn [bind].
      destruct (parseFloat_throws _ Ho) as [e ->]. discriminate.
Qed.

(** The total of an order in the external shape: always a number, never
    [NaN]; a number other than 0 and [NaN] is kept as it is. *)
Lemma external_total (o : value) :
  (exists n, prop (external_order o) "total" = Num n /\ n <> NaN)
  /\ (forall n, prop o "total" = Num n -> truthy (Num n) = true ->
                prop (external_order o) "total" = Num n).
Proof.
  unfold external_order. rewrite prop_Obj. cbn [lookup String.eqb Ascii.eqb Bool.eqb].
  unfold js_or. split.
  - destruct (truthy (Num (parsed_total (prop o "total")))) eqn:Ht.
    + eexists. split; [reflexivity|]. intros Hn. now rewrite Hn in Ht.
    + exists (Int 0). split; [reflexivity|discriminate].
  - intros n Hn Ht. rewrite Hn. cbn [parsed_total]. now rewrite Ht.
Qed.

Lemma external_order_twice (o : value) :
  external_order (external_order o) = external_order o.
Proof.
  unfold external_order. rewrite !prop_Obj. simpl.
  repeat match goal with
         | |- Obj _ = Obj _ => f_equal
         | |- _ :: _ = _ :: _ => f_equal
         | |- (_, _) = (_, _) => f_equal
         end; try reflexivity.
  - destruct (prop o "items"); reflexivity.
  - unfold js_or, zero.
    destruct (truthy (Num (parsed_total (prop o "total")))) eqn:Ht;
      cbn [parsed_total]; [now rewrite Ht|reflexivity].
  - destruct (truthy (prop o "status")) eqn:Hs; [now rewrite Hs|reflexivity].
Qed.

Lemma external_order_converts (o : value) :
  order_converts (external_order o) = true.
Proof.
  unfold order_converts. cbn [is_nullish external_order negb andb].
  destruct (external_total o) as [(n & Hn & _) _]. now rewrite Hn.
Qed.

Lemma normalizeOrder_fixed (o q : value) :
  normalizeOrder o = Ok q -> normalizeOrder q = Ok q.
Proof.
  intros H. apply normalizeOrder_Ok_inv in H. destruct H as [_ ->].
  rewrite normalizeOrder_external by apply external_order_converts.
  now rewrite external_order_twice.
Qed.

Lemma normalizeOrders_idempotent (A : value) :
  bind (normalizeOrders A) normalizeOrders = normalizeOrders A.
Proof.
  destruct A as [| | | | |os|]; try reflexivity.
  simpl. destruct (mapM normalizeOrder os) as [qs|e] eqn:Hm; simpl; [|reflexivity].
  rewrite (mapM_fixed (fun _ => True) normalizeOrder os qs); auto.
  - intros x y _. apply normalizeOrder_fixed.
  - apply Forall_forall. auto.
Qed.

(** C9, as amended.  [normalizeOrders] maps every element of an array of
    orders, none of them [null] and each with a total that has a text, to
    the external camelCase shape: each of [customerName], [customerPhone],
    [paymentMethod] and [createdAt] is the storage-shape field when that
    field is truthy and the camelCase field otherwise; [total] is the
    number itself when it is a number other than 0 and [NaN], the number
    parsed from its text otherwise, and 0 when that is [NaN]; [items] is the
    empty sequence when it is not an array; [status] is ["pending"] when it
    is missing or falsy. *)
Theorem normalizeOrders_external_shape (os : list value) :
  Forall (fun o => order_converts o = true) os ->
  normalizeOrders (Arr os) = Ok (Arr (List.map external_order os))
  /\ Forall (fun o =>
               (exists n, prop (external_order o) "total" = Num n /\ n <> NaN)
               /\ (forall n, prop o "total" = Num n -> truthy (Num n) = true ->
                             prop (external_order o) "total" = Num n)
               /\ (forall text, prop o "total" = Str text ->
                                prop (external_order o) "total"
                                = js_or (Num (parseFloat_text text)) zero)) os.
Proof.
  intros H. split.
  - simpl. rewrite (mapM_Ok_map normalizeOrder external_order); [reflexivity|].
    eapply Forall_impl; [|exact H]. apply normalizeOrder_external.
  - apply Forall_forall. intros o _.
    destruct (external_total o) as [Hnumber Hkept].
    repeat split; try assumption.
    intros text Htext. unfold external_order. rewrite prop_Obj, Htext.
    reflexivity.
Qed.

End Orders.

(* ------------------------------------------------------------------ *)
(** ** Categories *)

Section Categories.
Context {E : Engine}.

Lemma truthy_Str (s : string) : truthy (Str s) = true <-> s <> EmptyString.
Proof. destruct s; simpl; split; intros H; congruence. Qed.

Lemma capitalize_nonempty (s : string) :
  s <> EmptyString -> capitalize s <> EmptyString.
Proof.
  destruct s as [|c s]; [congruence|]. intros H. unfold capitalize.
  destruct (N_of_ascii c <? 128)%N; [discriminate|].
  now apply capitalize_unicode_nonempty.
Qed.

Lemma truthy_capitalize (s : string) :
  s <> EmptyString -> truthy (Str (capitalize s)) = true.
Proof. intros H. now apply truthy_Str, capitalize_nonempty. Qed.

Lemma normalizeCategory_Obj (fs : list (string * value)) :
  normalizeCategory (Obj fs)
  = if truthy (lookup "id" fs)
    then (name <- (if truthy (lookup "name" fs) then Ok (lookup "name" fs)
                   else capitalizeId (lookup "id" fs)) ;;
          description <-
            (if truthy (lookup "description" fs)
             then Ok (lookup "description" fs)
             else (text <- template (js_or (lookup "name" fs) (lookup "id" fs)) ;;
                   Ok (Str ("Categoria de " ++ text)))) ;;
          Ok (Obj [("id", lookup "id" fs); ("name", name);
                   ("description", description)]))%js
    else Ok Null.
Proof. reflexivity. Qed.

(** What the callback returns: nothing, or a record with a description, and
    with a name when it has an id, which it has unless it comes from the
    empty string. *)
Lemma normalizeCategory_record (c q : value) :
  normalizeCategory c = Ok q ->
  q = Null
  \/ exists id name description,
       q = Obj [("id", id); ("name", name); ("description", description)]
       /\ truthy description = true
       /\ (truthy id = true -> truthy name = true)
       /\ (c <> Str "" -> truthy id = true).
Proof.
  destruct c as [| | | |s| |fs];
    try solve [simpl; intros H; inversion H; now left].
  - simpl. intros H. inversion H. right.
    exists (Str s), (Str (capitalize s)), (Str ("Categoria de " ++ s)).
    repeat split.
    + intros Hs. apply truthy_capitalize. now apply truthy_Str.
    + intros Hs. apply truthy_Str. congruence.
  - rewrite normalizeCategory_Obj.
    destruct (truthy (lookup "id" fs)) eqn:Hid; [|intros H; inversion H; now left].
    intros H. right.
    assert (Hname : exists n, (if truthy (lookup "name" fs)
                               then Ok (lookup "name" fs)
                               else capitalizeId (lookup "id" fs)) = Ok n
                              /\ truthy n = true).
    { destruct (truthy (lookup "name" fs)) eqn:Hn; [eauto|].
      cbn [bind] in H.
      destruct (lookup "id" fs) as [| | | |s| |]; simpl in H; try discriminate.
      eexists. split; [reflexivity|].
      apply truthy_capitalize. now apply truthy_Str. }
    destruct Hname as (n & Hn & Htn). rewrite Hn in H. cbn [bind] in H.
    assert (Hdesc : exists d, (if truthy (lookup "description" fs)
                               then Ok (lookup "description" fs)
                               else (text <- template (js_or (lookup "name" fs)
                                                         (lookup "id" fs)) ;;
                                     Ok (Str ("Categoria de " ++ text)))%js)
                              = Ok d
                              /\ truthy d = true).
    { destruct (truthy (lookup "description" fs)) eqn:Hd; [eauto|].
      destruct (template _) as [text|e]; cbn [bind] in H |- *; [|discriminate].
      eauto. }
    destruct Hdesc as (d & Hd & Htd). rewrite Hd in H. cbn [bind] in H.
    inversion H. exists (lookup "id" fs), n, d. auto.
Qed.

(** A record that [normalizeCategory] produces from anything but the empty
    string is a fixed point of it. *)
Lemma normalizeCategory_fixed (c q : value) :
  c <> Str "" ->
  normalizeCategory c = Ok q -> not_null q = true ->
  normalizeCategory q = Ok q.
Proof.
  intros Hne H Hq.
  destruct (normalizeCategory_record c q H)
    as [->|(id & name & d & -> & Hd & Hname & Hid)]; [discriminate|].
  rewrite normalizeCategory_Obj. cbn [lookup String.eqb Ascii.eqb Bool.eqb].
  now rewrite (Hid Hne), (Hname (Hid Hne)), Hd.
Qed.

Lemma normalizeCategories_fixed (cats mapped : list value) :
  Forall (fun c => c <> Str "") cats ->
  mapM normalizeCategory cats = Ok mapped ->
  mapM normalizeCategory (List.filter not_null mapped)
  = Ok (List.filter not_null mapped).
Proof.
  intros Hne H. apply mapM_Forall2 in H. apply Forall2_mapM.
  induction H as [|c q cats mapped Hcq _ IH]; simpl; [constructor|].
  inversion Hne; subst.
  destruct (not_null q) eqn:Hq; auto.
  constructor; auto. now apply (normalizeCategory_fixed c q).
Qed.

Lemma filter_twice {A : Type} (f : A -> bool) (l : list A) :
  List.filter f (List.filter f l) = List.filter f l.
Proof.
  induction l as [|x l IH]; simpl; [reflexivity|].
  destruct (f x) eqn:Hx; simpl; [now rewrite Hx, IH|assumption].
Qed.

Lemma normalizeCategories_idempotent (A : value) :
  Forall (fun c => c <> Str "") (items A) ->
  bind (normalizeCategories A) normalizeCategories = normalizeCategories A.
Proof.
  destruct A as [| | | | |cats|]; try reflexivity.
  simpl. intros Hne.
  destruct (mapM normalizeCategory cats) as [mapped|e] eqn:Hm; simpl; [|reflexivity].
  rewrite (normalizeCategories_fixed cats mapped Hne Hm). simpl.
  now rewrite filter_twice.
Qed.

(** X28.  The normalisation functions are idempotent on the data model:
    [normalizeOrders] on every input, [normalizeProducts] on products whose
    flavors have quantities that are positive or zero (for which the order
    of [sort] is fixed), [normalizeCategories] on every input that holds no
    empty-string element.  Normalising the result again gives the same
    result, or the same exception. *)
Theorem normalisation_idempotent (products orders categories : value) :
  Forall data_model_product (items products) ->
  Forall (fun c => c <> Str "") (items categories) ->
  bind (normalizeProducts products) normalizeProducts = normalizeProducts products
  /\ bind (normalizeOrders orders) normalizeOrders = normalizeOrders orders
  /\ bind (normalizeCategories categories) normalizeCategories
     = normalizeCategories categories.
Proof.
  intros Hdm Hne. split; [|split].
  - now apply normalizeProducts_idempotent.
  - apply normalizeOrders_idempotent.
  - now apply normalizeCategories_idempotent.
Qed.

End Categories.

(* ------------------------------------------------------------------ *)
(** ** Login *)

Section Login.
Context {E : Engine}.

Lemma missing_credentials_message :
  Text.includes "does not exist" (message (missing_table "admin_credentials"))
  = true.
Proof. reflexivity. Qed.

(** What the store answers to the lookup of a credential row on a table
    that is missing or has no row, or several rows, for the name. *)
Lemma exec_lookup_fails (db : Database) (name : string) :
  match table_rows "admin_credentials" (tables db) with
  | None => True
  | Some rows =>
      List.length (List.filter (matches_all [FEq "username" name]) rows) <> 1%nat
  end ->
  exists e,
    exec (Select "admin_credentials" [] [FEq "username" name] [] true) db
    = (Failure e, db)
    /\ (Text.includes "does not exist" (message e) = true
        \/ code e = "PGRST116").
Proof.
  unfold exec. destruct (table_rows "admin_credentials" (tables db)) as [rows|].
  - intros Hlen. exists not_single. cbn [project]. rewrite map_id.
    destruct (List.filter _ rows) as [|row [|row' more]];
      [| simpl in Hlen; congruence |]; split; auto.
  - intros _. exists (missing_table "admin_credentials"). split; [reflexivity|].
    left. apply missing_credentials_message.
Qed.

(** C4.  When the lookup in the credentials table fails because the table
    is absent (an error of the does-not-exist class) or because no row is
    found (PGRST116), the login of ["admin"] with ["admin123"] succeeds with
    the fixed token, and every other pair is answered 401 without a token.
    So it is on a store that answers and whose credential table is missing,
    or holds no row (or more than one) for the name. *)
Theorem login_fallback (req : Request) (db : Database)
  (fs : list (option JsError)) (q : Query) (e : JsError) :
  let fallback :=
    if strict_eq (prop (body req) "username") (Str "admin")
       && strict_eq (prop (body req) "password") (Str "admin123")
    then res_json (Obj [("success", Bool true);
                        ("token", Str "authenticated_admin_token");
                        ("user", Obj [("username", Str "admin")])])
    else res_error 401 "Credenciais inválidas" in
  (failed q e (run (post_auth_login req) db fs) ->
   missing_table_class e = true \/ code e = "PGRST116" ->
   fst (run (post_auth_login req) db fs) = fallback)
  /\ (truthy (prop (body req) "username") = true ->
      truthy (prop (body req) "password") = true ->
      printable (prop (body req) "username") = true ->
      match table_rows "admin_credentials" (tables db) with
      | None => True
      | Some rows =>
          List.length
            (List.filter
               (matches_all
                  [FEq "username" (ToString (prop (body req) "username"))])
               rows) <> 1%nat
      end ->
      fst (run (post_auth_login req) db []) = fallback).
Proof.
  cbv zeta. split.
  - unfold failed, run, post_auth_login, try_catch, io_bind, lift, io_ret,
      supabase.
    destruct (get (body req) "username") as [u|e1] eqn:Hu; [|simpl; tauto].
    destruct (get (body req) "password") as [p|e1] eqn:Hp; [|simpl; tauto].
    destruct (negb (truthy u) || negb (truthy p)); [simpl; tauto|].
    apply get_Ok_inv in Hu, Hp. destruct Hu as [_ <-], Hp as [_ <-].
    destruct (template _) as [text|e1]; [|simpl; tauto].
    cbn [fst snd trace faults database].
    destruct (answer _ _) as [[cred|err] db']; cbn [fst snd].
    + (* a row was found: no request has failed *)
      intros Hin _. exfalso.
      destruct (negb (truthy cred)); [|destruct (simpleEncrypt _);
        [destruct (_ || _)|]]; simpl in Hin;
        destruct Hin as [Heq|[]]; discriminate.
    + intros Hin Hclass.
      assert (err = e) as ->.
      { destruct (_ || _); [destruct (_ && _)|]; simpl in Hin;
          destruct Hin as [Heq|[]]; now inversion Heq. }
      assert (Hfall : Text.includes "does not exist" (message e)
                      || String.eqb (code e) "PGRST116" = true).
      { apply orb_true_iff. destruct Hclass as [Hm|Hc]; [now left|right].
        now apply String.eqb_eq. }
      rewrite Hfall.
      destruct (_ && _); reflexivity.
  - intros Hu Hp Hprint Hrows.
    destruct (truthy_prop_Obj _ _ Hu) as [fs0 Hbody].
    destruct (exec_lookup_fails db _ Hrows) as (err & Hexec & Hclass).
    unfold run, post_auth_login, try_catch, io_bind, lift, io_ret, supabase.
    rewrite !(get_prop (body req)) by now rewrite Hbody.
    rewrite Hu, Hp, (template_printable _ Hprint). cbn [negb orb].
    unfold answer. cbn [faults database trace]. rewrite Hexec. cbn [fst snd].
    assert (Hfall : Text.includes "does not exist" (message err)
                    || String.eqb (code err) "PGRST116" = true).
    { apply orb_true_iff. destruct Hclass as [Hm|Hc]; [now left|right].
      now apply String.eqb_eq. }
    rewrite Hfall.
    destruct (_ && _); reflexivity.
Qed.


End Login.

(* ------------------------------------------------------------------ *)
(** ** Store errors in the handlers *)

Section StoreErrors.
Context {E : Engine}.
Variable excused : Query -> JsError -> bool.

Lemma surfaces_ret {A : Type} (a : A) : surfaces excused (io_ret a).
Proof.
  intros w Hw q e Hin Hex. simpl in Hin. rewrite (Hw q e Hin) in Hex. discriminate.
Qed.

Lemma surfaces_throw {A : Type} (e0 : JsError) :
  surfaces excused (@io_throw A e0).
Proof.
  intros w Hw q e Hin Hex. simpl in Hin. rewrite (Hw q e Hin) in Hex. discriminate.
Qed.

Lemma surfaces_lift {A : Type} (r : result A) : surfaces excused (lift r).
Proof.
  intros w Hw q e Hin Hex. simpl in Hin. rewrite (Hw q e Hin) in Hex. discriminate.
Qed.

Lemma surfaces_bind {A B : Type} (m : IO A) (k : A -> IO B) :
  surfaces excused m -> (forall a, surfaces excused (k a)) ->
  surfaces excused (io_bind m k).
Proof.
  intros Hm Hk w Hw q e Hin Hex. unfold io_bind in *.
  specialize (Hm w Hw).
  destruct (m w) as [[a|e0] w1]; cbn [fst snd] in *.
  - refine (Hk a w1 _ q e Hin Hex).
    intros q' e' Hin'. destruct (excused q' e') eqn:Hex'; [reflexivity|].
    specialize (Hm q' e' Hin' Hex'). discriminate.
  - specialize (Hm q e Hin Hex). now inversion Hm.
Qed.

(** [const { error } = await ...; if (error) throw error;] *)
Lemma surfaces_request {B : Type} (q0 : Query) (k : value -> IO B) :
  (forall d, surfaces excused (k d)) ->
  surfaces excused (io_bind (supabase q0) (fun r => io_bind (or_throw r) k)).
Proof.
  intros Hk w Hw q e Hin Hex. unfold io_bind, supabase in *.
  cbn [fst snd] in *.
  destruct (answer q0 w) as [[d|err] db']; cbn [fst snd or_throw io_ret io_throw] in *.
  - refine (Hk d _ _ q e Hin Hex).
    cbn [trace]. intros q' e' Hin'. apply in_app_or in Hin'.
    destruct Hin' as [Hin'|[Heq|[]]]; [now apply Hw|discriminate].
  - cbn [trace] in Hin. apply in_app_or in Hin.
    destruct Hin as [Hin|[Heq|[]]].
    + rewrite (Hw q e Hin) in Hex. discriminate.
    + now inversion Heq.
Qed.

Lemma surfaces_request_tail (q0 : Query) :
  surfaces excused (io_bind (supabase q0) (fun r => or_throw r)).
Proof.
  intros w Hw q e Hin Hex. unfold io_bind, supabase in *.
  cbn [fst snd] in *.
  destruct (answer q0 w) as [[d|err] db']; cbn [fst snd or_throw io_ret io_throw] in *;
    cbn [trace] in Hin; apply in_app_or in Hin;
    destruct Hin as [Hin|[Heq|[]]];
    try (rewrite (Hw q e Hin) in Hex; discriminate);
    now inversion Heq.
Qed.

Lemma surfaces_try (body : IO Response) (handler : JsError -> Response)
  (db : Database) (fs : list (option JsError)) (q : Query) (e : JsError) :
  surfaces excused body ->
  failed q e (run (try_catch body handler) db fs) ->
  excused q e = false ->
  fst (run (try_catch body handler) db fs) = handler e.
Proof.
  unfold failed, run, try_catch. intros Hb Hin Hex.
  specialize (Hb (mkWorld db fs []) (fun _ _ (H : List.In _ []) => match H with end) q e).
  destruct (body (mkWorld db fs [])) as [[r|e0] w']; cbn [fst snd] in *.
  - specialize (Hb Hin Hex). discriminate.
  - specialize (Hb Hin Hex). now inversion Hb.
Qed.

End StoreErrors.

Ltac surfaces_step :=
  first
    [ apply surfaces_request; intros
    | apply surfaces_request_tail
    | apply surfaces_bind; [|intros]
    | apply surfaces_lift
    | apply surfaces_ret
    | apply surfaces_throw
    | match goal with
      | |- surfaces _ (if ?c then _ else _) => destruct c
      | |- surfaces _ (match ?x with _ => _ end) => destruct x
      end ].

(** Reduce a goal on a handler [try { body } catch { handler }] to the
    statement that [body] surfaces store errors, and walk through [body]. *)
Ltac surfaces_handler excused H :=
  match type of H with
  | failed ?q ?e (run (try_catch ?b ?h) ?db ?fs) =>
      change (fst (run (try_catch b h) db fs) = h e);
      apply (surfaces_try excused b h db fs q e); [|exact H|try reflexivity];
      repeat surfaces_step
  end.

Section WriteHandlers.
Context {E : Engine}.

Lemma post_orders_surfaces (req : Request) (db : Database)
  (fs : list (option JsError)) (q : Query) (e : JsError) :
  failed q e (run (post_orders req) db fs) ->
  fst (run (post_orders req) db fs)
  = res_error 500 ("Erro ao salvar pedido: " ++ message e).
Proof.
  intros H. unfold post_orders in *.
  surfaces_handler excused_none H.
Qed.

Lemma post_orders_update_status_surfaces (now : string) (req : Request)
  (db : Database) (fs : list (option JsError)) (q : Query) (e : JsError) :
  failed q e (run (post_orders_update_status now req) db fs) ->
  fst (run (post_orders_update_status now req) db fs)
  = res_error 500 ("Erro ao atualizar status do pedido: " ++ message e).
Proof.
  intros H. unfold post_orders_update_status in *.
  surfaces_handler excused_none H.
Qed.

Lemma post_products_surfaces (req : Request) (db : Database)
  (fs : list (option JsError)) (q : Query) (e : JsError) :
  failed q e (run (post_products req) db fs) ->
  fst (run (post_products req) db fs)
  = res_error 500 ("Erro ao salvar produtos: " ++ message e).
Proof.
  intros H. unfold post_products in *.
  surfaces_handler excused_none H.
Qed.

Lemma post_categories_add_surfaces (req : Request) (db : Database)
  (fs : list (option JsError)) (q : Query) (e : JsError) :
  failed q e (run (post_categories_add req) db fs) ->
  fst (run (post_categories_add req) db fs)
  = res_error 500 ("Erro ao adicionar categoria: " ++ message e).
Proof.
  intros H. unfold post_categories_add in *.
  surfaces_handler excused_none H.
Qed.

Lemma post_categories_delete_surfaces (req : Request) (db : Database)
  (fs : list (option JsError)) (q : Query) (e : JsError) :
  failed q e (run (post_categories_delete req) db fs) ->
  fst (run (post_categories_delete req) db fs)
  = res_error 500 ("Erro ao excluir categoria: " ++ message e).
Proof.
  intros H. unfold post_categories_delete in *.
  surfaces_handler excused_none H.
Qed.

End WriteHandlers.

Section OtherHandlers.
Context {E : Engine}.

Lemma surfaces_stale_delete {B : Type} (t : string) (filters : list Filter)
  (k : value -> IO B) :
  (forall d, surfaces stale_delete (k d)) ->
  surfaces stale_delete
    (io_bind (supabase (Delete t filters))
       (fun r1 =>
          io_bind
            match r1 with
            | Failure deleteError =>
                if negb (Text.includes "No rows found" (message deleteError))
                then io_throw deleteError
                else io_ret Null
            | Data _ => io_ret Null
            end k)).
Proof.
  intros Hk w Hw q e Hin Hex. unfold io_bind, supabase in *.
  cbn [fst snd] in *.
  destruct (answer (Delete t filters) w) as [[d|err] db']; cbn [fst snd io_ret] in *.
  - refine (Hk Null _ _ q e Hin Hex).
    cbn [trace]. intros q' e' Hin'. apply in_app_or in Hin'.
    destruct Hin' as [Hin'|[Heq|[]]]; [now apply Hw|discriminate].
  - destruct (Text.includes "No rows found" (message err)) eqn:Hstale;
      cbn [negb io_throw io_ret fst snd] in *.
    + refine (Hk Null _ _ q e Hin Hex).
      cbn [trace]. intros q' e' Hin'. apply in_app_or in Hin'.
      destruct Hin' as [Hin'|[Heq|[]]]; [now apply Hw|].
      inversion Heq; subst. exact Hstale.
    + cbn [trace] in Hin. apply in_app_or in Hin.
      destruct Hin as [Hin|[Heq|[]]].
      * rewrite (Hw q e Hin) in Hex. discriminate.
      * now inversion Heq.
Qed.

Lemma post_categories_surfaces (req : Request) (db : Database)
  (fs : list (option JsError)) (q : Query) (e : JsError) :
  failed q e (run (post_categories req) db fs) ->
  stale_delete q e = false ->
  fst (run (post_categories req) db fs)
  = res_error 500 ("Erro ao salvar categorias: " ++ message e).
Proof.
  intros H Hex. unfold post_categories in *.
  match type of H with
  | failed _ _ (run (try_catch ?b ?h) _ _) =>
      change (fst (run (try_catch b h) db fs) = h e);
      apply (surfaces_try stale_delete b h db fs q e); [|exact H|exact Hex]
  end.
  repeat first [ apply surfaces_stale_delete; intros | surfaces_step ].
Qed.

(** A read handler makes one request and answers 200 whatever comes back. *)
Lemma get_products_hides (req : Request) (db : Database)
  (fs : list (option JsError)) (q : Query) (e : JsError) :
  failed q e (run (get_products req) db fs) ->
  missing_table_class e = false ->
  fst (run (get_products req) db fs) = res_json (Obj [("products", Arr [])]).
Proof.
  unfold failed, run, get_products, try_catch, io_bind, log, lift, io_ret,
    supabase, missing_table_class.
  cbn [fst snd trace faults database].
  destruct (answer _ _) as [[d|err] db']; cbn [fst snd].
  - intros Hin _. exfalso.
    destruct (template _); cbn [fst snd] in Hin;
      [destruct (_ || _); [|destruct (normalizeProducts d)]|]; simpl in Hin;
      destruct Hin as [Heq|[]]; discriminate.
  - intros Hin Hclass.
    assert (err = e) as ->.
    { destruct (Text.includes _ _); simpl in Hin;
        destruct Hin as [Heq|[]]; now inversion Heq. }
    now rewrite Hclass.
Qed.

Lemma get_categories_hides (req : Request) (db : Database)
  (fs : list (option JsError)) (q : Query) (e : JsError) :
  failed q e (run (get_categories req) db fs) ->
  missing_table_class e = false ->
  fst (run (get_categories req) db fs) = res_json (Obj [("categories", Arr [])]).
Proof.
  unfold failed, run, get_categories, try_catch, io_bind, log, lift, io_ret,
    supabase, missing_table_class.
  cbn [fst snd trace faults database].
  destruct (answer _ _) as [[d|err] db']; cbn [fst snd].
  - intros Hin _. exfalso.
    destruct (template _); cbn [fst snd] in Hin;
      [destruct (_ || _); [|destruct (normalizeCategories d)]|]; simpl in Hin;
      destruct Hin as [Heq|[]]; discriminate.
  - intros Hin Hclass.
    assert (err = e) as ->.
    { destruct (Text.includes _ _); simpl in Hin;
        destruct Hin as [Heq|[]]; now inversion Heq. }
    now rewrite Hclass.
Qed.

Lemma get_orders_hides (req : Request) (db : Database)
  (fs : list (option JsError)) (q : Query) (e : JsError) :
  failed q e (run (get_orders req) db fs) ->
  fst (run (get_orders req) db fs) = res_json (Obj [("orders", Arr [])]).
Proof.
  unfold failed, run, get_orders, try_catch, io_bind, log, lift, io_ret,
    supabase.
  cbn [fst snd trace faults database].
  destruct (answer _ _) as [[d|err] db']; cbn [fst snd].
  - intros Hin. exfalso.
    destruct (template _); cbn [fst snd] in Hin;
      [destruct (normalizeOrders _)|]; simpl in Hin;
      destruct Hin as [Heq|[]]; discriminate.
  - intros _. destruct (Text.includes _ _); reflexivity.
Qed.

Lemma login_system_error (req : Request) (db : Database)
  (fs : list (option JsError)) (q : Query) (e : JsError) :
  failed q e (run (post_auth_login req) db fs) ->
  missing_table_class e = false ->
  code e <> "PGRST116" ->
  fst (run (post_auth_login req) db fs) = res_error 401 "Erro no sistema".
Proof.
  unfold failed, run, post_auth_login, try_catch, io_bind, lift, io_ret, supabase,
    missing_table_class.
  destruct (get (body req) "username") as [u|e1]; [|simpl; tauto].
  destruct (get (body req) "password") as [p|e1]; [|simpl; tauto].
  destruct (negb (truthy u) || negb (truthy p)); [simpl; tauto|].
  destruct (template u); [|simpl; tauto].
  cbn [fst snd trace faults database].
  destruct (answer _ _) as [[cred|err] db']; cbn [fst snd].
  - intros Hin _ _. exfalso.
    destruct (negb (truthy cred)); [|destruct (simpleEncrypt _);
      [destruct (_ || _)|]]; simpl in Hin;
      destruct Hin as [Heq|[]]; discriminate.
  - intros Hin Hclass Hcode.
    assert (err = e) as ->.
    { destruct (_ || _); [destruct (_ && _)|]; simpl in Hin;
        destruct Hin as [Heq|[]]; now inversion Heq. }
    apply String.eqb_neq in Hcode. now rewrite Hclass, Hcode.
Qed.

(** The bulk category save goes on after a delete error whose message
    contains [No rows found]: the upsert is sent, and its reply decides the
    answer. *)
Lemma post_categories_goes_on (req : Request) (db : Database)
  (fs : list (option JsError)) (q : Query) (e : JsError) :
  failed q e (run (post_categories req) db fs) ->
  stale_delete q e = true ->
  exists rows reply,
    trace (snd (run (post_categories req) db fs))
    = [(q, Failure e); (Upsert "categories" rows "id", reply)]
    /\ fst (run (post_categories req) db fs)
       = match reply with
         | Data _ =>
             res_json (success_body
               (ToString (Num (Int (Z.of_nat (List.length rows))))
                ++ " categorias salvas"))
         | Failure upsertError =>
             res_error 500 ("Erro ao salvar categorias: " ++ message upsertError)
         end.
Proof.
  unfold failed, run, post_categories, try_catch, io_bind, log, lift, io_ret,
    supabase.
  destruct (unauthorized req); [simpl; tauto|].
  destruct (get (body req) "categories") as [cs|e0]; [|simpl; tauto].
  destruct (template _); [|simpl; tauto].
  destruct (normalizeCategories cs) as [nc|e0]; [|simpl; tauto].
  destruct (items nc) as [|c rest] eqn:Hitems; [simpl; tauto|].
  destruct nc as [| | | | |l|]; try discriminate Hitems.
  simpl in Hitems; subst l.
  destruct (mapM template _); [|simpl; tauto].
  cbn [fst snd trace faults database].
  destruct (answer _ _) as [[d|err] db1]; cbn [fst snd io_ret].
  - destruct (answer _ _) as [[d2|err2] db2];
      cbn [fst snd or_throw io_ret io_throw trace app];
      intros [H|[H|[]]] Hst; inversion H; subst; discriminate.
  - destruct (Text.includes "No rows found" (message err)) eqn:Hinc;
      cbn [negb fst snd io_ret io_throw].
    + destruct (answer _ _) as [[d2|err2] db2];
        cbn [fst snd or_throw io_ret io_throw trace app];
        intros [H|[H|[]]] Hst; inversion H; subst; try discriminate;
        eexists; eexists; (split; [reflexivity|]);
        cbn [get_length List.length List.map]; rewrite ?length_map; reflexivity.
    + cbn [trace app]. intros [H|[]] Hst. inversion H; subst.
      simpl in Hst. congruence.
Qed.

(** C8, as amended.  In each of the six write handlers a store error of any
    class is answered 500 with the message of the error appended to the
    handler's fixed prefix; the one exception is the bulk category save,
    which ignores the error of its delete when the message contains
    [No rows found]: it then sends the upsert all the same and answers by
    the upsert's reply, 200 on data and 500 with the upsert's message on an
    error.  The three read handlers answer a store error outside the
    missing-table class with status 200 and an empty sequence, and the
    login answers it (when it is not the no-row error either) with 401. *)
Theorem store_errors_by_handler (now : string) (req : Request) (db : Database)
  (fs : list (option JsError)) (q : Query) (e : JsError) :
  (failed q e (run (post_orders req) db fs) ->
   fst (run (post_orders req) db fs)
   = res_error 500 ("Erro ao salvar pedido: " ++ message e))
  /\ (failed q e (run (post_orders_update_status now req) db fs) ->
      fst (run (post_orders_update_status now req) db fs)
      = res_error 500 ("Erro ao atualizar status do pedido: " ++ message e))
  /\ (failed q e (run (post_products req) db fs) ->
      fst (run (post_products req) db fs)
      = res_error 500 ("Erro ao salvar produtos: " ++ message e))
  /\ (failed q e (run (post_categories_add req) db fs) ->
      fst (run (post_categories_add req) db fs)
      = res_error 500 ("Erro ao adicionar categoria: " ++ message e))
  /\ (failed q e (run (post_categories_delete req) db fs) ->
      fst (run (post_categories_delete req) db fs)
      = res_error 500 ("Erro ao excluir categoria: " ++ message e))
  /\ (failed q e (run (post_categories req) db fs) ->
      stale_delete q e = false ->
      fst (run (post_categories req) db fs)
      = res_error 500 ("Erro ao salvar categorias: " ++ message e))
  /\ (failed q e (run (post_categories req) db fs) ->
      stale_delete q e = true ->
      exists rows reply,
        trace (snd (run (post_categories req) db fs))
        = [(q, Failure e); (Upsert "categories" rows "id", reply)]
        /\ fst (run (post_categories req) db fs)
           = match reply with
             | Data _ =>
                 res_json (success_body
                   (ToString (Num (Int (Z.of_nat (List.length rows))))
                    ++ " categorias salvas"))
             | Failure upsertError =>
                 res_error 500
                   ("Erro ao salvar categorias: " ++ message upsertError)
             end)
  /\ (failed q e (run (get_products req) db fs) ->
      missing_table_class e = false ->
      fst (run (get_products req) db fs) = res_json (Obj [("products", Arr [])]))
  /\ (failed q e (run (get_categories req) db fs) ->
      missing_table_class e = false ->
      fst (run (get_categories req) db fs)
      = res_json (Obj [("categories", Arr [])]))
  /\ (failed q e (run (get_orders req) db fs) ->
      missing_table_class e = false ->
      fst (run (get_orders req) db fs) = res_json (Obj [("orders", Arr [])]))
  /\ (failed q e (run (post_auth_login req) db fs) ->
      missing_table_class e = false ->
      code e <> "PGRST116" ->
      fst (run (post_auth_login req) db fs) = res_error 401 "Erro no sistema").
Proof.
  split; [apply post_orders_surfaces|].
  split; [apply post_orders_update_status_surfaces|].
  split; [apply post_products_surfaces|].
  split; [apply post_categories_add_surfaces|].
  split; [apply post_categories_delete_surfaces|].
  split; [apply post_categories_surfaces|].
  split; [apply post_categories_goes_on|].
  split; [apply get_products_hides|].
  split; [apply get_categories_hides|].
  split; [intros H _; now apply get_orders_hides with (q := q) (e := e)|].
  apply login_system_error.
Qed.

End OtherHandlers.

(* ------------------------------------------------------------------ *)
(** ** The store after a write *)

Lemma table_rows_put_same (t : string) (rows : list value)
  (ts : list (string * list value)) :
  table_rows t (table_put t rows ts) = Some rows.
Proof.
  induction ts as [|[t' rows'] ts IH]; simpl.
  - now rewrite String.eqb_refl.
  - destruct (String.eqb t t') eqn:Ht; simpl.
    + now rewrite String.eqb_refl.
    + now rewrite Ht.
Qed.

Lemma table_rows_put_other (t t' : string) (rows : list value)
  (ts : list (string * list value)) :
  t <> t' -> table_rows t (table_put t' rows ts) = table_rows t ts.
Proof.
  intros Hne. induction ts as [|[t0 rows0] ts IH]; simpl.
  - apply String.eqb_neq in Hne. now rewrite Hne.
  - destruct (String.eqb t' t0) eqn:Ht; simpl.
    + apply String.eqb_eq in Ht; subst t0.
      apply String.eqb_neq in Hne. now rewrite Hne.
    + now rewrite IH.
Qed.

(** A request that is answered with data was carried out by the store. *)
Lemma answer_Data (q : Query) (w : World) (d : value) (db' : Database) :
  answer q w = (Data d, db') -> exec q (database w) = (Data d, db').
Proof.
  unfold answer. destruct (faults w) as [|[e|] rest]; auto. discriminate.
Qed.

Lemma exec_Select_Data (t : string) (cols : list string) (fs : list Filter)
  (ord : list string) (db db' : Database) (d : value) :
  exec (Select t cols fs ord false) db = (Data d, db') ->
  db' = db
  /\ d = Arr (List.map (project cols)
                (List.filter (matches_all fs) (rows_of t db))).
Proof.
  unfold exec, rows_of. destruct (table_rows t (tables db)); [|discriminate].
  intros H; inversion H; auto.
Qed.

Lemma exec_Delete_Data (t : string) (fs : list Filter) (db db' : Database)
  (d : value) :
  exec (Delete t fs) db = (Data d, db') ->
  db' = mkDatabase
          (table_put t (List.filter (fun r => negb (matches_all fs r)) (rows_of t db))
             (tables db))
          (next_id db).
Proof.
  unfold exec, rows_of. destruct (table_rows t (tables db)); [|discriminate].
  intros H; inversion H; auto.
Qed.

Lemma exec_Update_Data (t : string) (patch : value) (fs : list Filter)
  (db db' : Database) (d : value) :
  exec (Update t patch fs) db = (Data d, db') ->
  db' = mkDatabase
          (table_put t
             (List.map (fun r => if matches_all fs r then apply_patch patch r else r)
                (rows_of t db))
             (tables db))
          (next_id db).
Proof.
  unfold exec, rows_of. destruct (table_rows t (tables db)); [|discriminate].
  intros H; inversion H; auto.
Qed.


Lemma rows_of_put_same (t : string) (rows : list value)
  (ts : list (string * list value)) (n : Z) :
  rows_of t (mkDatabase (table_put t rows ts) n) = rows.
Proof. unfold rows_of; simpl. now rewrite table_rows_put_same. Qed.

Lemma rows_of_put_other (t t' : string) (rows : list value)
  (ts : list (string * list value)) (n m : Z) :
  t <> t' ->
  rows_of t (mkDatabase (table_put t' rows ts) n) = rows_of t (mkDatabase ts m).
Proof. intros H. unfold rows_of; simpl. now rewrite table_rows_put_other. Qed.



Section Writes.
Context {E : Engine}.

Lemma normalizeProduct_result_not_nullish (p q : value) :
  normalizeProduct p = Ok q -> is_nullish q = false.
Proof.
  intros H. pose proof (normalizeProduct_not_nullish p q H) as Hp.
  rewrite (normalizeProduct_unfold p Hp) in H.
  destruct (prop p "colors");
    try (destruct (prop p "sabores");
         try (inversion H; subst q; exact Hp);
         destruct (Array_sort compareSabores _); simpl in H; [|discriminate];
         destruct (mapM fillSabor _); simpl in H; [|discriminate];
         now inversion H).
  destruct (mapM colorToSabor _); simpl in H; [|discriminate]. now inversion H.
Qed.

Lemma normalizeProducts_Ok_inv (A v : value) :
  normalizeProducts A = Ok v ->
  exists l, v = Arr l /\ Forall (fun q => is_nullish q = false) l.
Proof.
  destruct A as [| | | | |ps|]; simpl; intros H;
    try (inversion H; exists []; split; [reflexivity|constructor]).
  destruct (mapM normalizeProduct ps) as [l|e] eqn:Hm; simpl in H; [|discriminate].
  inversion H; subst v. exists l. split; [reflexivity|].
  apply mapM_Forall2 in Hm.
  induction Hm as [|p q ps l Hpq _ IH]; constructor; auto.
  now apply (normalizeProduct_result_not_nullish p q).
Qed.



End Writes.

Section CategoryDelete.
Context {E : Engine}.

Lemma map_unmatched {A : Type} (f : A -> bool) (g : A -> A) (l : list A) :
  List.filter f l = [] -> List.map (fun r => if f r then g r else r) l = l.
Proof.
  induction l as [|x l IH]; simpl; [reflexivity|].
  destruct (f x); [discriminate|]. intros H. now rewrite IH.
Qed.

Lemma in_category_text (cid r : value) :
  in_category cid r
  = negb (is_nullish (prop r "category"))
    && String.eqb (ToString (prop r "category")) (ToString cid).
Proof.
  unfold in_category, matches_all, matches, column. simpl. apply andb_true_r.
Qed.

Lemma has_id_text (cid r : value) :
  has_id cid r
  = negb (is_nullish (prop r "id"))
    && String.eqb (ToString (prop r "id")) (ToString cid).
Proof.
  unfold has_id, matches_all, matches, column. simpl. apply andb_true_r.
Qed.

Lemma reassigned_default (cid r : value) :
  in_category cid r = true ->
  prop (reassigned cid r) "category" = Str "default".
Proof.
  intros Hm. unfold reassigned. rewrite Hm.
  unfold prop. simpl. apply lookup_set_same.
Qed.

Lemma reassigned_in_category (cid r : value) :
  in_category cid (reassigned cid r) = true -> ToString cid = "default".
Proof.
  unfold reassigned. destruct (in_category cid r) eqn:Hm.
  - rewrite in_category_text.
    replace (prop (apply_patch (Obj [("category", Str "default")]) r) "category")
      with (Str "default")
      by (unfold prop; simpl; now rewrite lookup_set_same).
    cbn [is_nullish negb andb ToString]. intros H.
    apply String.eqb_eq in H. now symmetry.
  - congruence.
Qed.

Lemma same_value_same_text (cid v : value) :
  truthy cid = true -> v = cid ->
  negb (is_nullish v) && String.eqb (ToString v) (ToString cid) = true.
Proof.
  intros Hcid ->. now rewrite String.eqb_refl, (truthy_not_nullish cid Hcid).
Qed.

(** C6, as amended.  A successful category delete first moves every product
    that refers to the deleted id to the category ["default"] and only then
    deletes the category rows with that id.  The store compares texts: a
    row refers to the id when the text of its category is the text of the
    id, which is the case in particular when the two are the same value.
    Afterwards the products are the old ones with the referring rows moved
    to ["default"], the categories are the old ones without the rows that
    have the id, and no product refers to the id unless the text of the id
    is [default] itself.  The select, the update (sent only when a product
    refers to the id) and the delete are the only requests, in this
    order. *)
Theorem category_delete_cascade (req : Request) (db : Database)
  (fs : list (option JsError)) :
  status (fst (run (post_categories_delete req) db fs)) = 200 ->
  let categoryId := prop (body req) "categoryId" in
  let after := database (snd (run (post_categories_delete req) db fs)) in
  rows_of "products" after
  = List.map (reassigned categoryId) (rows_of "products" db)
  /\ (forall r, in_category categoryId r = true ->
                prop (reassigned categoryId r) "category" = Str "default")
  /\ (forall r, prop r "category" = categoryId -> in_category categoryId r = true)
  /\ rows_of "categories" after
     = List.filter (fun r => negb (has_id categoryId r)) (rows_of "categories" db)
  /\ Forall (fun r => has_id categoryId r = false) (rows_of "categories" after)
  /\ (forall r, prop r "id" = categoryId -> has_id categoryId r = true)
  /\ (ToString categoryId <> "default" ->
      Forall (fun r => in_category categoryId r = false)
        (rows_of "products" after))
  /\ List.map fst (trace (snd (run (post_categories_delete req) db fs)))
     = (Select "products" ["id"; "title"]
          [FEq "category" (ToString categoryId)] [] false
        :: (if List.existsb (in_category categoryId) (rows_of "products" db)
            then [Update "products" (Obj [("category", Str "default")])
                    [FEq "category" (ToString categoryId)]]
            else [])
        ++ [Delete "categories" [FEq "id" (ToString categoryId)]])%list.
Proof.
  unfold run, post_categories_delete, try_catch, io_bind, log, lift, io_ret,
    supabase.
  destruct (unauthorized req); [simpl; discriminate|].
  destruct (get (body req) "categoryId") as [cid|e] eqn:Hg;
    [|simpl; discriminate].
  apply get_Ok_inv in Hg. destruct Hg as [_ ->].
  set (cid := prop (body req) "categoryId").
  destruct (truthy cid) eqn:Hcid; cbn [negb]; [|simpl; discriminate].
  destruct (template cid) as [text|e]; [|simpl; discriminate].
  cbn [fst snd trace faults database].
  destruct (answer _ _) as [[found|err] db1] eqn:Ha1;
    cbn [fst snd or_throw io_ret io_throw]; [|simpl; discriminate].
  apply answer_Data, exec_Select_Data in Ha1. cbn [database] in Ha1.
  destruct Ha1 as [-> ->].
  set (hit := matches_all [FEq "category" (ToString cid)]).
  set (rows := rows_of "products" db).
  set (found := Arr (List.map (project ["id"; "title"]) (List.filter hit rows))).
  assert (Hgt : (if truthy found then js_gt0 (get_length found) else Ok false)
                = Ok (List.existsb hit rows)).
  { unfold found, js_gt0; simpl. rewrite length_map. f_equal.
    induction rows as [|r rows' IH]; simpl; [reflexivity|].
    destruct (hit r); simpl; [|exact IH].
    apply Z.ltb_lt. lia. }
  rewrite Hgt. cbn [fst snd].
  assert (Hlen : template (get_length found) = Ok (ToString (get_length found)))
    by reflexivity.
  assert (Hcount : template (counted found) = Ok (ToString (counted found))).
  { unfold found, counted, optional_length, js_or. cbn [is_nullish get_length].
    match goal with |- context [truthy ?n] => destruct (truthy n) end;
      reflexivity. }
  assert (Hfinal : forall db2 d,
             rows_of "products" db2 = List.map (reassigned cid) rows ->
             rows_of "categories" db2 = rows_of "categories" db ->
             forall db3,
               exec (Delete "categories" [FEq "id" (ToString cid)]) db2
               = (Data d, db3) ->
               rows_of "products" db3 = List.map (reassigned cid) rows
               /\ (forall r, hit r = true ->
                             prop (reassigned cid r) "category" = Str "default")
               /\ (forall r, prop r "category" = cid -> hit r = true)
               /\ rows_of "categories" db3
                  = List.filter (fun r => negb (has_id cid r))
                      (rows_of "categories" db)
               /\ Forall (fun r => has_id cid r = false) (rows_of "categories" db3)
               /\ (forall r, prop r "id" = cid -> has_id cid r = true)
               /\ (ToString cid <> "default" ->
                   Forall (fun r => hit r = false) (rows_of "products" db3))).
  { intros db2 d Hp Hc db3 Hdel. apply exec_Delete_Data in Hdel. subst db3.
    change (fun r => negb (matches_all [FEq "id" (ToString cid)] r))
      with (fun r => negb (has_id cid r)).
    assert (Hp3 : rows_of "products"
                    (mkDatabase
                       (table_put "categories"
                          (List.filter (fun r => negb (has_id cid r))
                             (rows_of "categories" db2)) (tables db2))
                       (next_id db2))
                  = List.map (reassigned cid) rows).
    { rewrite (rows_of_put_other "products" "categories" _ _ _ (next_id db2))
        by discriminate.
      now destruct db2. }
    rewrite Hp3, rows_of_put_same, Hc.
    split; [reflexivity|]. split; [|split; [|split; [|split; [|split]]]].
    - intros r. apply reassigned_default.
    - intros r Hr. change (hit r) with (in_category cid r).
      rewrite in_category_text. now apply same_value_same_text.
    - reflexivity.
    - apply Forall_forall. intros r Hr. apply filter_In in Hr.
      destruct Hr as [_ Hr]. now apply negb_true_iff in Hr.
    - intros r Hr. rewrite has_id_text. now apply same_value_same_text.
    - intros Hne. apply Forall_forall. intros r' Hr'.
      apply in_map_iff in Hr'. destruct Hr' as (r & <- & _).
      destruct (hit (reassigned cid r)) eqn:Hr; [|reflexivity].
      exfalso. apply Hne. now apply (reassigned_in_category cid r). }
  change (List.existsb (in_category cid) rows) with (List.existsb hit rows).
  destruct (List.existsb hit rows) eqn:Hex.
  - (* some product is in the category: it is moved first *)
    rewrite !Hlen. cbn [fst snd trace faults database].
    destruct (answer _ _) as [[d2|err2] db2] eqn:Ha2;
      cbn [fst snd or_throw io_ret io_throw]; [|simpl; discriminate].
    apply answer_Data, exec_Update_Data in Ha2. cbn [database] in Ha2.
    destruct (answer _ _) as [[d3|err3] db3] eqn:Ha3;
      cbn [fst snd or_throw io_ret io_throw]; [|simpl; discriminate].
    apply answer_Data in Ha3. cbn [database] in Ha3.
    rewrite Hcount. cbn [fst snd].
    intros _. cbn [trace List.map fst app].
    assert (Hp2 : rows_of "products" db2 = List.map (reassigned cid) rows).
    { subst db2. now rewrite rows_of_put_same. }
    assert (Hc2 : rows_of "categories" db2 = rows_of "categories" db).
    { subst db2.
      rewrite (rows_of_put_other "categories" "products" _ _ _ (next_id db))
        by discriminate.
      now destruct db. }
    destruct (Hfinal db2 d3 Hp2 Hc2 db3 Ha3) as (H1 & H2 & H3 & H4 & H5 & H6 & H7).
    repeat split; assumption.
  - (* no product is in the category *)
    cbn [fst snd trace faults database io_ret].
    destruct (answer _ _) as [[d3|err3] db3] eqn:Ha3;
      cbn [fst snd or_throw io_ret io_throw]; [|simpl; discriminate].
    apply answer_Data in Ha3. cbn [database] in Ha3.
    rewrite Hcount. cbn [fst snd].
    intros _. cbn [trace List.map fst app].
    assert (Hp2 : rows_of "products" db = List.map (reassigned cid) rows).
    { unfold reassigned, in_category. fold hit. symmetry. apply map_unmatched.
      apply filter_none. apply Forall_forall. intros r Hr.
      destruct (hit r) eqn:Hr'; [|reflexivity].
      assert (List.existsb hit rows = true)
        by (apply existsb_exists; eauto).
      congruence. }
    destruct (Hfinal db d3 Hp2 eq_refl db3 Ha3) as (H1 & H2 & H3 & H4 & H5 & H6 & H7).
    repeat split; assumption.
Qed.

End CategoryDelete.

(* ------------------------------------------------------------------ *)
(** ** The theorems at work on sample data *)

Lemma sabores_availability_first_witness :
  normalizeProducts (Arr [tapioca]) = Ok (Arr [tapioca_normalized])
  /\ exists out fl,
       List.nth_error [tapioca_normalized] 0 = Some out
       /\ prop out "sabores" = Arr fl
       /\ availability_first fl
       /\ List.filter (fun f => gt0 (prop f "quantity")) fl
          = List.map filled [flavor "Queijo" 5; flavor "Frango" 2]
       /\ List.filter (fun f => strict_eq (prop f "quantity") zero) fl
          = List.map filled [flavor "Coco" 0; flavor "Carne" 0]
       /\ fl = List.map filled [flavor "Queijo" 5; flavor "Frango" 2;
                                flavor "Coco" 0; flavor "Carne" 0].
Proof.
  split; [reflexivity|].
  apply (sabores_availability_first [tapioca] [tapioca_normalized] 0 tapioca
           [flavor "Coco" 0; flavor "Queijo" 5; flavor "Carne" 0; flavor "Frango" 2]);
    try reflexivity.
  repeat (apply Forall_cons;
          [split; [reflexivity|first [left; reflexivity|right; reflexivity]]|]).
  apply Forall_nil.
Defined.



Lemma colors_kept_in_input_order_witness :
  normalizeProducts (Arr [two_colors]) = Ok (Arr [two_colors_normalized])
  /\ exists out fl,
       List.nth_error [two_colors_normalized] 0 = Some out
       /\ prop out "colors" = Arr [flavor "Azul" 0; flavor "Verde" 5]
       /\ prop out "sabores" = Arr fl
       /\ Forall2 (fun c sabor => colorToSabor c = Ok sabor)
            [flavor "Azul" 0; flavor "Verde" 5] fl.
Proof.
  split; [reflexivity|].
  exact (proj1 (colors_kept_in_input_order [two_colors] [two_colors_normalized]
                  0 two_colors [flavor "Azul" 0; flavor "Verde" 5]
                  eq_refl eq_refl eq_refl)).
Defined.

(** C1 as stated fails on a product that has both a [colors] and a
    [sabores] array: the colors win, and the output puts the sold-out Azul
    immediately before the available Verde. *)
Lemma sabores_with_colors_unpartitioned :
  exists out a b,
    normalizeProducts (Arr [both_shapes]) = Ok (Arr [out])
    /\ isArray (prop both_shapes "sabores") = true
    /\ prop out "sabores" = Arr [a; b]
    /\ prop a "quantity" = zero
    /\ gt0 (prop b "quantity") = true
    /\ ~ availability_first [a; b].
Proof.
  exists two_colors_normalized, (filled_flavor "Azul" 0), (filled_flavor "Verde" 5).
  repeat split.
  intros H. apply (H 0%nat (filled_flavor "Azul" 0) (filled_flavor "Verde" 5));
    try reflexivity.
  split; reflexivity.
Qed.

Lemma normalisation_idempotent_witness :
  Forall data_model_product [tapioca; two_colors]
  /\ Forall (fun c => c <> Str "") [Str "cerveja"; Obj [("id", Str "petisco")]]
  /\ bind (normalizeProducts (Arr [tapioca; two_colors])) normalizeProducts
     = normalizeProducts (Arr [tapioca; two_colors])
  /\ bind (normalizeOrders (Arr [stored_order])) normalizeOrders
     = normalizeOrders (Arr [stored_order])
  /\ bind (normalizeCategories (Arr [Str "cerveja"; Obj [("id", Str "petisco")]]))
          normalizeCategories
     = normalizeCategories (Arr [Str "cerveja"; Obj [("id", Str "petisco")]]).
Proof.
  assert (Hdm : Forall data_model_product [tapioca; two_colors]).
  { apply Forall_cons; [|apply Forall_cons; [|apply Forall_nil]].
    - intros _ ss Hss. injection Hss as <-.
      repeat (apply Forall_cons;
              [split; [reflexivity|first [left; reflexivity|right; reflexivity]]|]).
      apply Forall_nil.
    - intros Hc. discriminate Hc. }
  assert (H : Forall (fun c => c <> Str "")
                [Str "cerveja"; Obj [("id", Str "petisco")]])
    by (repeat constructor; discriminate).
  split; [exact Hdm|]. split; [exact H|].
  exact (normalisation_idempotent (Arr [tapioca; two_colors]) (Arr [stored_order])
           (Arr [Str "cerveja"; Obj [("id", Str "petisco")]]) Hdm H).
Defined.

(** C3.  [normalizeCategories] is not idempotent on the empty string: the
    string branch makes it a record with an empty id, which the object
    branch of the second pass drops, as it drops every element without a
    truthy id. *)
Lemma normalizeCategories_not_idempotent :
  normalizeCategories (Arr [Str ""])
  = Ok (Arr [Obj [("id", Str ""); ("name", Str "");
                  ("description", Str "Categoria de ")]])
  /\ bind (normalizeCategories (Arr [Str ""])) normalizeCategories = Ok (Arr [])
  /\ bind (normalizeCategories (Arr [Str ""])) normalizeCategories
     <> normalizeCategories (Arr [Str ""])
  /\ normalizeCategories (Arr [Obj [("id", Str ""); ("name", Str "")]])
     = Ok (Arr []).
Proof. repeat split. discriminate. Qed.

Lemma normalizeOrders_external_shape_witness :
  Forall (fun o => order_converts o = true) [stored_order]
  /\ normalizeOrders (Arr [stored_order])
     = Ok (Arr [Obj [("id", Num (Int 7)); ("date", Undefined);
                     ("time", Undefined); ("customerName", Str "Ana");
                     ("customerPhone", Undefined); ("items", Arr []);
                     ("total", Num (Int 0)); ("paymentMethod", Undefined);
                     ("status", Str "pending"); ("createdAt", Undefined)]]).
Proof.
  assert (H : Forall (fun o => order_converts o = true) [stored_order])
    by (repeat constructor).
  split; [exact H|].
  exact (proj1 (normalizeOrders_external_shape [stored_order] H)).
Defined.

(** C9 as stated fails on an order that has both names, the storage-shape
    one being the empty string: the camelCase name is taken. *)
Lemma empty_storage_name_is_skipped :
  exists out,
    normalizeOrders (Arr [order_with_empty_storage_name]) = Ok (Arr [out])
    /\ prop order_with_empty_storage_name "customer_name" = Str ""
    /\ prop order_with_empty_storage_name "customerName" = Str "Bob"
    /\ prop out "customerName" = Str "Bob"
    /\ prop out "customerName"
       <> prop order_with_empty_storage_name "customer_name".
Proof. eexists. repeat split. discriminate. Qed.

(** Against an empty credentials table the lookup finds no row, and
    against a store without the table it fails with the missing-table
    error: either way the default pair logs in and a wrong password is
    turned away. *)
Lemma login_fallback_witness :
  failed (credential_lookup "admin") not_single
    (run (post_auth_login (login_request "admin" "admin123")) empty_store [])
  /\ code not_single = "PGRST116"
  /\ fst (run (post_auth_login (login_request "admin" "admin123")) empty_store [])
     = res_json (token_body (Str "admin"))
  /\ fst (run (post_auth_login (login_request "admin" "admin124")) empty_store [])
     = res_error 401 "Credenciais inválidas"
  /\ table_rows "admin_credentials" (tables store_without_tables) = None
  /\ failed (credential_lookup "admin") (missing_table "admin_credentials")
       (run (post_auth_login (login_request "admin" "admin123"))
          store_without_tables [])
  /\ fst (run (post_auth_login (login_request "admin" "admin123"))
            store_without_tables [])
     = res_json (token_body (Str "admin"))
  /\ fst (run (post_auth_login (login_request "root" "admin123"))
            store_without_tables [])
     = res_error 401 "Credenciais inválidas".
Proof.
  split; [left; reflexivity|]. split; [reflexivity|].
  split; [|split; [|split; [reflexivity|split; [left; reflexivity|split]]]].
  - apply (proj1 (login_fallback (login_request "admin" "admin123") empty_store []
                    (credential_lookup "admin") not_single));
      [left; reflexivity|right; reflexivity].
  - apply (proj1 (login_fallback (login_request "admin" "admin124") empty_store []
                    (credential_lookup "admin") not_single));
      [left; reflexivity|right; reflexivity].
  - apply (proj2 (login_fallback (login_request "admin" "admin123")
                    store_without_tables [] (credential_lookup "admin")
                    not_single));
      [reflexivity|reflexivity|reflexivity|exact I].
  - apply (proj2 (login_fallback (login_request "root" "admin123")
                    store_without_tables [] (credential_lookup "root")
                    not_single));
      [reflexivity|reflexivity|reflexivity|exact I].
Defined.



(** Deleting category [X], which two products reference: both end in
    [default], no product refers to [X] any more, and no category row [X]
    remains. *)
Lemma category_delete_cascade_witness :
  status (fst (run (post_categories_delete (delete_category_request "X"))
                 store_with_category_X [])) = 200
  /\ rows_of "products"
       (database (snd (run (post_categories_delete (delete_category_request "X"))
                         store_with_category_X [])))
     = [Obj [("id", Num (Int 1)); ("title", Str "A"); ("category", Str "default")];
        Obj [("id", Num (Int 2)); ("title", Str "B"); ("category", Str "Y")];
        Obj [("id", Num (Int 3)); ("title", Str "C"); ("category", Str "default")]]
  /\ rows_of "categories"
       (database (snd (run (post_categories_delete (delete_category_request "X"))
                         store_with_category_X [])))
     = [category_record "Y" "Y" "Categoria de Y"]
  /\ Forall (fun r => in_category (Str "X") r = false)
       (rows_of "products"
          (database (snd (run (post_categories_delete (delete_category_request "X"))
                            store_with_category_X [])))).
Proof.
  split; [reflexivity|].
  destruct (category_delete_cascade (delete_category_request "X")
              store_with_category_X [] eq_refl)
    as (Hp & _ & _ & Hc & _ & _ & Hno & _).
  split; [exact Hp|]. split; [exact Hc|].
  apply Hno. discriminate.
Defined.

(** C6 as stated fails when the deleted category is ["default"] itself: its
    product still references it after the category row is gone. *)
Lemma deleting_default_leaves_reference :
  let out := run (post_categories_delete (delete_category_request "default"))
               store_with_default [] in
  status (fst out) = 200
  /\ rows_of "categories" (database (snd out)) = []
  /\ exists r, List.In r (rows_of "products" (database (snd out)))
               /\ prop r "category" = Str "default".
Proof.
  cbv zeta. split; [reflexivity|]. split; [reflexivity|].
  eexists. split; [left; reflexivity|reflexivity].
Qed.



(** A failed insert is answered 500 with the prefixed message; a failed
    read is answered 200 with an empty sequence; a bulk category save whose
    delete fails with [No rows found] saves the categories all the same. *)
Lemma store_errors_by_handler_witness :
  failed (Insert "orders" [orderToSave (prop (body order_request) "orderData")] true)
    connection_error (run (post_orders order_request) empty_store [Some connection_error])
  /\ fst (run (post_orders order_request) empty_store [Some connection_error])
     = res_error 500 "Erro ao salvar pedido: fetch failed"
  /\ failed (Select "products" [] [] ["display_order"; "id"] false)
       connection_error
       (run (get_products (mkRequest None Null)) empty_store [Some connection_error])
  /\ fst (run (get_products (mkRequest None Null)) empty_store
            [Some connection_error])
     = res_json (Obj [("products", Arr [])])
  /\ failed (Delete "categories" [FNotIn "id" "('cerveja')"]) no_rows_error
       (run (post_categories (save_categories_request [Str "cerveja"]))
          empty_store [Some no_rows_error])
  /\ stale_delete (Delete "categories" [FNotIn "id" "('cerveja')"]) no_rows_error
     = true
  /\ (exists rows reply,
        trace (snd (run (post_categories (save_categories_request [Str "cerveja"]))
                      empty_store [Some no_rows_error]))
        = [(Delete "categories" [FNotIn "id" "('cerveja')"], Failure no_rows_error);
           (Upsert "categories" rows "id", reply)]
        /\ fst (run (post_categories (save_categories_request [Str "cerveja"]))
                  empty_store [Some no_rows_error])
           = match reply with
             | Data _ =>
                 res_json (success_body
                   (ToString (Num (Int (Z.of_nat (List.length rows))))
                    ++ " categorias salvas"))
             | Failure upsertError =>
                 res_error 500
                   ("Erro ao salvar categorias: " ++ message upsertError)
             end)
  /\ fst (run (post_categories (save_categories_request [Str "cerveja"]))
            empty_store [Some no_rows_error])
     = res_json (success_body "1 categorias salvas").
Proof.
  split; [left; reflexivity|].
  split; [|split; [left; reflexivity|
           split; [|split; [left; reflexivity|
                    split; [reflexivity|split; [|reflexivity]]]]]].
  - apply (proj1 (store_errors_by_handler "" order_request empty_store
                    [Some connection_error]
                    (Insert "orders"
                       [orderToSave (prop (body order_request) "orderData")] true)
                    connection_error)).
    left; reflexivity.
  - destruct (store_errors_by_handler "" (mkRequest None Null) empty_store
                [Some connection_error]
                (Select "products" [] [] ["display_order"; "id"] false)
                connection_error) as (_ & _ & _ & _ & _ & _ & _ & H & _).
    apply H; [left; reflexivity|reflexivity].
  - destruct (store_errors_by_handler ""
                (save_categories_request [Str "cerveja"]) empty_store
                [Some no_rows_error]
                (Delete "categories" [FNotIn "id" "('cerveja')"])
                no_rows_error) as (_ & _ & _ & _ & _ & _ & H & _).
    apply H; [left; reflexivity|reflexivity].
Defined.

(** C8 as stated fails on the read handlers: a store error outside the
    missing-table class becomes a successful empty response. *)
Lemma get_products_hides_store_error :
  let out := run (get_products (mkRequest None Null)) empty_store
               [Some connection_error] in
  failed (Select "products" [] [] ["display_order"; "id"] false)
    connection_error out
  /\ missing_table_class connection_error = false
  /\ status (fst out) = 200
  /\ json (fst out) = Obj [("products", Arr [])]
  /\ fst out <> res_error 500 ("Erro ao buscar produtos: " ++ message connection_error).
Proof.
  cbv zeta. split; [left; reflexivity|]. repeat split. discriminate.
Qed.

(* ================================================================== *)
(** * Further properties of the code *)

(** ** The password transform is reversible *)

Lemma in_all_bytes (a : N) : (a < 256)%N -> List.In a all_bytes.
Proof.
  intros H. unfold all_bytes. apply in_map_iff.
  exists (N.to_nat a). split; [apply N2Nat.id|].
  apply in_seq. lia.
Qed.

Lemma on_all_bytes (P : N -> bool) :
  List.forallb P all_bytes = true -> forall a, (a < 256)%N -> P a = true.
Proof.
  intros H a Ha. rewrite forallb_forall in H. now apply H, in_all_bytes.
Qed.

Lemma on_all_byte_pairs (P : N -> N -> bool) :
  List.forallb (fun a => List.forallb (P a) all_bytes) all_bytes = true ->
  forall a b, (a < 256)%N -> (b < 256)%N -> P a b = true.
Proof.
  intros H a b Ha Hb.
  apply (on_all_bytes (P a)); [|assumption].
  now apply (on_all_bytes (fun a => List.forallb (P a) all_bytes)).
Qed.

(** Every digit is read back as its value, and no digit is the padding. *)
Lemma unbase64_digit (n : N) :
  (n < 64)%N ->
  Ascii.eqb (Base64.digit n) "=" = false
  /\ unbase64 (Base64.digit n) = Some n.
Proof.
  intros H.
  pose (P := fun n : N =>
               ((64 <=? n)%N
                || (negb (Ascii.eqb (Base64.digit n) "=")
                    && match unbase64 (Base64.digit n) with
                       | Some m => (m =? n)%N
                       | None => false
                       end))%bool).
  assert (Hall : P n = true)
    by (apply (on_all_bytes P); [vm_compute; reflexivity|lia]).
  unfold P in Hall.
  apply orb_true_iff in Hall.
  destruct Hall as [Hbig|Hok]; [apply N.leb_le in Hbig; lia|].
  apply andb_true_iff in Hok. destruct Hok as [Hpad Hval].
  split; [now apply negb_true_iff|].
  destruct (unbase64 (Base64.digit n)) as [m|]; [|discriminate].
  apply N.eqb_eq in Hval. now subst.
Qed.

(** The four digits of three bytes, and what the decoder makes of them. *)
Lemma digits_in_range (a b c : N) :
  (a < 256)%N -> (b < 256)%N -> (c < 256)%N ->
  (N.shiftr a 2 < 64)%N
  /\ (N.lor (N.shiftl (N.land a 3) 4) (N.shiftr b 4) < 64)%N
  /\ (N.lor (N.shiftl (N.land b 15) 2) (N.shiftr c 6) < 64)%N
  /\ (N.land c 63 < 64)%N.
Proof.
  intros Ha Hb Hc.
  assert (H1 : (N.shiftr a 2 <? 64)%N = true)
    by (apply (on_all_bytes (fun a => (N.shiftr a 2 <? 64)%N));
        [vm_compute; reflexivity|assumption]).
  assert (H2 : (N.lor (N.shiftl (N.land a 3) 4) (N.shiftr b 4) <? 64)%N = true)
    by (apply (on_all_byte_pairs
                 (fun a b => (N.lor (N.shiftl (N.land a 3) 4) (N.shiftr b 4) <? 64)%N));
        [vm_compute; reflexivity|assumption|assumption]).
  assert (H3 : (N.lor (N.shiftl (N.land b 15) 2) (N.shiftr c 6) <? 64)%N = true)
    by (apply (on_all_byte_pairs
                 (fun b c => (N.lor (N.shiftl (N.land b 15) 2) (N.shiftr c 6) <? 64)%N));
        [vm_compute; reflexivity|assumption|assumption]).
  assert (H4 : (N.land c 63 <? 64)%N = true)
    by (apply (on_all_bytes (fun c => (N.land c 63 <? 64)%N));
        [vm_compute; reflexivity|assumption]).
  repeat split; now apply N.ltb_lt.
Qed.

Lemma first_byte_back (a b : N) :
  (a < 256)%N -> (b < 256)%N ->
  N.lor (N.shiftl (N.land (N.shiftr a 2) 63) 2)
        (N.shiftr (N.land (N.lor (N.shiftl (N.land a 3) 4) (N.shiftr b 4)) 48) 4)
  = a.
Proof.
  intros Ha Hb. apply N.eqb_eq.
  apply (on_all_byte_pairs
           (fun a b =>
              (N.lor (N.shiftl (N.land (N.shiftr a 2) 63) 2)
                 (N.shiftr (N.land (N.lor (N.shiftl (N.land a 3) 4) (N.shiftr b 4)) 48) 4)
               =? a)%N));
    [vm_compute; reflexivity|assumption|assumption].
Qed.

Lemma second_digit_low (a b : N) :
  (a < 256)%N -> (b < 256)%N ->
  N.land (N.lor (N.shiftl (N.land a 3) 4) (N.shiftr b 4)) 15 = N.shiftr b 4.
Proof.
  intros Ha Hb. apply N.eqb_eq.
  apply (on_all_byte_pairs
           (fun a b =>
              (N.land (N.lor (N.shiftl (N.land a 3) 4) (N.shiftr b 4)) 15
               =? N.shiftr b 4)%N));
    [vm_compute; reflexivity|assumption|assumption].
Qed.

Lemma third_digit_high (b c : N) :
  (b < 256)%N -> (c < 256)%N ->
  N.shiftr (N.land (N.lor (N.shiftl (N.land b 15) 2) (N.shiftr c 6)) 60) 2
  = N.land b 15.
Proof.
  intros Hb Hc. apply N.eqb_eq.
  apply (on_all_byte_pairs
           (fun b c =>
              (N.shiftr (N.land (N.lor (N.shiftl (N.land b 15) 2) (N.shiftr c 6)) 60) 2
               =? N.land b 15)%N));
    [vm_compute; reflexivity|assumption|assumption].
Qed.

Lemma third_digit_low (b c : N) :
  (b < 256)%N -> (c < 256)%N ->
  N.land (N.lor (N.shiftl (N.land b 15) 2) (N.shiftr c 6)) 3 = N.shiftr c 6.
Proof.
  intros Hb Hc. apply N.eqb_eq.
  apply (on_all_byte_pairs
           (fun b c =>
              (N.land (N.lor (N.shiftl (N.land b 15) 2) (N.shiftr c 6)) 3
               =? N.shiftr c 6)%N));
    [vm_compute; reflexivity|assumption|assumption].
Qed.

Lemma nibbles_back (b : N) :
  (b < 256)%N -> N.lor (N.shiftl (N.shiftr b 4) 4) (N.land b 15) = b.
Proof.
  intros Hb. apply N.eqb_eq.
  apply (on_all_bytes
           (fun b => (N.lor (N.shiftl (N.shiftr b 4) 4) (N.land b 15) =? b)%N));
    [vm_compute; reflexivity|assumption].
Qed.

Lemma last_byte_back (c : N) :
  (c < 256)%N ->
  N.lor (N.shiftl (N.shiftr c 6) 6) (N.land (N.land c 63) 63) = c.
Proof.
  intros Hc. apply N.eqb_eq.
  apply (on_all_bytes
           (fun c => (N.lor (N.shiftl (N.shiftr c 6) 6) (N.land (N.land c 63) 63)
                      =? c)%N));
    [vm_compute; reflexivity|assumption].
Qed.

Lemma sextets_digit (n : N) (cs : list ascii) :
  (n < 64)%N -> sextets (Base64.digit n :: cs) = n :: sextets cs.
Proof.
  intros H. destruct (unbase64_digit n H) as [Hpad Hval].
  simpl. now rewrite Hpad, Hval.
Qed.

Lemma sextets_pad (cs : list ascii) : sextets (Base64.pad :: cs) = [].
Proof. reflexivity. Qed.

Lemma decode_encode_bytes (n : nat) :
  forall bs,
    (List.length bs <= n)%nat ->
    Forall (fun b => (b < 256)%N) bs ->
    decode_sextets (sextets (Base64.encode_bytes bs)) = bs.
Proof.
  induction n as [|n IH]; intros bs Hlen Hall.
  - destruct bs; [reflexivity|simpl in Hlen; lia].
  - destruct bs as [|a [|b [|c rest]]]; [reflexivity| | |].
    + (* one byte, two digits *)
      inversion Hall as [|? ? Ha _]; subst.
      destruct (digits_in_range a 0 0 Ha) as (H1 & H2 & _); try reflexivity.
      pose proof (first_byte_back a 0 Ha eq_refl) as Hback.
      change (N.shiftr 0 4) with 0%N in *. rewrite N.lor_0_r in *.
      cbn [Base64.encode_bytes].
      rewrite !sextets_digit, sextets_pad by assumption.
      cbn [decode_sextets]. now rewrite Hback.
    + (* two bytes, three digits *)
      inversion Hall as [|? ? Ha Hall']; subst.
      inversion Hall' as [|? ? Hb _]; subst.
      destruct (digits_in_range a b 0 Ha Hb) as (H1 & H2 & H3 & _);
        try reflexivity.
      pose proof (third_digit_high b 0 Hb eq_refl) as Hhigh.
      change (N.shiftr 0 6) with 0%N in *. rewrite N.lor_0_r in *.
      cbn [Base64.encode_bytes].
      rewrite !sextets_digit, sextets_pad by assumption.
      cbn [decode_sextets].
      now rewrite (first_byte_back a b Ha Hb), (second_digit_low a b Ha Hb),
        Hhigh, (nibbles_back b Hb).
    + (* three bytes, four digits *)
      inversion Hall as [|? ? Ha Hall']; subst.
      inversion Hall' as [|? ? Hb Hall'']; subst.
      inversion Hall'' as [|? ? Hc Hrest]; subst.
      destruct (digits_in_range a b c Ha Hb Hc) as (H1 & H2 & H3 & H4).
      cbn [Base64.encode_bytes].
      rewrite !sextets_digit by assumption.
      cbn [decode_sextets].
      rewrite (first_byte_back a b Ha Hb), (second_digit_low a b Ha Hb),
        (third_digit_high b c Hb Hc), (nibbles_back b Hb),
        (third_digit_low b c Hb Hc), (last_byte_back c Hc).
      rewrite IH; [reflexivity| |assumption].
      simpl in Hlen. lia.
Qed.

Lemma byte_of_ascii_small (c : ascii) : (N_of_ascii c < 256)%N.
Proof.
  destruct c as [[] [] [] [] [] [] [] []]; vm_compute; reflexivity.
Qed.

(** Decoding what [Buffer.from(text).toString('base64')] printed gives the
    bytes of the text back. *)
Lemma base64_decode_encode (s : string) : base64_decode (Base64.encode s) = s.
Proof.
  unfold base64_decode, Base64.encode.
  rewrite list_ascii_of_string_of_list_ascii.
  rewrite (decode_encode_bytes _ _ (Nat.le_refl _)).
  - rewrite map_map.
    rewrite (map_ext _ (fun c => c)) by (intros; apply ascii_N_embedding).
    rewrite map_id. apply string_of_list_ascii_of_string.
  - apply Forall_forall. intros b Hb. apply in_map_iff in Hb.
    destruct Hb as (c & <- & _). apply byte_of_ascii_small.
Qed.

Lemma reverse_reverse (s : string) : Text.reverse (Text.reverse s) = s.
Proof.
  unfold Text.reverse.
  now rewrite list_ascii_of_string_of_list_ascii, rev_involutive,
    string_of_list_ascii_of_string.
Qed.

(** The transform loses nothing: different texts have different
    transforms. *)
Lemma transform_injective (p q : string) : transform p = transform q -> p = q.
Proof.
  unfold transform. intros H.
  apply (f_equal Text.reverse) in H. rewrite !reverse_reverse in H.
  apply (f_equal base64_decode) in H. now rewrite !base64_decode_encode in H.
Qed.

Section Decrypt.
Context {E : Engine} {D : Utf8Decoder}.

(** X1.  [simpleDecrypt] undoes [simpleEncrypt]: decrypting the encryption
    of a text (well-formed UTF-8 in the model) gives the text back. *)
Theorem simpleDecrypt_simpleEncrypt (text : string) :
  well_formed_utf8 text = true ->
  bind (simpleEncrypt (Str text)) (fun encrypted => simpleDecrypt (Str encrypted))
  = Ok text.
Proof.
  intros Hwf. simpl.
  now rewrite reverse_reverse, base64_decode_encode, toString_utf8_text.
Qed.

(** X2.  [simpleEncrypt] never sends two different texts to the same
    string.  The texts are the strings that are well-formed UTF-8 in the
    model: a JavaScript string with a lone surrogate is none, [Buffer.from]
    replaces the surrogate, and two such strings can meet. *)
Theorem simpleEncrypt_injective (p q : string) (encrypted : string) :
  well_formed_utf8 p = true ->
  well_formed_utf8 q = true ->
  simpleEncrypt (Str p) = Ok encrypted ->
  simpleEncrypt (Str q) = Ok encrypted ->
  p = q.
Proof.
  simpl. intros _ _ Hp Hq. inversion Hp as [Hp']. inversion Hq as [Hq'].
  apply transform_injective. unfold transform. congruence.
Qed.

End Decrypt.

(* ------------------------------------------------------------------ *)
(** ** When the normalisation functions throw, and what they keep *)

Lemma mapM_Ok_iff {A B : Type} (f : A -> result B) (xs : list A) :
  (exists ys, mapM f xs = Ok ys) <-> Forall (fun x => exists y, f x = Ok y) xs.
Proof.
  split.
  - intros [ys H]. apply mapM_Forall2 in H.
    induction H; constructor; eauto.
  - induction 1 as [|x xs [y Hy] _ [ys IH]]; simpl.
    + eauto.
    + rewrite Hy, IH. simpl. eauto.
Qed.

Lemma filter_length_le {A : Type} (f : A -> bool) (l : list A) :
  (List.length (List.filter f l) <= List.length l)%nat.
Proof.
  induction l as [|x l IH]; simpl; [lia|]. destruct (f x); simpl; lia.
Qed.

Section CategoriesKeep.
Context {E : Engine}.

Lemma normalizeCategory_Ok_iff (c : value) :
  (exists q, normalizeCategory c = Ok q)
  <-> id_without_charAt c = false /\ name_without_text c = false.
Proof.
  destruct c as [| | | |s| |fs]; try solve [simpl; split; eauto].
  rewrite normalizeCategory_Obj. unfold id_without_charAt, name_without_text.
  destruct (truthy (lookup "id" fs)); [|split; eauto].
  destruct (truthy (lookup "name" fs)) eqn:Hname; cbn [bind negb andb].
  - destruct (truthy (lookup "description" fs)); cbn [bind negb andb];
      [split; eauto|].
    unfold js_or. rewrite Hname. unfold template.
    destruct (printable (lookup "name" fs)); cbn [bind negb]; split; eauto;
      intros H; try discriminate; destruct H; discriminate.
  - rewrite ?andb_false_r.
    destruct (lookup "id" fs) as [| | | |s| |] eqn:Hid; cbn [capitalizeId bind];
      try solve [split; [intros [q H]; discriminate|intros [H _]; discriminate]].
    split; [auto|]. intros _.
    destruct (truthy (lookup "description" fs)); cbn [bind]; [eauto|].
    unfold js_or. rewrite Hname. cbn [template printable ToString bind]. eauto.
Qed.

(** X3.  [normalizeCategories] returns for an array exactly when no element
    is an object with a truthy id that either has no truthy name and an id
    that is not a string (there is no [charAt] to build the name with), or
    has no truthy description and a truthy name that has no text (the
    description cannot be built); on such an element it throws a
    TypeError. *)
Theorem normalizeCategories_returns_iff (cats : list value) :
  (exists out, normalizeCategories (Arr cats) = Ok out)
  <-> Forall (fun c => id_without_charAt c = false
                       /\ name_without_text c = false) cats.
Proof.
  simpl. split.
  - intros [out H].
    destruct (mapM normalizeCategory cats) as [mapped|e] eqn:Hm; [|discriminate].
    assert (Hall : Forall (fun c => exists q, normalizeCategory c = Ok q) cats)
      by (apply mapM_Ok_iff; eauto).
    eapply Forall_impl; [|exact Hall]. intros c. apply normalizeCategory_Ok_iff.
  - intros H.
    assert (Hall : Forall (fun c => exists q, normalizeCategory c = Ok q) cats)
      by (eapply Forall_impl; [|exact H]; intros c; apply normalizeCategory_Ok_iff).
    apply mapM_Ok_iff in Hall. destruct Hall as [mapped ->]. simpl. eauto.
Qed.

(** X4.  Whatever [normalizeCategories] is given, its result is an array of
    records with exactly the fields id, name and description, never longer
    than the input; every description is non-empty, and every record with a
    truthy id has a truthy name. *)
Theorem normalizeCategories_records (categories v : value) :
  normalizeCategories categories = Ok v ->
  exists out,
    v = Arr out
    /\ (List.length out <= List.length (items categories))%nat
    /\ Forall (fun r =>
                 exists id name description,
                   r = Obj [("id", id); ("name", name);
                            ("description", description)]
                   /\ truthy description = true
                   /\ (truthy id = true -> truthy name = true)) out.
Proof.
  destruct categories as [| | | | |cats|];
    try solve [simpl; intros H; inversion H; exists []; repeat split; auto].
  simpl. destruct (mapM normalizeCategory cats) as [mapped|e] eqn:Hm;
    simpl; [|discriminate].
  intros H; inversion H; subst v. eexists. split; [reflexivity|].
  apply mapM_Forall2 in Hm. split.
  - rewrite <- (Forall2_length_eq _ _ _ Hm). apply filter_length_le.
  - apply Forall_forall. intros r Hr. apply filter_In in Hr.
    destruct Hr as [Hin Hnn].
    assert (Hsrc : exists c, normalizeCategory c = Ok r).
    { clear Hnn. induction Hm as [|c q cats mapped Hcq _ IH]; [contradiction|].
      destruct Hin as [<-|Hin]; eauto. }
    destruct Hsrc as [c Hc].
    destruct (normalizeCategory_record c r Hc)
      as [->|(id & name & description & Hr & Hd & Hn & _)]; [discriminate|].
    exists id, name, description. auto.
Qed.

End CategoriesKeep.

Section ProductsKeep.
Context {E : Engine}.

Lemma normalizeProduct_cases (p out : value) :
  normalizeProduct p = Ok out ->
  out = p \/ exists fl, out = spread_with p "sabores" (Arr fl).
Proof.
  intros H. pose proof (normalizeProduct_not_nullish p out H) as Hp.
  rewrite (normalizeProduct_unfold p Hp) in H.
  destruct (prop p "colors");
    try (destruct (prop p "sabores");
         try (inversion H; now left);
         destruct (Array_sort compareSabores _); simpl in H; [|discriminate];
         destruct (mapM fillSabor _); simpl in H; [|discriminate];
         inversion H; eauto).
  destruct (mapM colorToSabor _); simpl in H; [|discriminate].
  inversion H; eauto.
Qed.

(** X5.  [normalizeProducts] returns as many products as it was given, in
    the same order, and changes nothing but the [sabores] field: every other
    field of every product is the one of the input, and a product that has
    neither a [colors] nor a [sabores] array comes back as it is. *)
Theorem normalizeProducts_touches_sabores_only (ps outs : list value) :
  normalizeProducts (Arr ps) = Ok (Arr outs) ->
  List.length outs = List.length ps
  /\ forall i p,
       List.nth_error ps i = Some p ->
       exists out,
         List.nth_error outs i = Some out
         /\ (forall k, k <> "sabores" -> prop out k = prop p k)
         /\ (isArray (prop p "colors") = false ->
             isArray (prop p "sabores") = false -> out = p).
Proof.
  intros Hn. split.
  - simpl in Hn.
    destruct (mapM normalizeProduct ps) as [qs|e] eqn:Hm; simpl in Hn;
      [|discriminate].
    inversion Hn; subst qs. apply mapM_Forall2 in Hm.
    eapply Forall2_length_eq; eauto.
  - intros i p Hp.
    destruct (normalizeProducts_nth ps outs i p Hn Hp) as (out & Hout & Hnp).
    exists out. split; [assumption|]. split.
    + intros k Hk. destruct (normalizeProduct_cases p out Hnp) as [->|[fl ->]];
        [reflexivity|now apply prop_spread_other].
    + intros Hc Hs.
      pose proof (normalizeProduct_not_nullish p out Hnp) as Hnull.
      rewrite (normalizeProduct_unfold p Hnull) in Hnp.
      destruct (prop p "colors"); try discriminate;
        destruct (prop p "sabores"); try discriminate; now inversion Hnp.
Qed.

Lemma sort_insert_permutation (x : value) (l : list value) :
  forall s', sort_insert compareSabores x l = Ok s' -> Permutation (x :: l) s'.
Proof.
  induction l as [|y ys IH]; simpl; intros s' H.
  - inversion H. apply Permutation_refl.
  - destruct (compareSabores x y) as [c|e]; simpl in H; [|discriminate].
    destruct (c <=? 0).
    + inversion H. apply Permutation_refl.
    + destruct (sort_insert compareSabores x ys) as [r|e]; simpl in H;
        [|discriminate].
      inversion H; subst s'.
      apply perm_trans with (y :: x :: ys); [apply perm_swap|].
      apply perm_skip. now apply IH.
Qed.

Lemma stable_sort_permutation (ss : list value) :
  forall sorted, stable_sort compareSabores ss = Ok sorted -> Permutation ss sorted.
Proof.
  induction ss as [|x xs IH]; simpl; intros sorted H.
  - inversion H. apply perm_nil.
  - destruct (stable_sort compareSabores xs) as [s1|e] eqn:Hs1; simpl in H;
      [|discriminate].
    apply perm_trans with (x :: s1); [apply perm_skip; now apply IH|].
    now apply sort_insert_permutation.
Qed.

(** Whether the comparator is consistent or not, [sort] permutes. *)
Lemma Array_sort_permutation (ss : list value) :
  forall sorted, Array_sort compareSabores ss = Ok sorted -> Permutation ss sorted.
Proof.
  unfold Array_sort. intros sorted.
  destruct (consistent compareSabores ss).
  - apply stable_sort_permutation.
  - apply sort_inconsistent_permutation.
Qed.

(** X6.  Whatever the quantities are, sorting never loses or repeats a
    flavor: the flavors of an output product are, up to their order, the
    flavors of the input, each with its defaults filled. *)
Theorem normalizeProducts_keeps_every_flavor (ps outs : list value) (i : nat)
  (p : value) (ss : list value) :
  normalizeProducts (Arr ps) = Ok (Arr outs) ->
  List.nth_error ps i = Some p ->
  isArray (prop p "colors") = false ->
  prop p "sabores" = Arr ss ->
  exists out fl,
    List.nth_error outs i = Some out
    /\ prop out "sabores" = Arr fl
    /\ Permutation (List.map filled ss) fl
    /\ List.length fl = List.length ss.
Proof.
  intros Hn Hp Hc Hs.
  destruct (normalizeProducts_nth ps outs i p Hn Hp) as (out & Hout & Hnp).
  pose proof (normalizeProduct_not_nullish p out Hnp) as Hnull.
  rewrite (normalizeProduct_unfold p Hnull), Hs in Hnp.
  assert (Hrun : (sortedSabores <- Array_sort compareSabores ss ;;
                  fl <- mapM fillSabor sortedSabores ;;
                  Ok (spread_with p "sabores" (Arr fl)))%js = Ok out)
    by (destruct (prop p "colors"); try discriminate; exact Hnp).
  clear Hnp.
  destruct (Array_sort compareSabores ss) as [sorted|e] eqn:Hsort;
    simpl in Hrun; [|discriminate].
  destruct (mapM fillSabor sorted) as [fl|e] eqn:Hfill; simpl in Hrun;
    [|discriminate].
  inversion Hrun; subst out.
  destruct (mapM_fillSabor_inv sorted fl Hfill) as [_ ->].
  pose proof (Array_sort_permutation ss sorted Hsort) as Hperm.
  exists (spread_with p "sabores" (Arr (List.map filled sorted))),
    (List.map filled sorted).
  repeat split; auto using prop_spread_same.
  - now apply Permutation_map.
  - rewrite length_map. symmetry. now apply Permutation_length.
Qed.

(** X7.  [normalizeOrders] returns for an array exactly when none of its
    elements is [null] or [undefined] or has a total that has no text (an
    object with a [toString] field, on which [parseFloat] throws), and then
    returns one order per element; on any other array it throws. *)
Theorem normalizeOrders_returns_iff (os : list value) :
  (exists out, normalizeOrders (Arr os) = Ok (Arr out)
               /\ List.length out = List.length os)
  <-> Forall (fun o => is_nullish o = false
                       /\ printable (prop o "total") = true) os.
Proof.
  split.
  - intros (out & H & _). simpl in H.
    destruct (mapM normalizeOrder os) as [mapped|e] eqn:Hm; [|discriminate].
    apply mapM_Forall2 in Hm. clear H.
    induction Hm as [|o q os mapped Hoq _ IH]; constructor; auto.
    apply normalizeOrder_Ok_inv in Hoq. destruct Hoq as [Hc _].
    unfold order_converts in Hc. apply andb_true_iff in Hc.
    destruct Hc as [Hn Hp]. split; [now apply negb_true_iff|exact Hp].
  - intros H. exists (List.map external_order os). split.
    + simpl. rewrite (mapM_Ok_map normalizeOrder external_order); [reflexivity|].
      eapply Forall_impl; [|exact H]. intros o [Hn Hp].
      apply normalizeOrder_external. unfold order_converts.
      now rewrite Hn, Hp.
    + apply length_map.
Qed.

End ProductsKeep.

(* ------------------------------------------------------------------ *)
(** ** The properties above on sample data *)

Lemma simpleDecrypt_simpleEncrypt_witness :
  well_formed_utf8 "senha é 123" = true
  /\ bind (simpleEncrypt (Str "senha é 123"))
          (fun encrypted => simpleDecrypt (Str encrypted))
     = Ok "senha é 123".
Proof.
  split; [reflexivity|].
  apply (simpleDecrypt_simpleEncrypt "senha é 123"). reflexivity.
Defined.

Lemma simpleEncrypt_injective_witness :
  well_formed_utf8 "admin123" = true
  /\ simpleEncrypt (Str "admin123") = Ok "=MjMx4WatRWY"
  /\ "admin123" = "admin123".
Proof.
  split; [reflexivity|]. split; [reflexivity|].
  apply (simpleEncrypt_injective "admin123" "admin123" "=MjMx4WatRWY");
    reflexivity.
Defined.

Lemma normalizeCategories_returns_iff_witness :
  Forall (fun c => id_without_charAt c = false /\ name_without_text c = false)
    [Str "cerveja"; Obj [("id", Num (Int 3)); ("name", Str "Sucos")]; Null]
  /\ exists out,
       normalizeCategories
         (Arr [Str "cerveja"; Obj [("id", Num (Int 3)); ("name", Str "Sucos")];
               Null])
       = Ok out.
Proof.
  split; [repeat constructor|].
  apply (proj2 (normalizeCategories_returns_iff
                  [Str "cerveja";
                   Obj [("id", Num (Int 3)); ("name", Str "Sucos")]; Null])).
  repeat constructor.
Defined.

Lemma normalizeCategories_records_witness :
  normalizeCategories (Arr [Str "cerveja"; Null])
  = Ok (Arr [category_record "cerveja" "Cerveja" "Categoria de cerveja"])
  /\ exists out,
       Arr [category_record "cerveja" "Cerveja" "Categoria de cerveja"] = Arr out
       /\ (List.length out <= 2)%nat
       /\ Forall (fun r =>
                    exists id name description,
                      r = Obj [("id", id); ("name", name);
                               ("description", description)]
                      /\ truthy description = true
                      /\ (truthy id = true -> truthy name = true)) out.
Proof.
  split; [reflexivity|].
  apply (normalizeCategories_records (Arr [Str "cerveja"; Null])). reflexivity.
Defined.

Lemma normalizeProducts_touches_sabores_only_witness :
  normalizeProducts (Arr [tapioca; two_colors; Str "x"])
  = Ok (Arr [tapioca_normalized; two_colors_normalized; Str "x"])
  /\ List.length [tapioca_normalized; two_colors_normalized; Str "x"]
     = List.length [tapioca; two_colors; Str "x"].
Proof.
  split; [reflexivity|].
  apply (normalizeProducts_touches_sabores_only
           [tapioca; two_colors; Str "x"]
           [tapioca_normalized; two_colors_normalized; Str "x"]).
  reflexivity.
Defined.

Lemma normalizeProducts_keeps_every_flavor_witness :
  normalizeProducts (Arr [tapioca]) = Ok (Arr [tapioca_normalized])
  /\ exists out fl,
       List.nth_error [tapioca_normalized] 0 = Some out
       /\ prop out "sabores" = Arr fl
       /\ Permutation
            (List.map filled [flavor "Coco" 0; flavor "Queijo" 5;
                              flavor "Carne" 0; flavor "Frango" 2]) fl
       /\ List.length fl = 4%nat.
Proof.
  split; [reflexivity|].
  apply (normalizeProducts_keeps_every_flavor [tapioca] [tapioca_normalized]
           0 tapioca
           [flavor "Coco" 0; flavor "Queijo" 5; flavor "Carne" 0;
            flavor "Frango" 2]);
    reflexivity.
Defined.

Lemma normalizeOrders_returns_iff_witness :
  Forall (fun o => is_nullish o = false /\ printable (prop o "total") = true)
    [stored_order; Str "x"]
  /\ exists out,
       normalizeOrders (Arr [stored_order; Str "x"]) = Ok (Arr out)
       /\ List.length out = 2%nat.
Proof.
  split; [repeat constructor|].
  apply (proj2 (normalizeOrders_returns_iff [stored_order; Str "x"])).
  repeat constructor.
Defined.

(* ------------------------------------------------------------------ *)
(** ** Authorization *)

Lemma checkAuth_not_empty (token : string) :
  negb (String.eqb token "") && checkAuth token = checkAuth token.
Proof.
  unfold checkAuth.
  destruct (String.eqb token "authenticated_admin_token") eqn:Ht;
    [|apply andb_false_r].
  apply String.eqb_eq in Ht. now subst token.
Qed.

(** X8.  The guard of the protected handlers and [GET /api/auth/verify]
    agree: a request passes the guard exactly when the verification of its
    header answers [valid: true]. *)
Theorem guard_agrees_with_verify (req : Request) :
  unauthorized req = false <-> get_auth_verify req = valid_reply.
Proof.
  unfold unauthorized, get_auth_verify, valid_reply.
  destruct (authorization req) as [header|]; [|split; discriminate].
  rewrite checkAuth_not_empty.
  destruct header as [|c header'].
  - simpl. split; discriminate.
  - destruct (checkAuth _); simpl; split; intros H; try reflexivity;
      discriminate.
Qed.

(** X9.  A header [Bearer t] passes the guard exactly when [t] is the fixed
    token; the prefix is not required, the token alone passes too. *)
Theorem guard_accepts_the_token_only (t : string) (payload : value) :
  (unauthorized (mkRequest (Some ("Bearer " ++ t)) payload) = false
   <-> t = "authenticated_admin_token")
  /\ unauthorized (mkRequest (Some "authenticated_admin_token") payload) = false.
Proof.
  split; [|reflexivity].
  assert (Hguard : unauthorized (mkRequest (Some ("Bearer " ++ t)) payload)
                   = negb (checkAuth t)) by (destruct t; reflexivity).
  rewrite Hguard. unfold checkAuth. rewrite negb_false_iff.
  apply String.eqb_eq.
Qed.

Section Guard.
Context {E : Engine}.

(** X10.  A request that does not pass the guard is refused with 401 by
    each of the four protected handlers before anything else happens: no
    request is sent to the store and the store is as it was. *)
Theorem unauthorized_requests_touch_nothing (req : Request) (w : World) :
  unauthorized req = true ->
  post_products req w = (res_error 401 "Não autorizado", w)
  /\ post_categories_add req w = (res_error 401 "Não autorizado", w)
  /\ post_categories_delete req w = (res_error 401 "Não autorizado", w)
  /\ post_categories req w = (res_error 401 "Não autorizado", w).
Proof.
  intros H.
  unfold post_products, post_categories_add, post_categories_delete,
    post_categories, try_catch.
  rewrite H. repeat split.
Qed.

(** X11.  The other handlers never look at the authorization header: orders
    can be read, placed and given another status, and a login attempted,
    with any header or none. *)
Theorem open_handlers_ignore_authorization (now : string)
  (header header' : option string) (payload : value) (w : World) :
  get_products (mkRequest header payload) w
  = get_products (mkRequest header' payload) w
  /\ get_categories (mkRequest header payload) w
     = get_categories (mkRequest header' payload) w
  /\ get_orders (mkRequest header payload) w
     = get_orders (mkRequest header' payload) w
  /\ post_orders (mkRequest header payload) w
     = post_orders (mkRequest header' payload) w
  /\ post_orders_update_status now (mkRequest header payload) w
     = post_orders_update_status now (mkRequest header' payload) w
  /\ post_auth_login (mkRequest header payload) w
     = post_auth_login (mkRequest header' payload) w.
Proof. repeat split. Qed.

End Guard.

(* ------------------------------------------------------------------ *)
(** ** What the handlers leave alone *)

(** The next case distinction of a handler: the innermost [match] or [if]
    of the goal. *)
Ltac innermost_case :=
  match goal with
  | |- context [match ?x with _ => _ end] =>
      lazymatch x with
      | context [match _ with _ => _ end] => fail
      | _ => destruct x eqn:?
      end
  end.

Ltac unfold_io :=
  unfold try_catch, io_bind, log, lift, io_ret, io_throw, or_throw, supabase;
  cbn beta iota zeta delta [fst snd].

(** Every path of a handler, one goal each. *)
Ltac all_paths :=
  unfold_io; repeat (innermost_case; unfold_io);
  cbn [status res_error res_json fst snd database trace faults].

Lemma answer_Select_database (t : string) (cols : list string)
  (fs : list Filter) (ord : list string) (single : bool) (w : World) :
  snd (answer (Select t cols fs ord single) w) = database w.
Proof.
  unfold answer, exec.
  destruct (faults w) as [|[e|] rest]; try reflexivity;
    destruct (table_rows t (tables (database w))); try reflexivity;
    destruct single; try reflexivity;
    destruct (List.map _ _) as [|? [|? ?]]; reflexivity.
Qed.

Lemma exec_frame (q : Query) (db : Database) (t : string) :
  t <> table_of q ->
  table_rows t (tables (snd (exec q db))) = table_rows t (tables db).
Proof.
  intros Hne. unfold exec.
  destruct q as [t' cols fs ord single|t' rows ret|t' patch fs|t' rows k|t' fs];
    cbn [table_of] in Hne;
    destruct (table_rows t' (tables db)); try reflexivity;
    cbn [snd tables]; try now apply table_rows_put_other.
  destruct single; [destruct (List.map _ _) as [|? [|? ?]]|]; reflexivity.
Qed.

Lemma answer_frame (q : Query) (w : World) (t : string) :
  t <> table_of q ->
  table_rows t (tables (snd (answer q w))) = table_rows t (tables (database w)).
Proof.
  intros Hne. unfold answer.
  destruct (faults w) as [|[e|] rest]; try reflexivity; now apply exec_frame.
Qed.

Section Untouched.
Context {E : Engine}.

Lemma post_orders_400 (req : Request) (w : World) :
  status (fst (post_orders req w)) = 400 -> snd (post_orders req w) = w.
Proof.
  unfold post_orders; all_paths; intros; try discriminate; reflexivity.
Qed.

Lemma post_orders_update_status_400 (now : string) (req : Request) (w : World) :
  status (fst (post_orders_update_status now req w)) = 400 ->
  snd (post_orders_update_status now req w) = w.
Proof.
  unfold post_orders_update_status; all_paths; intros; try discriminate;
    reflexivity.
Qed.

Lemma post_auth_login_400 (req : Request) (w : World) :
  status (fst (post_auth_login req w)) = 400 -> snd (post_auth_login req w) = w.
Proof.
  unfold post_auth_login; all_paths; intros; try discriminate; reflexivity.
Qed.

Lemma post_categories_add_400 (req : Request) (w : World) :
  status (fst (post_categories_add req w)) = 400 ->
  snd (post_categories_add req w) = w.
Proof.
  unfold post_categories_add; all_paths; intros; try discriminate; reflexivity.
Qed.

Lemma post_categories_delete_400 (req : Request) (w : World) :
  status (fst (post_categories_delete req w)) = 400 ->
  snd (post_categories_delete req w) = w.
Proof.
  unfold post_categories_delete; all_paths; intros; try discriminate;
    reflexivity.
Qed.

Lemma post_categories_400 (req : Request) (w : World) :
  status (fst (post_categories req w)) = 400 -> snd (post_categories req w) = w.
Proof.
  unfold post_categories; all_paths; intros; try discriminate; reflexivity.
Qed.

(** X12.  A handler that answers 400 has rejected the request body before
    sending anything to the store: the store, the pending faults and the
    requests made are as they were. *)
Theorem bad_requests_touch_nothing (now : string) (req : Request) (w : World)
  (h : World -> Response * World) :
  List.In h (validating_handlers now req) ->
  status (fst (h w)) = 400 ->
  snd (h w) = w.
Proof.
  intros Hin H400.
  unfold validating_handlers in Hin. simpl in Hin.
  destruct Hin as [<-|[<-|[<-|[<-|[<-|[<-|[]]]]]]];
    auto using post_orders_400, post_orders_update_status_400,
      post_auth_login_400, post_categories_add_400,
      post_categories_delete_400, post_categories_400.
Qed.

(** X16.  The status codes of the handlers.  The order handlers answer 200,
    400 or 500; the login 200, 400, 401 or 500, and 401 only after it has
    asked the store; the bulk product save 200, 401 or 500, never 400: it
    accepts any body; the category handlers 200, 400, 401 or 500. *)
Theorem handler_status_codes (now : string) (req : Request) (w : World) :
  List.In (status (fst (post_orders req w))) [200; 400; 500]
  /\ List.In (status (fst (post_orders_update_status now req w))) [200; 400; 500]
  /\ List.In (status (fst (post_auth_login req w))) [200; 400; 401; 500]
  /\ (status (fst (post_auth_login req w)) = 401 ->
      trace (snd (post_auth_login req w)) <> trace w)
  /\ List.In (status (fst (post_products req w))) [200; 401; 500]
  /\ List.In (status (fst (post_categories_add req w))) [200; 400; 401; 500]
  /\ List.In (status (fst (post_categories_delete req w))) [200; 400; 401; 500]
  /\ List.In (status (fst (post_categories req w))) [200; 400; 401; 500].
Proof.
  repeat split.
  - unfold post_orders; all_paths; simpl; tauto.
  - unfold post_orders_update_status; all_paths; simpl; tauto.
  - unfold post_auth_login; all_paths; simpl; tauto.
  - unfold post_auth_login; all_paths; intros H; try discriminate;
      intros Heq; apply (f_equal (@List.length _)) in Heq;
      rewrite length_app in Heq; simpl in Heq; lia.
  - unfold post_products; all_paths; simpl; tauto.
  - unfold post_categories_add; all_paths; simpl; tauto.
  - unfold post_categories_delete; all_paths; simpl; tauto.
  - unfold post_categories; all_paths; simpl; tauto.
Qed.

(** X13.  The three GET handlers always answer 200, whatever the store
    does, after exactly one select on their table, and leave the store as
    it was. *)
Theorem get_handlers_read_once (req : Request) :
  reads_once (Select "products" [] [] ["display_order"; "id"] false)
    (get_products req)
  /\ reads_once (Select "categories" [] [] ["name"] false) (get_categories req)
  /\ reads_once (Select "orders" [] [] ["created_at"] false) (get_orders req).
Proof.
  unfold reads_once. repeat split.
  all: try solve [unfold get_products; all_paths; reflexivity].
  all: try solve [unfold get_categories; all_paths; reflexivity].
  all: try solve [unfold get_orders; all_paths; reflexivity].
  all: try solve [unfold get_products; all_paths;
                  rewrite ?answer_Select_database; eauto].
  all: try solve [unfold get_categories; all_paths;
                  rewrite ?answer_Select_database; eauto].
  all: solve [unfold get_orders; all_paths;
              rewrite ?answer_Select_database; eauto].
Qed.

(** X14.  A login never writes: the store is as it was, and the handler
    has sent at most one request, the lookup of the credential row of the
    supplied username. *)
Theorem login_only_reads (req : Request) (w : World) :
  database (snd (post_auth_login req w)) = database w
  /\ (trace (snd (post_auth_login req w)) = trace w
      \/ exists r,
           trace (snd (post_auth_login req w))
           = (trace w
              ++ [(credential_lookup (ToString (prop (body req) "username")),
                   r)])%list).
Proof.
  unfold post_auth_login; all_paths; rewrite ?answer_Select_database;
    split; eauto.
  all: right; unfold credential_lookup.
  all: repeat match goal with
              | H : get _ _ = Ok _ |- _ =>
                  apply get_Ok_inv in H; destruct H as [_ ->]
              end; eauto.
Qed.

Ltac frame_step :=
  cbn [database];
  rewrite answer_frame
    by (cbn [table_of]; intros ->; simpl in *; tauto).

(** X15.  Each writing handler changes only its own tables: orders for the
    two order handlers, products for the bulk product save, categories for
    the category add and bulk save, products and categories for the
    category delete.  No handler writes the credential table. *)
Theorem handlers_write_their_tables (now : string) (req : Request) :
  writes_only ["orders"] (post_orders req)
  /\ writes_only ["orders"] (post_orders_update_status now req)
  /\ writes_only ["products"] (post_products req)
  /\ writes_only ["categories"] (post_categories_add req)
  /\ writes_only ["products"; "categories"] (post_categories_delete req)
  /\ writes_only ["categories"] (post_categories req).
Proof.
  unfold writes_only. repeat split; intros w t Ht.
  - unfold post_orders; all_paths; repeat frame_step; reflexivity.
  - unfold post_orders_update_status; all_paths; repeat frame_step; reflexivity.
  - unfold post_products; all_paths; repeat frame_step; reflexivity.
  - unfold post_categories_add; all_paths; repeat frame_step; reflexivity.
  - unfold post_categories_delete; all_paths; repeat frame_step; reflexivity.
  - unfold post_categories; all_paths; repeat frame_step; reflexivity.
Qed.

End Untouched.

(* ------------------------------------------------------------------ *)
(** ** Requests on a store that answers *)

Lemma exec_Insert_one (t : string) (row : value) (db : Database)
  (rows : list value) :
  table_rows t (tables db) = Some rows ->
  exec (Insert t [row] true) db
  = (Data (Arr [spread_with row "id" (Num (Int (next_id db)))]),
     mkDatabase
       (table_put t (rows ++ [spread_with row "id" (Num (Int (next_id db)))])
          (tables db))
       (next_id db + 1)).
Proof. intros H. unfold exec. rewrite H. reflexivity. Qed.

Lemma exec_Select_all (t : string) (ord : list string) (db : Database)
  (rows : list value) :
  table_rows t (tables db) = Some rows ->
  exec (Select t [] [] ord false) db = (Data (Arr rows), db).
Proof.
  intros H. unfold exec. rewrite H. cbn [project matches_all forallb].
  rewrite filter_all by (apply Forall_forall; reflexivity).
  now rewrite map_id.
Qed.

Lemma exec_missing (q : Query) (db : Database) :
  table_rows (table_of q) (tables db) = None ->
  exec q db = (Failure (missing_table (table_of q)), db).
Proof.
  unfold exec. destruct q; cbn [table_of]; now intros ->.
Qed.

Lemma exec_Failure (q : Query) (db db' : Database) (e : JsError) :
  exec q db = (Failure e, db') -> db' = db.
Proof.
  unfold exec.
  destruct q as [t cols fs ord single|t rows ret|t patch fs|t rows k|t fs];
    destruct (table_rows t (tables db)); try (intros H; now inversion H).
  destruct single; [destruct (List.map _ _) as [|? [|? ?]]|];
    intros H; now inversion H.
Qed.

(** A request that fails leaves the store as it was. *)
Lemma answer_Failure (q : Query) (w : World) (db' : Database) (e : JsError) :
  answer q w = (Failure e, db') -> db' = database w.
Proof.
  unfold answer. destruct (faults w) as [|[e'|] rest];
    try apply exec_Failure. intros H; now inversion H.
Qed.

Lemma matches_truthy (fs : list Filter) (f : Filter) (row : value) :
  matches_all (f :: fs) row = true -> truthy row = true.
Proof.
  unfold matches_all. cbn [forallb]. intros H. apply andb_true_iff in H.
  destruct H as [H _]. destruct row; try reflexivity; destruct f; discriminate.
Qed.

(** The request is not among the failed requests of the trace [H]. *)
Ltac not_in_trace H :=
  exfalso; simpl in H;
  repeat match type of H with
         | _ \/ _ => destruct H as [H|H]
         | False => contradiction
         | _ = _ => discriminate H
         end.

Section Orders.
Context {E : Engine}.

(** X17.  An order placed on a store that answers is listed afterwards,
    when its total and the totals of the orders already stored have a text
    (otherwise [parseFloat] throws and the list comes back empty): the
    handler returns the identifier the store gave the row, and
    [GET /api/orders] then has one order more, among them one with that
    identifier, the customer name as submitted, the items as submitted when
    they are an array, and the status as submitted or ["pending"]. *)
Theorem placed_order_is_listed (req req' : Request) (db : Database)
  (rows : list value) :
  truthy (prop (prop (body req) "orderData") "customerName") = true ->
  printable (prop (prop (body req) "orderData") "total") = true ->
  table_rows "orders" (tables db) = Some rows ->
  Forall (fun r => is_nullish r = false /\ printable (prop r "total") = true)
    rows ->
  let orderData := prop (body req) "orderData" in
  let placed := run (post_orders req) db [] in
  let listed := run (get_orders req') (database (snd placed)) [] in
  fst placed
  = res_json (Obj [("success", Bool true); ("message", Str "Pedido registrado");
                   ("orderId", Num (Int (next_id db)))])
  /\ rows_of "orders" (database (snd placed))
     = (rows ++ [placed_order orderData (next_id db)])%list
  /\ exists orders order,
       fst listed = res_json (Obj [("orders", Arr orders)])
       /\ List.length orders = S (List.length rows)
       /\ List.In order orders
       /\ prop order "id" = Num (Int (next_id db))
       /\ prop order "customerName" = prop orderData "customerName"
       /\ prop order "items"
          = (if isArray (prop orderData "items") then prop orderData "items"
             else Arr [])
       /\ prop order "status" = js_or (prop orderData "status") (Str "pending").
Proof.
  intros Hname Htotal Htable Hrows orderData.
  destruct (truthy_prop_Obj _ _ Hname) as [fs Hfs].
  assert (Hod : truthy orderData = true) by (unfold orderData; now rewrite Hfs).
  destruct (truthy_prop_Obj _ _ Hod) as [fs0 Hbody].
  assert (Hplaced :
            run (post_orders req) db []
            = (res_json (Obj [("success", Bool true);
                              ("message", Str "Pedido registrado");
                              ("orderId", Num (Int (next_id db)))]),
               mkWorld
                 (mkDatabase
                    (table_put "orders"
                       (rows ++ [placed_order orderData (next_id db)])
                       (tables db))
                    (next_id db + 1))
                 []
                 [(Insert "orders" [orderToSave orderData] true,
                   Data (Arr [placed_order orderData (next_id db)]))])).
  { unfold run, post_orders, try_catch, io_bind, lift, io_ret, supabase.
    rewrite (get_prop (body req) "orderData") by now rewrite Hbody.
    fold orderData. rewrite Hod. fold orderData in Hname. rewrite Hname.
    cbn [negb orb]. unfold answer. cbn [faults database trace].
    rewrite (exec_Insert_one "orders" _ db rows Htable).
    cbn [fst snd or_throw io_ret get_index0]. unfold placed_order.
    unfold spread_with at 1. cbn [get]. rewrite lookup_set_same.
    reflexivity. }
  cbv zeta. rewrite Hplaced. cbn [fst snd database].
  split; [reflexivity|]. split; [apply rows_of_put_same|].
  set (new := placed_order orderData (next_id db)).
  exists (List.map external_order (rows ++ [new])), (external_order new).
  split; [|split; [|split]].
  - unfold run, get_orders, try_catch, io_bind, log, lift, io_ret, supabase.
    unfold answer. cbn [faults database trace].
    rewrite (exec_Select_all "orders" _ _ (rows ++ [new]))
      by (cbn [tables]; apply table_rows_put_same).
    cbn [fst snd].
    replace (template (counted (Arr (rows ++ [new]))))
      with (Ok (ToString (counted (Arr (rows ++ [new])))))
      by (unfold counted, optional_length, js_or; cbn [is_nullish get_length];
          match goal with |- context [truthy ?n] => destruct (truthy n) end;
          reflexivity).
    rewrite js_or_truthy by (now destruct rows).
    cbn [normalizeOrders].
    rewrite (mapM_Ok_map normalizeOrder external_order).
    + reflexivity.
    + apply Forall_app. split.
      * eapply Forall_impl; [|exact Hrows]. intros r [Hn Hp].
        apply normalizeOrder_external. unfold order_converts.
        now rewrite Hn, Hp.
      * constructor; [|constructor].
        apply normalizeOrder_external. unfold order_converts.
        replace (prop new "total") with (js_or (prop orderData "total") zero)
          by reflexivity.
        unfold js_or. fold orderData in Htotal.
        destruct (truthy (prop orderData "total")); [now rewrite Htotal|].
        reflexivity.
  - rewrite length_map, length_app. simpl. lia.
  - apply in_map, in_or_app. right. now left.
  - unfold new, placed_order, orderToSave, external_order, spread_with.
    cbn [own_fields set_field String.eqb Ascii.eqb Bool.eqb prop lookup].
    fold orderData in Hname. rewrite Hname.
    repeat split.
    + destruct (prop orderData "items"); reflexivity.
    + unfold js_or. destruct (truthy (prop orderData "status")) eqn:Hs;
        [now rewrite Hs|reflexivity].
Qed.

(** X18.  A status update with an id and a status that have a text (they
    are written to the log first), on a store that answers, rewrites the
    status and the update time of the rows whose id is the given one and of
    no other row; it answers 200 also when no row has that id, and then
    changes nothing.  When the id or the status has no text, the handler
    answers 500 and sends nothing to the store. *)
Theorem status_update_rewrites_matching_rows (now : string) (req : Request)
  (db : Database) (rows : list value) :
  let orderId := prop (body req) "orderId" in
  let new_status := prop (body req) "status" in
  (truthy orderId = true ->
   truthy new_status = true ->
   printable orderId = true ->
   printable new_status = true ->
   table_rows "orders" (tables db) = Some rows ->
   let out := run (post_orders_update_status now req) db [] in
   fst out
   = res_json (success_body ("Status do pedido atualizado para "
                             ++ ToString new_status))
   /\ rows_of "orders" (database (snd out))
      = List.map (with_status orderId new_status now) rows
   /\ (Forall (fun r => ToString (prop r "id") <> ToString orderId) rows ->
       rows_of "orders" (database (snd out)) = rows))
  /\ (is_nullish (body req) = false ->
      printable orderId && printable new_status = false ->
      run (post_orders_update_status now req) db []
      = (res_error 500
           ("Erro ao atualizar status do pedido: "
            ++ "Cannot convert object to primitive value"),
         mkWorld db [] [])).
Proof.
  intros orderId new_status. split.
  2: { intros Hbody Hp.
       unfold run, post_orders_update_status, try_catch, io_bind, log, lift,
         io_ret, supabase.
       rewrite !(get_prop (body req)) by exact Hbody.
       fold orderId new_status. unfold template.
       destruct (printable orderId); cbn [fst snd]; [|reflexivity].
       cbn [andb] in Hp. rewrite Hp. reflexivity. }
  intros Hid Hst Hpid Hpst Htable.
  destruct (truthy_prop_Obj _ _ Hid) as [fs0 Hbody].
  assert (Hout :
            run (post_orders_update_status now req) db []
            = (res_json (success_body ("Status do pedido atualizado para "
                                       ++ ToString new_status)),
               mkWorld
                 (mkDatabase
                    (table_put "orders"
                       (List.map (with_status orderId new_status now) rows)
                       (tables db))
                    (next_id db))
                 []
                 [(Update "orders"
                     (Obj [("status", new_status); ("updated_at", Str now)])
                     [FEq "id" (ToString orderId)],
                   Data Null)])).
  { unfold run, post_orders_update_status, try_catch, io_bind, log, lift,
      io_ret, supabase.
    rewrite !(get_prop (body req)) by now rewrite Hbody.
    fold orderId new_status. unfold template. rewrite Hpid, Hpst.
    cbn [fst snd]. rewrite Hid, Hst. cbn [negb orb].
    unfold answer, exec. cbn [faults database trace]. rewrite Htable.
    reflexivity. }
  cbv zeta. rewrite Hout. cbn [fst snd database].
  split; [reflexivity|]. rewrite rows_of_put_same.
  split; [reflexivity|].
  intros Hnone. unfold with_status. apply map_unmatched, filter_none.
  eapply Forall_impl; [|exact Hnone]. intros r Hr.
  unfold matches_all, matches, column. cbn [forallb].
  apply String.eqb_neq in Hr. rewrite Hr. now rewrite andb_false_r.
Qed.

End Orders.

(* ------------------------------------------------------------------ *)
(** ** The bootstrap of the admin credentials *)

Section BootstrapRuns.
Context {E : Engine}.

Lemma ensureAdminCredentials_unfold (w : World) :
  ensureAdminCredentials w
  = let a := answer (credential_lookup "admin") w in
    let w1 := mkWorld (snd a) (List.tl (faults w))
                (trace w ++ [(credential_lookup "admin", fst a)]) in
    match (match fst a with
           | Failure _ => createAdminCredentials w1
           | Data existingCreds =>
               if negb (truthy existingCreds) then createAdminCredentials w1
               else (Ok true, w1)
           end) with
    | (Ok b, w') => (b, w')
    | (Throw _, w') => (false, w')
    end.
Proof.
  unfold ensureAdminCredentials, io_bind, supabase, io_ret, credential_lookup.
  cbv zeta.
  destruct (fst (answer _ w)) as [c|e]; [destruct (negb (truthy c))|];
    reflexivity.
Qed.

Lemma createAdminCredentials_unfold (w : World) :
  createAdminCredentials w
  = let q := Insert "admin_credentials" [adminRow (transform "admin123")] true in
    let a := answer q w in
    (Ok (match fst a with
         | Failure _ => false
         | Data _ => true
         end),
     mkWorld (snd a) (List.tl (faults w)) (trace w ++ [(q, fst a)])).
Proof.
  unfold createAdminCredentials, io_bind, lift, io_ret, supabase.
  change (simpleEncrypt (Str "admin123")) with (Ok (transform "admin123")).
  cbv beta iota zeta. destruct (answer _ w) as [[d|e] db']; reflexivity.
Qed.

Lemma createAdminCredentials_run (db : Database) (rows : list value)
  (tr : list (Query * Reply)) :
  table_rows "admin_credentials" (tables db) = Some rows ->
  createAdminCredentials (mkWorld db [] tr)
  = (Ok true,
     mkWorld
       (mkDatabase
          (table_put "admin_credentials"
             (rows ++ [created_admin (next_id db)]) (tables db))
          (next_id db + 1))
       []
       (tr ++ [(Insert "admin_credentials" [adminRow (transform "admin123")]
                  true,
                Data (Arr [created_admin (next_id db)]))])).
Proof.
  intros Htable. rewrite createAdminCredentials_unfold. cbv zeta.
  unfold answer. cbn [faults database trace].
  rewrite (exec_Insert_one _ _ db rows Htable). reflexivity.
Qed.

Lemma answer_admin_lookup (db : Database) (rows : list value)
  (tr : list (Query * Reply)) :
  table_rows "admin_credentials" (tables db) = Some rows ->
  answer (credential_lookup "admin") (mkWorld db [] tr)
  = (match admin_rows rows with
     | [row] => Data row
     | _ => Failure not_single
     end, db).
Proof.
  intros Htable. unfold answer, credential_lookup, exec.
  cbn [faults database]. rewrite Htable.
  cbn [project]. rewrite map_id. fold (admin_rows rows).
  now destruct (admin_rows rows) as [|row [|row' more]].
Qed.

Lemma admin_row_truthy (rows : list value) (row : value) :
  List.In row (admin_rows rows) -> truthy row = true.
Proof.
  intros H. apply filter_In in H. destruct H as [_ H].
  now apply matches_truthy in H.
Qed.

Lemma ensureAdminCredentials_run (db : Database) (rows : list value) :
  table_rows "admin_credentials" (tables db) = Some rows ->
  ensureAdminCredentials (mkWorld db [] [])
  = match admin_rows rows with
    | [row] =>
        (true, mkWorld db [] [(credential_lookup "admin", Data row)])
    | _ =>
        (true,
         mkWorld
           (mkDatabase
              (table_put "admin_credentials"
                 (rows ++ [created_admin (next_id db)]) (tables db))
              (next_id db + 1))
           []
           [(credential_lookup "admin", Failure not_single);
            (Insert "admin_credentials" [adminRow (transform "admin123")] true,
             Data (Arr [created_admin (next_id db)]))])
    end.
Proof.
  intros Htable. rewrite ensureAdminCredentials_unfold. cbv zeta.
  rewrite (answer_admin_lookup db rows [] Htable).
  cbn [fst snd faults trace List.tl app].
  pose proof (admin_row_truthy rows) as Htruthy.
  destruct (admin_rows rows) as [|row [|row' more]].
  - now rewrite (createAdminCredentials_run db rows _ Htable).
  - rewrite (Htruthy row) by now left. reflexivity.
  - now rewrite (createAdminCredentials_run db rows _ Htable).
Qed.

(** X19.  On a store that answers, [ensureAdminCredentials] returns [true];
    it leaves the store as it is when the credential table has exactly one
    row for ["admin"], and otherwise appends the row of ["admin"] with the
    password ["admin123"] and its transform: also when there are already
    two or more such rows, which then become one more. *)
Theorem ensureAdminCredentials_creates_unless_one (db : Database)
  (rows : list value) :
  table_rows "admin_credentials" (tables db) = Some rows ->
  let out := ensureAdminCredentials (mkWorld db [] []) in
  fst out = true
  /\ (List.length (admin_rows rows) = 1%nat -> database (snd out) = db)
  /\ (List.length (admin_rows rows) <> 1%nat ->
      rows_of "admin_credentials" (database (snd out))
      = (rows ++ [created_admin (next_id db)])%list
      /\ List.length
           (admin_rows (rows_of "admin_credentials" (database (snd out))))
         = S (List.length (admin_rows rows))).
Proof.
  intros Htable. cbv zeta. rewrite (ensureAdminCredentials_run db rows Htable).
  destruct (admin_rows rows) as [|row [|row' more]] eqn:Hadmins;
    cbn [fst snd database]; (split; [reflexivity|]); split; intros Hlen;
    try reflexivity; try (simpl in Hlen; congruence);
    rewrite rows_of_put_same; (split; [reflexivity|]);
    unfold admin_rows in *; rewrite filter_app, length_app, Hadmins;
    simpl; lia.
Qed.

(** X20.  Run again on the store it has left, [ensureAdminCredentials]
    changes nothing, provided the credential table had at most one row for
    ["admin"] to begin with. *)
Theorem ensureAdminCredentials_twice (db : Database) (rows : list value) :
  table_rows "admin_credentials" (tables db) = Some rows ->
  (List.length (admin_rows rows) <= 1)%nat ->
  let first := ensureAdminCredentials (mkWorld db [] []) in
  let second := ensureAdminCredentials (mkWorld (database (snd first)) [] []) in
  fst second = true /\ database (snd second) = database (snd first).
Proof.
  intros Htable Hlen. cbv zeta.
  rewrite (ensureAdminCredentials_run db rows Htable).
  destruct (admin_rows rows) as [|row [|row' more]] eqn:Hadmins;
    [| |simpl in Hlen; lia]; cbn [fst snd database].
  - rewrite (ensureAdminCredentials_run _ (rows ++ [created_admin (next_id db)]))
      by (cbn [tables]; apply table_rows_put_same).
    unfold admin_rows in *. rewrite filter_app, Hadmins. now cbn.
  - rewrite (ensureAdminCredentials_run db rows Htable), Hadmins. now cbn.
Qed.

Lemma strict_eq_Str (v : value) (s : string) :
  strict_eq v (Str s) = true -> v = Str s.
Proof.
  destruct v as [| |b|n|t| |]; simpl; try discriminate.
  - destruct n; discriminate.
  - intros H. apply String.eqb_eq in H. now subst.
Qed.

Lemma login_on_created_row (db : Database) (rows : list value) (id : Z)
  (password : value) :
  table_rows "admin_credentials" (tables db) = Some rows ->
  admin_rows rows = [created_admin id] ->
  fst (run (post_auth_login (login_with (Str "admin") password)) db [])
  = (if truthy password
     then match simpleEncrypt password with
          | Ok encrypted =>
              if String.eqb encrypted (transform "admin123")
                 || strict_eq password (Str "admin123")
              then res_json (token_body (Str "admin"))
              else res_error 401 "Credenciais inválidas"
          | Throw _ => res_error 500 "Erro no processo de login"
          end
     else res_error 400 "Usuário e senha são obrigatórios").
Proof.
  intros Htable Hadmins.
  unfold run, post_auth_login, login_with, try_catch, io_bind, lift, io_ret,
    supabase.
  cbn [body get lookup String.eqb Ascii.eqb Bool.eqb fst snd].
  destruct (truthy password); cbn [truthy negb orb]; [|reflexivity].
  cbn [template printable ToString fst snd].
  fold (credential_lookup "admin").
  rewrite (answer_admin_lookup db rows [] Htable), Hadmins.
  cbn [fst snd]. change (truthy (created_admin id)) with true. cbn [negb].
  change (prop (created_admin id) "password") with (Str "admin123").
  change (prop (created_admin id) "encrypted_password")
    with (Str (transform "admin123")).
  destruct (simpleEncrypt password) as [encrypted|e]; cbn [fst snd];
    [|reflexivity].
  cbn [strict_eq]. destruct (_ || _); reflexivity.
Qed.

(** X21.  After the bootstrap on a store that answers and had no row for
    ["admin"], the login of ["admin"] gets the token exactly with a
    password that is the text ["admin123"] or that [Buffer.from] reads as
    the bytes of that text: the created row accepts no other text, but it
    accepts for one the JSON array of the eight bytes. *)
Theorem bootstrap_then_login (db : Database) (rows : list value)
  (password : value) :
  table_rows "admin_credentials" (tables db) = Some rows ->
  admin_rows rows = [] ->
  let started := database (snd (ensureAdminCredentials (mkWorld db [] []))) in
  (fst (run (post_auth_login (login_with (Str "admin") password)) started [])
   = res_json (token_body (Str "admin"))
   <-> simpleEncrypt password = Ok (transform "admin123"))
  /\ (forall text, password = Str text ->
                   simpleEncrypt password = Ok (transform "admin123")
                   <-> text = "admin123")
  /\ (forall bytes, password = Arr bytes ->
                    byte_array bytes = Some [97; 100; 109; 105; 110; 49; 50; 51]%N ->
                    simpleEncrypt password = Ok (transform "admin123")).
Proof.
  intros Htable Hnone. cbv zeta.
  rewrite (ensureAdminCredentials_run db rows Htable), Hnone.
  cbn [snd database].
  rewrite (login_on_created_row _ (rows ++ [created_admin (next_id db)])
             (next_id db))
    by (try (cbn [tables]; apply table_rows_put_same);
        unfold admin_rows in *; rewrite filter_app, Hnone; reflexivity).
  split; [|split].
  - destruct (truthy password) eqn:Ht.
    + destruct (simpleEncrypt password) as [encrypted|e] eqn:Hse.
      * destruct (String.eqb encrypted (transform "admin123")) eqn:Henc;
          cbn [orb].
        -- apply String.eqb_eq in Henc. subst encrypted. tauto.
        -- destruct (strict_eq password (Str "admin123")) eqn:Hs.
           ++ apply strict_eq_Str in Hs. subst password.
              simpl in Hse. inversion Hse; subst encrypted.
              discriminate Henc.
           ++ split; [discriminate|]. intros H. inversion H; subst encrypted.
              rewrite String.eqb_refl in Henc. discriminate.
      * split; discriminate.
    + split; [discriminate|]. intros H.
      destruct password as [| |b|n|s| |]; try discriminate H;
        try discriminate Ht.
      destruct s; [discriminate H|discriminate Ht].
  - intros text ->. change (simpleEncrypt (Str text)) with (Ok (transform text)).
    split.
    + intros H. inversion H as [H']. now apply transform_injective.
    + now intros ->.
  - intros bytes -> Hbytes. unfold simpleEncrypt, base64_of.
    rewrite Hbytes. reflexivity.
Qed.

(** X22.  [ensureAdminCredentials] returns [false] only when its insert of
    the admin row was sent and failed; the store is then as it was. *)
Theorem ensureAdminCredentials_false (w : World) :
  fst (ensureAdminCredentials w) = false ->
  database (snd (ensureAdminCredentials w)) = database w
  /\ exists e,
       List.In (Insert "admin_credentials" [adminRow (transform "admin123")]
                  true, Failure e)
         (trace (snd (ensureAdminCredentials w))).
Proof.
  rewrite ensureAdminCredentials_unfold. cbv zeta.
  pose proof (answer_Select_database "admin_credentials" []
                [FEq "username" "admin"] [] true w) as Hsame.
  fold (credential_lookup "admin") in Hsame.
  destruct (answer (credential_lookup "admin") w) as [[c|e1] db1];
    cbn [fst snd] in *; subst db1;
    [destruct (negb (truthy c)); [|discriminate]|];
    rewrite createAdminCredentials_unfold; cbv zeta;
    match goal with
    | |- context [answer ?q ?w1] =>
        destruct (answer q w1) as [[d|e2] db2] eqn:Ha
    end;
    cbn [fst snd database trace]; intros Hfalse; try discriminate;
    apply answer_Failure in Ha; cbn [database] in Ha;
    (split; [assumption|]);
    exists e2; apply in_or_app; right; now left.
Qed.

End BootstrapRuns.

(* ------------------------------------------------------------------ *)
(** ** Writes that are not undone *)

Section NoRollback.
Context {E : Engine}.

(** X23.  The bulk product save is not undone when its insert fails: the
    handler answers 500 with the error of the insert, and the products that
    its delete removed stay removed. *)
Theorem failed_insert_leaves_products_deleted (req : Request) (db : Database)
  (fs : list (option JsError)) (new_rows : list value) (e : JsError) :
  failed (Insert "products" new_rows false) e (run (post_products req) db fs) ->
  fst (run (post_products req) db fs)
  = res_error 500 ("Erro ao salvar produtos: " ++ message e)
  /\ rows_of "products" (database (snd (run (post_products req) db fs)))
     = survivors (rows_of "products" db).
Proof.
  unfold failed, run, post_products, try_catch, io_bind, log, lift, io_ret,
    supabase.
  destruct (unauthorized req); [simpl; tauto|].
  destruct (get (body req) "products") as [products|e0]; [|simpl; tauto].
  destruct (template _); [|simpl; tauto].
  destruct (normalizeProducts products) as [np|e0]; [|simpl; tauto].
  cbn [fst snd trace faults database].
  destruct (answer _ _) as [[d|err] db1] eqn:Ha1;
    cbn [fst snd or_throw io_ret io_throw];
    [|intros Hin; not_in_trace Hin].
  apply answer_Data, exec_Delete_Data in Ha1. cbn [database] in Ha1.
  fold (survivors (rows_of "products" db)) in Ha1.
  destruct (items np) as [|p ps]; [intros Hin; not_in_trace Hin|].
  destruct (mapM productToInsert (p :: ps)) as [rows'|e0];
    [|intros Hin; not_in_trace Hin].
  cbn [fst snd trace faults database].
  destruct (answer _ _) as [[d2|err2] db2] eqn:Ha2;
    cbn [fst snd or_throw io_ret io_throw];
    [intros Hin; not_in_trace Hin|].
  apply answer_Failure in Ha2. cbn [database] in Ha2.
  intros Hin. simpl in Hin. destruct Hin as [Hin|[Hin|[]]]; [discriminate|].
  inversion Hin; subst. cbn [fst snd database res_error].
  split; [reflexivity|]. apply rows_of_put_same.
Qed.

(** X24.  The category delete is not undone when its last request fails:
    the handler answers 500 with the error, the products of the category
    have already been moved to ["default"], and the category is still
    there. *)
Theorem failed_delete_leaves_products_moved (req : Request) (db : Database)
  (fs : list (option JsError)) (filters : list Filter) (e : JsError) :
  failed (Delete "categories" filters) e
    (run (post_categories_delete req) db fs) ->
  let categoryId := prop (body req) "categoryId" in
  let after := database (snd (run (post_categories_delete req) db fs)) in
  fst (run (post_categories_delete req) db fs)
  = res_error 500 ("Erro ao excluir categoria: " ++ message e)
  /\ rows_of "products" after
     = List.map (reassigned categoryId) (rows_of "products" db)
  /\ table_rows "categories" (tables after)
     = table_rows "categories" (tables db).
Proof.
  unfold failed, run, post_categories_delete, try_catch, io_bind, log, lift,
    io_ret, supabase.
  destruct (unauthorized req); [simpl; tauto|].
  destruct (get (body req) "categoryId") as [cid|e0] eqn:Hg; [|simpl; tauto].
  apply get_Ok_inv in Hg. destruct Hg as [_ ->].
  set (cid := prop (body req) "categoryId").
  destruct (truthy cid) eqn:Hcid; cbn [negb]; [|simpl; tauto].
  destruct (template cid) as [text|e0]; [|simpl; tauto].
  cbn [fst snd trace faults database].
  destruct (answer _ _) as [[found|err] db1] eqn:Ha1;
    cbn [fst snd or_throw io_ret io_throw];
    [|intros Hin; not_in_trace Hin].
  apply answer_Data, exec_Select_Data in Ha1. cbn [database] in Ha1.
  destruct Ha1 as [-> ->].
  set (hit := matches_all [FEq "category" (ToString cid)]).
  set (rows := rows_of "products" db).
  set (found := Arr (List.map (project ["id"; "title"]) (List.filter hit rows))).
  assert (Hgt : (if truthy found then js_gt0 (get_length found) else Ok false)
                = Ok (List.existsb hit rows)).
  { unfold found, js_gt0; simpl. rewrite length_map. f_equal.
    induction rows as [|r rows' IH]; simpl; [reflexivity|].
    destruct (hit r); simpl; [|exact IH].
    apply Z.ltb_lt. lia. }
  rewrite Hgt. cbn [fst snd].
  assert (Hlen : template (get_length found) = Ok (ToString (get_length found)))
    by reflexivity.
  destruct (List.existsb hit rows) eqn:Hex.
  - rewrite !Hlen. cbn [fst snd trace faults database].
    destruct (answer _ _) as [[d2|err2] db2] eqn:Ha2;
      cbn [fst snd or_throw io_ret io_throw];
      [|intros Hin; not_in_trace Hin].
    apply answer_Data, exec_Update_Data in Ha2. cbn [database] in Ha2.
    destruct (answer _ _) as [[d3|err3] db3] eqn:Ha3;
      cbn [fst snd or_throw io_ret io_throw];
      [destruct (template (counted found)); intros Hin; not_in_trace Hin|].
    apply answer_Failure in Ha3. cbn [database] in Ha3.
    intros Hin. simpl in Hin.
    destruct Hin as [Hin|[Hin|[Hin|[]]]]; try discriminate.
    inversion Hin; subst e db3 db2. cbv zeta.
    cbn [fst snd database tables].
    split; [reflexivity|]. split; [apply rows_of_put_same|].
    now apply table_rows_put_other.
  - cbn [fst snd trace faults database io_ret].
    destruct (answer _ _) as [[d3|err3] db3] eqn:Ha3;
      cbn [fst snd or_throw io_ret io_throw];
      [destruct (template (counted found)); intros Hin; not_in_trace Hin|].
    apply answer_Failure in Ha3. cbn [database] in Ha3.
    intros Hin. simpl in Hin.
    destruct Hin as [Hin|[Hin|[]]]; try discriminate.
    inversion Hin; subst e db3. cbv zeta. cbn [fst snd database].
    split; [reflexivity|]. split; [|reflexivity].
    unfold reassigned, in_category. fold hit. symmetry. apply map_unmatched.
    apply filter_none. apply Forall_forall. intros r Hr.
    destruct (hit r) eqn:Hr'; [|reflexivity].
    assert (List.existsb hit rows = true) by (apply existsb_exists; eauto).
    congruence.
Qed.

End NoRollback.

(* ------------------------------------------------------------------ *)
(** ** Adding a category, and the product list *)

Lemma upsert_row_new (k : string) (r : value) (rows : list value) :
  List.existsb (same_key k r) rows = false ->
  upsert_row k r rows = (rows ++ [r])%list.
Proof.
  induction rows as [|x rows IH]; simpl; [reflexivity|].
  destruct (same_key k r x); [discriminate|]. intros H. now rewrite IH.
Qed.

Lemma upsert_row_length (k : string) (r : value) (rows : list value) :
  List.existsb (same_key k r) rows = true ->
  List.length (upsert_row k r rows) = List.length rows.
Proof.
  induction rows as [|x rows IH]; simpl; [discriminate|].
  destruct (same_key k r x); simpl; [reflexivity|]. intros H. now rewrite IH.
Qed.

Lemma upsert_row_In (k : string) (r : value) (rows : list value) :
  exists x,
    List.In x (upsert_row k r rows)
    /\ (x = r \/ exists y, List.In y rows /\ x = apply_patch r y).
Proof.
  induction rows as [|y rows (x & Hin & Hx)]; simpl.
  - exists r. auto.
  - destruct (same_key k r y).
    + exists (apply_patch r y). split; [now left|]. right. exists y. auto.
    + exists x. split; [now right|].
      destruct Hx as [->|(y' & Hy' & ->)]; [now left|].
      right. exists y'. auto.
Qed.

Lemma category_record_patch (id name description y : value) (k : string) :
  List.In k ["id"; "name"; "description"] ->
  prop (apply_patch (Obj [("id", id); ("name", name);
                          ("description", description)]) y) k
  = prop (Obj [("id", id); ("name", name); ("description", description)]) k.
Proof.
  unfold apply_patch, prop. cbn [own_fields fold_left fst snd].
  intros [<-|[<-|[<-|[]]]].
  - rewrite !lookup_set_other by discriminate. now rewrite lookup_set_same.
  - rewrite lookup_set_other by discriminate. now rewrite lookup_set_same.
  - now rewrite lookup_set_same.
Qed.

Section CategoryAdd.
Context {E : Engine}.

(** X25.  Adding a category whose id and name have a text (they are
    written to the log first), on a store that answers, is an upsert by id:
    afterwards the table has a row with the submitted id and name, and it
    has one row more when no row had this id, and as many rows as before
    when one had. *)
Theorem category_add_is_an_upsert (req : Request) (db : Database)
  (rows : list value) :
  unauthorized req = false ->
  truthy (prop (prop (body req) "category") "id") = true ->
  truthy (prop (prop (body req) "category") "name") = true ->
  printable (prop (prop (body req) "category") "id") = true ->
  printable (prop (prop (body req) "category") "name") = true ->
  table_rows "categories" (tables db) = Some rows ->
  let category := prop (body req) "category" in
  let after :=
    rows_of "categories"
      (database (snd (run (post_categories_add req) db []))) in
  let known :=
    List.existsb
      (fun r => String.eqb (ToString (prop category "id"))
                           (ToString (prop r "id"))) rows in
  status (fst (run (post_categories_add req) db [])) = 200
  /\ (exists r, List.In r after
                /\ prop r "id" = prop category "id"
                /\ prop r "name" = prop category "name")
  /\ List.length after
     = (if known then List.length rows else S (List.length rows)).
Proof.
  intros Hauth Hid Hname Hpid Hpname Htable category after known.
  destruct (truthy_prop_Obj _ _ Hid) as [fs Hfs].
  assert (Hcat : truthy category = true) by (unfold category; now rewrite Hfs).
  destruct (truthy_prop_Obj _ _ Hcat) as [fs0 Hbody].
  set (record := Obj [("id", prop category "id");
                      ("name", prop category "name");
                      ("description",
                       js_or (prop category "description")
                         (Str ("Categoria de "
                               ++ ToString (prop category "name"))))]).
  assert (Hrun : exists r,
             run (post_categories_add req) db []
             = (res_json r,
                mkWorld
                  (mkDatabase
                     (table_put "categories" (upsert_row "id" record rows)
                        (tables db))
                     (next_id db))
                  []
                  [(Upsert "categories" [record] "id", Data Null)])).
  { unfold run, post_categories_add, try_catch, io_bind, log, lift, io_ret,
      supabase.
    rewrite Hauth.
    rewrite (get_prop (body req) "category") by now rewrite Hbody.
    fold category. fold category in Hid, Hname, Hpid, Hpname.
    rewrite Hcat, Hid, Hname.
    cbn [negb orb]. unfold template. rewrite Hpid, Hpname. cbn [fst snd].
    fold record.
    unfold answer, exec. cbn [faults database trace]. rewrite Htable.
    cbn [fst snd or_throw io_ret fold_left]. eauto. }
  destruct Hrun as [r Hrun].
  subst after. rewrite Hrun. cbn [fst snd database status res_json].
  rewrite rows_of_put_same.
  assert (Hknown : List.existsb (same_key "id" record) rows = known).
  { reflexivity. }
  split; [reflexivity|]. split.
  - destruct (upsert_row_In "id" record rows) as (x & Hin & Hx).
    exists x. split; [assumption|].
    destruct Hx as [->|(y & _ & ->)].
    + split; reflexivity.
    + unfold record.
      split; rewrite category_record_patch by (simpl; tauto); reflexivity.
  - destruct known.
    + now apply upsert_row_length.
    + rewrite upsert_row_new by assumption. rewrite length_app. simpl. lia.
Qed.

(** X26.  On a store that answers, [GET /api/products] answers an empty
    product list exactly when the normalisation of the stored rows throws:
    a missing or empty table is answered with sample products. *)
Theorem product_list_empty_only_on_throw (req : Request) (db : Database) :
  fst (run (get_products req) db []) = res_json (Obj [("products", Arr [])])
  <-> exists e, normalizeProducts (Arr (rows_of "products" db)) = Throw e.
Proof.
  unfold run, get_products, try_catch, io_bind, log, lift, io_ret, supabase.
  unfold answer, rows_of. cbn [faults database trace].
  destruct (table_rows "products" (tables db)) as [[|r rows]|] eqn:Htable.
  - rewrite (exec_Select_all _ _ _ _ Htable).
    cbn. split; [discriminate|]. intros [e He]; discriminate.
  - rewrite (exec_Select_all _ _ _ _ Htable). cbn [fst snd].
    replace (template (counted (Arr (r :: rows))))
      with (Ok (ToString (counted (Arr (r :: rows)))))
      by (unfold counted, optional_length, js_or; cbn [is_nullish get_length];
          match goal with |- context [truthy ?n] => destruct (truthy n) end;
          reflexivity).
    assert (Hlen : strict_eq (get_length (Arr (r :: rows))) zero = false).
    { unfold get_length, strict_eq, zero. apply Z.eqb_neq.
      cbn [List.length]. lia. }
    cbn [truthy negb orb]. rewrite Hlen.
    destruct (normalizeProducts (Arr (r :: rows))) as [v|e] eqn:Hn;
      cbn [fst].
    + split; [|intros [e He]; discriminate].
      intros Hempty. exfalso.
      destruct (normalizeProducts_Ok_inv _ _ Hn) as (l & -> & _).
      inversion Hempty; subst l.
      simpl in Hn. destruct (normalizeProduct r); [|discriminate].
      simpl in Hn. destruct (mapM normalizeProduct rows); discriminate.
    + split; eauto.
  - rewrite (exec_missing (Select "products" [] [] _ false))
      by exact Htable.
    cbn. split; [discriminate|]. intros [e He]; discriminate.
Qed.
End CategoryAdd.

Section SaveWithoutProducts.
Context {E : Engine}.

(** X27.  A bulk product save whose body carries no product array, but
    something whose length (or 0, when it has none) has a text for the log,
    still runs its delete: on a store that answers it removes the products,
    inserts none and answers 200 with [0 produtos salvos]. *)
Theorem save_without_products_empties_table (req : Request) (db : Database)
  (rows : list value) :
  unauthorized req = false ->
  is_nullish (body req) = false ->
  isArray (prop (body req) "products") = false ->
  printable (counted (prop (body req) "products")) = true ->
  table_rows "products" (tables db) = Some rows ->
  let out := run (post_products req) db [] in
  fst out = res_json (success_body "0 produtos salvos")
  /\ rows_of "products" (database (snd out)) = survivors rows
  /\ List.map fst (trace (snd out)) = [Delete "products" [FNeq "id" "0"]].
Proof.
  intros Hauth Hbody Hnot Hlog Htable.
  assert (Hnorm : normalizeProducts (prop (body req) "products") = Ok (Arr [])).
  { destruct (prop (body req) "products"); try reflexivity; discriminate. }
  cbv zeta.
  unfold run, post_products, try_catch, io_bind, log, lift, io_ret, supabase.
  rewrite Hauth, (get_prop (body req) "products" Hbody).
  unfold template. rewrite Hlog. cbn [fst snd]. rewrite Hnorm.
  unfold answer, exec. cbn [faults database trace]. rewrite Htable.
  cbn [fst snd or_throw io_ret items database trace List.map app].
  rewrite rows_of_put_same. repeat split.
Qed.

End SaveWithoutProducts.

(* ------------------------------------------------------------------ *)
(** ** The further properties on sample data *)

Lemma guard_agrees_with_verify_witness :
  unauthorized (mkRequest bearer Null) = false
  /\ get_auth_verify (mkRequest bearer Null) = valid_reply.
Proof.
  split; [reflexivity|].
  apply (proj1 (guard_agrees_with_verify (mkRequest bearer Null))).
  reflexivity.
Defined.

Lemma guard_accepts_the_token_only_witness :
  unauthorized (mkRequest (Some "Bearer authenticated_admin_token") Null)
  = false.
Proof.
  apply (proj2 (proj1 (guard_accepts_the_token_only
                         "authenticated_admin_token" Null))).
  reflexivity.
Defined.

Lemma unauthorized_requests_touch_nothing_witness :
  unauthorized anonymous = true
  /\ post_products anonymous (idle empty_store)
     = (res_error 401 "Não autorizado", idle empty_store).
Proof.
  split; [reflexivity|].
  apply (proj1 (unauthorized_requests_touch_nothing anonymous
                  (idle empty_store) eq_refl)).
Defined.

Lemma bad_requests_touch_nothing_witness :
  status (fst (post_orders (mkRequest None (Obj [])) (idle empty_store))) = 400
  /\ snd (post_orders (mkRequest None (Obj [])) (idle empty_store))
     = idle empty_store.
Proof.
  split; [reflexivity|].
  apply (bad_requests_touch_nothing "" (mkRequest None (Obj []))
           (idle empty_store) (post_orders (mkRequest None (Obj [])))).
  - left. reflexivity.
  - reflexivity.
Defined.

Lemma placed_order_is_listed_witness :
  fst (run (post_orders order_request) empty_store [])
  = res_json (Obj [("success", Bool true); ("message", Str "Pedido registrado");
                   ("orderId", Num (Int 1))])
  /\ rows_of "orders"
       (database (snd (run (post_orders order_request) empty_store [])))
     = [placed_order (prop (body order_request) "orderData") 1].
Proof.
  destruct (placed_order_is_listed order_request anonymous empty_store []
              eq_refl eq_refl eq_refl (Forall_nil _)) as (Hreply & Hrows & _).
  split; [exact Hreply|exact Hrows].
Defined.

Lemma status_update_rewrites_matching_rows_witness :
  rows_of "orders"
    (database (snd (run (post_orders_update_status "2024-05-01T12:00:00.000Z"
                           (status_request 7 "done"))
                      store_with_order [])))
  = [with_status (Num (Int 7)) (Str "done") "2024-05-01T12:00:00.000Z"
       stored_order]
  /\ run (post_orders_update_status "2024-05-01T12:00:00.000Z"
            (mkRequest None (Obj [("orderId", Num (Int 7));
                                  ("status", Obj [("toString", Num (Int 1))])])))
         store_with_order []
     = (res_error 500
          "Erro ao atualizar status do pedido: Cannot convert object to primitive value",
        mkWorld store_with_order [] []).
Proof.
  split.
  - destruct (proj1 (status_update_rewrites_matching_rows
                       "2024-05-01T12:00:00.000Z"
                       (status_request 7 "done") store_with_order [stored_order])
                eq_refl eq_refl eq_refl eq_refl eq_refl) as (_ & Hrows & _).
    exact Hrows.
  - apply (proj2 (status_update_rewrites_matching_rows
                    "2024-05-01T12:00:00.000Z"
                    (mkRequest None
                       (Obj [("orderId", Num (Int 7));
                             ("status", Obj [("toString", Num (Int 1))])]))
                    store_with_order [])); reflexivity.
Defined.

Lemma ensureAdminCredentials_creates_unless_one_witness :
  fst (ensureAdminCredentials (idle empty_store)) = true
  /\ rows_of "admin_credentials"
       (database (snd (ensureAdminCredentials (idle empty_store))))
     = [created_admin 1].
Proof.
  destruct (ensureAdminCredentials_creates_unless_one empty_store []
              eq_refl) as (Htrue & _ & Hnew).
  split; [exact Htrue|].
  apply (proj1 (Hnew ltac:(discriminate))).
Defined.

Lemma ensureAdminCredentials_twice_witness :
  database
    (snd (ensureAdminCredentials
            (idle (database (snd (ensureAdminCredentials (idle empty_store)))))))
  = database (snd (ensureAdminCredentials (idle empty_store))).
Proof.
  apply (proj2 (ensureAdminCredentials_twice empty_store [] eq_refl
                  (Nat.le_0_l 1))).
Defined.

Lemma bootstrap_then_login_witness :
  fst (run (post_auth_login (login_request "admin" "admin123"))
         (database (snd (ensureAdminCredentials (idle empty_store)))) [])
  = res_json (token_body (Str "admin"))
  /\ fst (run (post_auth_login bytes_request)
            (database (snd (ensureAdminCredentials (idle empty_store)))) [])
     = res_json (token_body (Str "admin")).
Proof.
  split.
  - apply (proj2 (proj1 (bootstrap_then_login empty_store [] (Str "admin123")
                           eq_refl eq_refl))).
    reflexivity.
  - apply (proj2 (proj1 (bootstrap_then_login empty_store []
                           (prop (body bytes_request) "password")
                           eq_refl eq_refl))).
    reflexivity.
Defined.

Lemma ensureAdminCredentials_false_witness :
  fst (ensureAdminCredentials (idle store_without_tables)) = false
  /\ database (snd (ensureAdminCredentials (idle store_without_tables)))
     = store_without_tables.
Proof.
  split; [reflexivity|].
  apply (proj1 (ensureAdminCredentials_false (idle store_without_tables)
                  eq_refl)).
Defined.

Lemma failed_insert_leaves_products_deleted_witness :
  fst (run (post_products (save_products_request [tapioca]))
         store_with_category_X [None; Some connection_error])
  = res_error 500 "Erro ao salvar produtos: fetch failed"
  /\ rows_of "products"
       (database (snd (run (post_products (save_products_request [tapioca]))
                         store_with_category_X [None; Some connection_error])))
     = [].
Proof.
  apply (failed_insert_leaves_products_deleted
           (save_products_request [tapioca]) store_with_category_X
           [None; Some connection_error]
           [stored_product tapioca_normalized] connection_error).
  right. left. reflexivity.
Defined.

Lemma failed_delete_leaves_products_moved_witness :
  fst (run (post_categories_delete (delete_category_request "X"))
         store_with_category_X [None; None; Some connection_error])
  = res_error 500 "Erro ao excluir categoria: fetch failed"
  /\ rows_of "products"
       (database (snd (run (post_categories_delete (delete_category_request "X"))
                         store_with_category_X
                         [None; None; Some connection_error])))
     = List.map (reassigned (Str "X")) (rows_of "products" store_with_category_X).
Proof.
  destruct (failed_delete_leaves_products_moved (delete_category_request "X")
              store_with_category_X [None; None; Some connection_error]
              [FEq "id" "X"] connection_error) as (Hreply & Hrows & _).
  - right. right. left. reflexivity.
  - split; [exact Hreply|exact Hrows].
Defined.

Lemma category_add_is_an_upsert_witness :
  status (fst (run (post_categories_add (add_category_request "X" "Xis"))
                 store_with_category_X [])) = 200
  /\ List.length
       (rows_of "categories"
          (database (snd (run (post_categories_add
                                 (add_category_request "X" "Xis"))
                            store_with_category_X []))))
     = 2%nat.
Proof.
  destruct (category_add_is_an_upsert (add_category_request "X" "Xis")
              store_with_category_X
              [category_record "X" "X" "Categoria de X";
               category_record "Y" "Y" "Categoria de Y"]
              eq_refl eq_refl eq_refl eq_refl eq_refl eq_refl)
    as (Hok & _ & Hlen).
  split; [exact Hok|exact Hlen].
Defined.

Lemma product_list_empty_only_on_throw_witness :
  fst (run (get_products anonymous)
         (mkDatabase [("products", [tapioca; flavorless])] 3) [])
  = res_json (Obj [("products", Arr [])]).
Proof.
  apply (proj2 (product_list_empty_only_on_throw anonymous
                  (mkDatabase [("products", [tapioca; flavorless])] 3))).
  eexists. reflexivity.
Defined.

Lemma save_without_products_empties_table_witness :
  fst (run (post_products (mkRequest bearer (Obj []))) store_with_category_X [])
  = res_json (success_body "0 produtos salvos")
  /\ rows_of "products"
       (database (snd (run (post_products (mkRequest bearer (Obj [])))
                         store_with_category_X [])))
     = [].
Proof.
  destruct (save_without_products_empties_table (mkRequest bearer (Obj []))
              store_with_category_X (rows_of "products" store_with_category_X)
              eq_refl eq_refl eq_refl eq_refl eq_refl) as (Hreply & Hrows & _).
  split; [exact Hreply|exact Hrows].
Defined.
